(** * cold-atoms: the particle ensemble, sources, sinks and the drift-kick push

    A shallow embedding of [src/coldatoms/particles.py] and
    [src/coldatoms/radiation_pressure.py].

    - Numbers are IEEE binary64 values ([np.float64] and Python floats),
      modelled by the Standard Library's executable [spec_float] with
      [prec = 53] and [emax = 1024]; every operation rounds to nearest even.
    - A NumPy array is a shape together with its flat row-major buffer.
    - Python exceptions are values of [exception]; code that can raise
      returns a [result].
    - Collaborators (sources, sinks, forces) are records of functions over
      an abstract world state [W] (their own state, the random generator);
      the drivers record the calls they make in a ghost trace.

    NumPy conventions (NumPy 1.19 and later): [np.delete] raises
    [IndexError] for an index that is out of bounds and [AxisError] for
    a 0-d argument; [ndarray.resize] fills new entries with zeros.  The
    reference count that [ndarray.resize] checks is not modelled: the
    arrays of an ensemble are taken to be referenced by the ensemble
    alone.

    Two results are decided by the platform's libraries and not by the
    code: the rounding of a dot product (BLAS: the order of the sum, fused
    multiply-add) and the rounding of [x ** 2] on a Python float (the C
    library's [pow]).  Both are parameters, see [Numerics]; nothing is
    assumed of them unless a statement says so.

    A force is handed the ensemble and the accumulator; it may change
    either, and the world, and may raise. *)

From Stdlib Require Import ZArith Lia Bool List.
From Stdlib Require Import Floats.SpecFloat.
From stdpp Require Import base option list sorting gmap strings.

Set Default Proof Using "Type".
Local Open Scope string_scope.
Local Open Scope nat_scope.
Local Open Scope list_scope.

(** ** Binary64 arithmetic *)

Module F64.

Definition prec : Z := 53.
Definition emax : Z := 1024.

Definition t : Type := spec_float.

Definition add : t -> t -> t := SFadd prec emax.
Definition sub : t -> t -> t := SFsub prec emax.
Definition mul : t -> t -> t := SFmul prec emax.
Definition div : t -> t -> t := SFdiv prec emax.
Definition sqrt : t -> t := SFsqrt prec emax.
Definition abs : t -> t := SFabs.
Definition opp : t -> t := SFopp.
Definition eqb : t -> t -> bool := SFeqb.
Definition leb : t -> t -> bool := SFleb.
Definition ltb : t -> t -> bool := SFltb.

(** The integer [m] scaled by [2^e], rounded to binary64. *)
Definition of_Z_pow2 (m e : Z) : t := binary_normalize prec emax m e false.
Definition of_Z (m : Z) : t := of_Z_pow2 m 0.

Definition zero : t := S754_zero false.
Definition half : t := Eval vm_compute in of_Z_pow2 1 (-1).
Definition one : t := Eval vm_compute in of_Z 1.
Definition two : t := Eval vm_compute in of_Z 2.
Definition three : t := Eval vm_compute in of_Z 3.
(** [np.pi], the double 0x400921FB54442D18. *)
Definition pi : t := S754_finite false 7074237752028440 (-51).

Definition is_nan (a : t) : bool :=
  match a with S754_nan => true | _ => false end.
Definition is_inf (a : t) : bool :=
  match a with S754_infinity _ => true | _ => false end.
Definition is_zero (a : t) : bool :=
  match a with S754_zero _ => true | _ => false end.
Definition is_finite (a : t) : bool :=
  match a with S754_zero _ | S754_finite _ _ _ => true | _ => false end.
(** A value of the format: a finite number is in its one normalised
    form (53 bits, or fewer at the least exponent) and within range. *)
Definition valid (a : t) : bool := valid_binary prec emax a.
(** Below zero: a negative number or minus infinity. *)
Definition is_negative (a : t) : bool :=
  match a with S754_finite true _ _ | S754_infinity true => true | _ => false end.

#[global] Instance eq_dec : EqDecision t.
Proof. solve_decision. Defined.

End F64.

Abbreviation float64 := F64.t.

(** ** Exceptions *)

(** The Python exceptions the modelled code raises.  A message that NumPy
    completes with its operands (the shapes, the index, the size) is
    given without them: exceptions of one class raised at one place are
    one value here.  [NotModelled] marks a use of NumPy outside what this
    development models (named in its argument); no statement below
    depends on what NumPy does there. *)
Inductive exception : Type :=
  | RuntimeError (msg : string)
  | ValueError (msg : string)
  | IndexError (msg : string)
  | AxisError (msg : string)
  | OverflowError (msg : string)
  | NotModelled (what : string).

Inductive result (A : Type) : Type :=
  | Ok (a : A)
  | Raise (e : exception).
Arguments Ok {A} a.
Arguments Raise {A} e.

#[global] Instance result_ret : MRet result := fun A a => Ok a.
#[global] Instance result_bind : MBind result := fun A B k r =>
  match r with Ok a => k a | Raise e => Raise e end.

(** A loop that computes one value per element and stops at the first
    exception. *)
Fixpoint for_each {A B} (f : A -> result B) (l : list A) : result (list B) :=
  match l with
  | [] => Ok []
  | a :: l' => b ← f a; bs ← for_each f l'; Ok (b :: bs)
  end.

(** ** NumPy arrays *)

Record ndarray : Type := NDArray { shape : list nat; data : list float64 }.

#[global] Instance ndarray_eq_dec : EqDecision ndarray.
Proof. solve_decision. Defined.

(** Number of elements of an array of the given shape. *)
Definition size_of (s : list nat) : nat := foldr Nat.mul 1 s.

(** The buffer holds as many elements as the shape says. *)
Definition wf_array (a : ndarray) : Prop := length (data a) = size_of (shape a).

(** [np.zeros(shape)] *)
Definition np_zeros (s : list nat) : ndarray :=
  NDArray s (replicate (size_of s) F64.zero).

(** [np.zeros_like(a)] *)
Definition np_zeros_like (a : ndarray) : ndarray := np_zeros (shape a).

(** [np.full(n, c)] *)
Definition np_full (n : nat) (c : float64) : ndarray := NDArray [n] (replicate n c).

(** [np.copy(a)] *)
Definition np_copy (a : ndarray) : ndarray := a.

(** [a.shape[0]]; a 0-d array has an empty shape tuple. *)
Definition shape0 (a : ndarray) : result nat :=
  match shape a with
  | n :: _ => Ok n
  | [] => Raise (IndexError "tuple index out of range")
  end.

(** Elements per entry along the first axis. *)
Definition stride (a : ndarray) : nat := size_of (tail (shape a)).

(** The buffer of [a[i]], the [i]-th entry along the first axis. *)
Definition row (a : ndarray) (i : nat) : list float64 :=
  take (stride a) (drop (i * stride a) (data a)).

(** [a[i]] *)
Definition getitem (a : ndarray) (i : nat) : result ndarray :=
  match shape a with
  | n :: rest =>
      if decide (i < n) then Ok (NDArray rest (row a i))
      else Raise (IndexError "index is out of bounds for axis 0")
  | [] => Raise (IndexError "too many indices for array")
  end.

(** [a[:, np.newaxis]] *)
Definition newaxis1 (a : ndarray) : result ndarray :=
  match shape a with
  | n :: rest => Ok (NDArray (n :: 1 :: rest) (data a))
  | [] => Raise (IndexError "too many indices for array")
  end.

(** [a.resize(new_shape)], in place: the flat buffer is truncated, or
    extended with zeros, to the size of the new shape. *)
Definition ndarray_resize (a : ndarray) (new_shape : list nat) : ndarray :=
  NDArray new_shape (resize (size_of new_shape) F64.zero (data a)).

(** The entries of [a], of [n] entries along its first axis, whose index
    is not listed, in their order. *)
Definition kept_rows (a : ndarray) (n : nat) (rest : list nat)
    (indices : list nat) : ndarray :=
  let keep := filter (fun i => i ∉ indices) (seq 0 n) in
  NDArray (length keep :: rest) (keep ≫= row a).

Definition no_axis : exception :=
  AxisError "axis 0 is out of bounds for array of dimension 0".

(** NumPy's message names the first offending index and the size of
    the axis. *)
Definition out_of_bounds : exception :=
  IndexError "index is out of bounds for axis 0".

(** [np.delete(a, indices, 0)]: an index that is out of bounds raises,
    and so does an array that has no first axis. *)
Definition np_delete (a : ndarray) (indices : list nat) : result ndarray :=
  match shape a with
  | [] => Raise no_axis
  | n :: rest =>
      if decide (Forall (fun i => i < n) indices)
      then Ok (kept_rows a n rest indices)
      else Raise out_of_bounds
  end.

(** Elementwise application of a function of one argument: a NumPy
    function such as [abs] or [np.sqrt], or an operation whose other
    operand is a Python scalar. *)
Definition np_map (f : float64 -> float64) (a : ndarray) : ndarray :=
  NDArray (shape a) (f <$> data a).

(** *** Broadcasting *)

(** Shapes are aligned at their last axis, so the rule works on reversed
    shapes. *)
Fixpoint broadcast_rev (s1 s2 : list nat) : option (list nat) :=
  match s1, s2 with
  | [], s => Some s
  | s, [] => Some s
  | a :: s1', b :: s2' =>
      d ← (if decide (a = b) then Some a
           else if decide (a = 1) then Some b
           else if decide (b = 1) then Some a
           else None);
      r ← broadcast_rev s1' s2';
      Some (d :: r)
  end.

Definition broadcast_shapes (s1 s2 : list nat) : option (list nat) :=
  reverse <$> broadcast_rev (reverse s1) (reverse s2).

(** Flat index, in an operand of (reversed) shape [rin], of the element
    that is broadcast to flat index [k] of the result of (reversed) shape
    [rout]; [st] is the operand's stride at the current axis. *)
Fixpoint bcast_index (rout rin : list nat) (k st : nat) : nat :=
  match rout, rin with
  | d :: rout', di :: rin' =>
      (if decide (di = 1) then 0 else k mod d) * st
      + bcast_index rout' rin' (k / d) (st * di)
  | _, _ => 0
  end.

(** The element at flat index [k]. *)
Definition get (a : ndarray) (k : nat) : float64 := default F64.zero (data a !! k).

Definition broadcast_data (op : float64 -> float64 -> float64)
    (s : list nat) (a b : ndarray) : list float64 :=
  (fun k => op (get a (bcast_index (reverse s) (reverse (shape a)) k 1))
               (get b (bcast_index (reverse s) (reverse (shape b)) k 1)))
  <$> seq 0 (size_of s).

Definition broadcast_error : exception :=
  ValueError "operands could not be broadcast together".

(** [a op b] for two arrays. *)
Definition np_binop (op : float64 -> float64 -> float64) (a b : ndarray)
    : result ndarray :=
  match broadcast_shapes (shape a) (shape b) with
  | Some s => Ok (NDArray s (broadcast_data op s a b))
  | None => Raise broadcast_error
  end.

(** [a op= b], in place: [b] is broadcast to the shape of [a]. *)
Definition np_iop (op : float64 -> float64 -> float64) (a b : ndarray)
    : result ndarray :=
  match broadcast_shapes (shape a) (shape b) with
  | Some s =>
      if decide (s = shape a) then Ok (NDArray s (broadcast_data op s a b))
      else Raise broadcast_error
  | None => Raise broadcast_error
  end.

(** *** Library numerics *)

(** What the platform's libraries decide: [blas_dot a b] is the dot
    product of two buffers of equal length as [ndarray.dot] computes it,
    [libm_pow2 x] is the C library's [pow(x, 2.0)]. *)
Class Numerics : Type := {
  blas_dot : list float64 -> list float64 -> float64;
  libm_pow2 : float64 -> float64
}.

Section LibraryCalls.
Context {N : Numerics}.

(** [a.dot(b)] for two vectors. *)
Definition np_dot (a b : ndarray) : result float64 :=
  match shape a, shape b with
  | [n], [m] =>
      if decide (n = m) then Ok (blas_dot (data a) (data b))
      else Raise (ValueError "shapes not aligned")
  | _, _ => Raise (NotModelled "dot of operands that are not both vectors")
  end.

(** [np.linalg.norm(a)]: the square root of [a.dot(a)] for the flattened
    array. *)
Definition np_linalg_norm (a : ndarray) : float64 :=
  F64.sqrt (blas_dot (data a) (data a)).

(** [x ** 2] on a Python float: the result of [pow], and an
    [OverflowError] when [pow] overflows on a finite operand. *)
Definition py_pow2 (x : float64) : result float64 :=
  let y := libm_pow2 x in
  if F64.is_finite x && F64.is_inf y
  then Raise (OverflowError "(34, 'Numerical result out of range')")
  else Ok y.

End LibraryCalls.

(** One set of library routines, for the examples: the dot product is
    summed from left to right starting from zero, every product and every
    sum rounded, and [pow(x, 2.0)] is the rounded product.  The examples
    below use operands on which these results are exact, and so the same
    with any other routines. *)
Definition dot_data (a b : list float64) : float64 :=
  foldl (fun acc p => F64.add acc (F64.mul p.1 p.2)) F64.zero (zip a b).

Definition sequential : Numerics :=
  {| blas_dot := dot_data; libm_pow2 := fun x => F64.mul x x |}.

(** ** The ensemble *)

Module Ensemble.

Record t : Type := Build {
  x : ndarray;
  v : ndarray;
  ensemble_properties : gmap string ndarray;
  particle_properties : gmap string ndarray
}.

(** [Ensemble.__init__] *)
Definition init (num_ptcls : nat) : t :=
  {| x := np_zeros [num_ptcls; 3];
     v := np_zeros [num_ptcls; 3];
     ensemble_properties := ∅;
     particle_properties := ∅ |}.

(** [Ensemble.get_num_ptcls], the property [num_ptcls] *)
Definition get_num_ptcls (e : t) : result nat := shape0 (x e).

(** [Ensemble.set_particle_property] *)
Definition set_particle_property (key : string) (prop : ndarray) (e : t)
    : result t :=
  n ← shape0 prop;
  num_ptcls ← get_num_ptcls e;
  if decide (n ≠ num_ptcls) then
    Raise (RuntimeError
             "Size of property array does not match number of particles.")
  else
    Ok {| x := x e; v := v e;
          ensemble_properties := ensemble_properties e;
          particle_properties :=
            <[key := np_copy prop]> (particle_properties e) |}.

(** [Ensemble.resize].  [shape = list(self.x.shape); shape[0] = new_size]
    fails on a 0-d [x]; [x] and [v] are both resized to that shape.  In
    the loop, [shape = [prop.shape]] is a one-element list holding the
    shape tuple, so after [shape[0] = new_size] every property array is
    resized to the one-dimensional shape [[new_size]]. *)
Definition resize (new_size : nat) (e : t) : result t :=
  match shape (x e) with
  | [] => Raise (IndexError "list assignment index out of range")
  | _ :: rest =>
      let shape := new_size :: rest in
      Ok {| x := ndarray_resize (x e) shape;
            v := ndarray_resize (v e) shape;
            ensemble_properties := ensemble_properties e;
            particle_properties :=
              (fun prop => ndarray_resize prop [new_size])
                <$> particle_properties e |}
  end.

(** [np.delete(property, indices, 0)] in the loop of [delete]: the loop
    variable is a key of the dictionary, a string, which NumPy takes as a
    0-d array.  The result would be assigned to the loop variable, not
    stored. *)
Definition np_delete_key (key : string) (indices : list nat) : result unit :=
  Raise no_axis.

(** [Ensemble.delete]: the outcome and the ensemble the call leaves.
    Each of the two assignments takes effect when its [np.delete]
    returns; the loop over the keys of [particle_properties] raises at
    its first key, after both. *)
Definition delete (indices : list nat) (e : t) : result unit * t :=
  match np_delete (x e) indices with
  | Raise ex => (Raise ex, e)
  | Ok x' =>
      let e :=
        {| x := x'; v := v e;
           ensemble_properties := ensemble_properties e;
           particle_properties := particle_properties e |} in
      match np_delete (v e) indices with
      | Raise ex => (Raise ex, e)
      | Ok v' =>
          let e :=
            {| x := x e; v := v';
               ensemble_properties := ensemble_properties e;
               particle_properties := particle_properties e |} in
          (for_each (fun key => np_delete_key key indices)
             (map_to_list (particle_properties e)).*1;;
           Ok tt,
           e)
      end
  end.

(** Positions and velocities are arrays of one shape whose buffers match
    it. *)
Definition aligned (e : t) : Prop :=
  shape (x e) = shape (v e) /\ wf_array (x e) /\ wf_array (v e).

End Ensemble.

(** A use of the class: one method call on an ensemble. *)
Inductive ensemble_op : Type :=
  | Op_resize (new_size : nat)
  | Op_delete (indices : list nat)
  | Op_set_particle_property (key : string) (prop : ndarray).

(** The ensemble after the call, whether it returned or raised ([resize]
    and [set_particle_property] raise before their first assignment,
    [delete] may raise after it has reduced positions and velocities). *)
Definition apply_op (o : ensemble_op) (e : Ensemble.t) : Ensemble.t :=
  match o with
  | Op_resize new_size =>
      match Ensemble.resize new_size e with Ok e' => e' | Raise _ => e end
  | Op_delete indices => (Ensemble.delete indices e).2
  | Op_set_particle_property key prop =>
      match Ensemble.set_particle_property key prop e with
      | Ok e' => e'
      | Raise _ => e
      end
  end.

Definition apply_ops (ops : list ensemble_op) (e : Ensemble.t) : Ensemble.t :=
  foldl (fun e o => apply_op o e) e ops.

(** ** Collaborators *)

(** [class Source]: the two methods a source implements.  A source keeps
    its own state (a stochastic rate, say) in the world. *)
Module Source.

Record t (W : Type) : Type := Build {
  num_ptcls_produced : float64 -> W -> nat * W;
  produce_ptcls : float64 -> nat -> nat -> Ensemble.t -> W -> Ensemble.t * W
}.
Arguments num_ptcls_produced {W} _ _ _.
Arguments produce_ptcls {W} _ _ _ _ _ _.

(** The base class: produces nothing. *)
Definition base (W : Type) : t W :=
  {| num_ptcls_produced := fun dt w => (0, w);
     produce_ptcls := fun dt start end_ ensemble w => (ensemble, w) |}.

End Source.

(** [class Sink] *)
Module Sink.

Record t (W : Type) : Type := Build {
  find_absorption_time : ndarray -> ndarray -> float64 -> result ndarray;
  record_absorption :
    Ensemble.t -> float64 -> ndarray -> list nat -> W -> Ensemble.t * W
}.
Arguments find_absorption_time {W} _ _ _ _.
Arguments record_absorption {W} _ _ _ _ _ _.

(** The base class absorbs nothing: [np.full(x.shape[0], 2.0 * dt)]. *)
Definition base_find_absorption_time (x v : ndarray) (dt : float64)
    : result ndarray :=
  n ← shape0 x;
  Ok (np_full n (F64.mul F64.two dt)).

Definition base_record_absorption {W} (ensemble : Ensemble.t) (dt : float64)
    (absorption_times : ndarray) (absorption_indices : list nat) (w : W)
    : Ensemble.t * W :=
  (ensemble, w).

Definition base (W : Type) : t W :=
  {| find_absorption_time := base_find_absorption_time;
     record_absorption := base_record_absorption |}.

End Sink.

(** [class SinkPlane(Sink)] *)
Module SinkPlane.

Record t : Type := Build { point : ndarray; normal : ndarray }.

Section Methods.
Context {N : Numerics}.

(** One turn of the loop of [SinkPlane.find_absorption_time]: the value
    stored in [taus[i]]. *)
Definition absorption_time (self : t) (x v : ndarray) (dt : float64) (i : nat)
    : result float64 :=
  vi ← getitem v i;
  normal_velocity ← np_dot (normal self) vi;
  if F64.eqb normal_velocity F64.zero then
    Ok (F64.mul F64.two dt)
  else
    xi ← getitem x i;
    d ← np_binop F64.sub (point self) xi;
    n ← np_dot (normal self) d;
    Ok (F64.div n normal_velocity).

(** [SinkPlane.find_absorption_time] *)
Definition find_absorption_time (self : t) (x v : ndarray) (dt : float64)
    : result ndarray :=
  n ← shape0 x;
  taus ← for_each (absorption_time self x v dt) (seq 0 n);
  Ok (NDArray [n] taus).

(** The object seen as a sink; [record_absorption] is inherited. *)
Definition as_sink (W : Type) (self : t) : Sink.t W :=
  {| Sink.find_absorption_time := find_absorption_time self;
     Sink.record_absorption := Sink.base_record_absorption |}.

End Methods.

End SinkPlane.

(** A force: an object with a method [force(dt, ensemble, f)] that adds
    the force integrated over [dt] to [f].  The method is handed the
    ensemble and the accumulator themselves: the model returns the
    accumulator (or the exception), the ensemble and the world as the
    call leaves them. *)
Module Force.

Record t (W : Type) : Type := Build {
  force :
    float64 -> Ensemble.t -> ndarray -> W -> result ndarray * Ensemble.t * W
}.
Arguments force {W} _ _ _ _ _.

End Force.

(** ** The drivers' state *)

(** The calls a driver makes to its collaborators and to the ensemble's
    mutating methods, in order (ghost state).  A source or a force is
    named by its position in the list the driver was given. *)
Inductive call : Type :=
  | Call_num_ptcls_produced (i : nat) (dt : float64) (returned : nat)
  | Call_produce_ptcls (i : nat) (dt : float64) (start end_ : nat)
  | Call_resize (new_size : nat)
  | Call_find_absorption_time (x v : ndarray) (dt : float64)
  | Call_record_absorption (ensemble : Ensemble.t) (dt : float64)
      (absorption_times : ndarray) (absorption_indices : list nat)
  | Call_delete (indices : list nat)
  | Call_force (i : nat) (dt : float64).

Record state (W : Type) : Type := State {
  ens : Ensemble.t;
  world : W;
  calls : list call
}.
Arguments State {W} _ _ _.
Arguments ens {W} _.
Arguments world {W} _.
Arguments calls {W} _.

(** A computation that reads and updates the state and may raise; the
    state at the time of the exception is kept. *)
Definition M (W A : Type) : Type := state W -> result A * state W.

#[global] Instance M_ret {W} : MRet (M W) := fun A a st => (Ok a, st).
#[global] Instance M_bind {W} : MBind (M W) := fun A B k m st =>
  match m st with
  | (Ok a, st') => k a st'
  | (Raise e, st') => (Raise e, st')
  end.

Section Drivers.
Context {W : Type}.

Definition get_ens : M W Ensemble.t := fun st => (Ok (ens st), st).

Definition set_ens (e : Ensemble.t) : M W unit :=
  fun st => (Ok tt, State e (world st) (calls st)).

Definition log (c : call) : M W unit :=
  fun st => (Ok tt, State (ens st) (world st) (calls st ++ [c])).

Definition lift {A} (r : result A) : M W A := fun st => (r, st).

Definition raise {A} (e : exception) : M W A := lift (Raise e).

(** [ensemble.num_ptcls] *)
Definition num_ptcls : M W nat := e ← get_ens; lift (Ensemble.get_num_ptcls e).

(** [ensemble.resize(new_size)] *)
Definition ens_resize (new_size : nat) : M W unit :=
  log (Call_resize new_size);;
  e ← get_ens;
  e' ← lift (Ensemble.resize new_size e);
  set_ens e'.

(** [ensemble.delete(indices)] *)
Definition ens_delete (indices : list nat) : M W unit :=
  log (Call_delete indices);;
  ((fun st =>
      ((Ensemble.delete indices (ens st)).1,
       State (Ensemble.delete indices (ens st)).2 (world st) (calls st)))
   : M W unit).

(** [s.num_ptcls_produced(dt)] for the source at position [i] *)
Definition call_num_ptcls_produced (i : nat) (s : Source.t W) (dt : float64)
    : M W nat :=
  fun st =>
    let (k, w) := Source.num_ptcls_produced s dt (world st) in
    (Ok k, State (ens st) w (calls st ++ [Call_num_ptcls_produced i dt k])).

(** [s.produce_ptcls(dt, start, end, ensemble)] *)
Definition call_produce_ptcls (i : nat) (s : Source.t W) (dt : float64)
    (start end_ : nat) : M W unit :=
  fun st =>
    let (e, w) := Source.produce_ptcls s dt start end_ (ens st) (world st) in
    (Ok tt, State e w (calls st ++ [Call_produce_ptcls i dt start end_])).

(** [sink.find_absorption_time(ensemble.x, ensemble.v, dt)] *)
Definition call_find_absorption_time (sink : Sink.t W) (dt : float64)
    : M W ndarray :=
  e ← get_ens;
  log (Call_find_absorption_time (Ensemble.x e) (Ensemble.v e) dt);;
  lift (Sink.find_absorption_time sink (Ensemble.x e) (Ensemble.v e) dt).

(** [sink.record_absorption(ensemble, dt, absorption_times,
    absorption_indices)] *)
Definition call_record_absorption (sink : Sink.t W) (dt : float64)
    (absorption_times : ndarray) (absorption_indices : list nat) : M W unit :=
  fun st =>
    let (e, w) :=
      Sink.record_absorption sink (ens st) dt absorption_times
        absorption_indices (world st) in
    (Ok tt,
     State e w
       (calls st
        ++ [Call_record_absorption (ens st) dt absorption_times
              absorption_indices])).

(** [force.force(dt, ensemble, f)] for the force at position [i] *)
Definition call_force (i : nat) (force : Force.t W) (dt : float64)
    (f : ndarray) : M W ndarray :=
  fun st =>
    let '(r, e, w) := Force.force force dt (ens st) f (world st) in
    (r, State e w (calls st ++ [Call_force i dt])).

(** *** [produce_ptcls] *)

(** The first loop: [for s in sources]. *)
Fixpoint query_sources (dt : float64) (i : nat) (sources : list (Source.t W))
    (num_new_ptcls : list nat) (tot_new_ptcls : nat) : M W (list nat * nat) :=
  match sources with
  | [] => mret (num_new_ptcls, tot_new_ptcls)
  | s :: sources' =>
      k ← call_num_ptcls_produced i s dt;
      let num_new_ptcls := num_new_ptcls ++ [k] in
      match last num_new_ptcls with
      | Some k' =>
          query_sources dt (S i) sources' num_new_ptcls (tot_new_ptcls + k')
      | None => raise (IndexError "list index out of range")
      end
  end.

(** The second loop: [for i, s in enumerate(sources)]. *)
Fixpoint fill_sources (dt : float64) (i : nat) (sources : list (Source.t W))
    (num_new_ptcls : list nat) (start : nat) : M W unit :=
  match sources with
  | [] => mret tt
  | s :: sources' =>
      match num_new_ptcls !! i with
      | Some k =>
          call_produce_ptcls i s dt start (start + k);;
          fill_sources dt (S i) sources' num_new_ptcls (start + k)
      | None => raise (IndexError "list index out of range")
      end
  end.

Definition produce_ptcls (dt : float64) (sources : list (Source.t W))
    : M W unit :=
  r ← query_sources dt 0 sources [] 0;
  let num_new_ptcls := r.1 in
  let tot_new_ptcls := r.2 in
  start ← num_ptcls;
  n ← num_ptcls;
  ens_resize (n + tot_new_ptcls);;
  fill_sources dt 0 sources num_new_ptcls start.

(** *** [process_sink] *)

(** One entry of [abs(absorption_times - 0.5 * dt) <= 0.5 * dt]. *)
Definition absorbed (dt tau : float64) : bool :=
  F64.leb (F64.abs (F64.sub tau (F64.mul F64.half dt))) (F64.mul F64.half dt).

(** [np.arange(n)[mask]] for a boolean array [mask], given by its shape
    and buffer: a vector of length [n] selects the positions where it is
    true. *)
Definition boolean_index (n : nat) (mask_shape : list nat) (mask : list bool)
    : result (list nat) :=
  match mask_shape with
  | [m] =>
      if decide (m = n)
      then Ok (filter (fun i => mask !! i = Some true) (seq 0 n))
      else Raise (IndexError "boolean index did not match indexed array")
  | [] => Raise (NotModelled "indexing with a 0-d boolean")
  | _ => Raise (IndexError "too many indices for array")
  end.

Definition process_sink (dt : float64) (sink : option (Sink.t W)) : M W unit :=
  match sink with
  | None => mret tt
  | Some sink =>
      absorption_times ← call_find_absorption_time sink dt;
      n ← num_ptcls;
      absorption_indices ←
        lift (boolean_index n (shape absorption_times)
                (absorbed dt <$> data absorption_times));
      call_record_absorption sink dt absorption_times absorption_indices;;
      ens_delete absorption_indices
  end.

(** *** [drift_kick] *)

(** [ensemble.x += c * ensemble.v] *)
Definition drift (c : float64) : M W unit :=
  e ← get_ens;
  x' ← lift (np_iop F64.add (Ensemble.x e) (np_map (F64.mul c) (Ensemble.v e)));
  set_ens {| Ensemble.x := x'; Ensemble.v := Ensemble.v e;
             Ensemble.ensemble_properties := Ensemble.ensemble_properties e;
             Ensemble.particle_properties := Ensemble.particle_properties e |}.

(** [for force in forces: force.force(dt, ensemble, f)] *)
Fixpoint apply_forces (dt : float64) (i : nat) (forces : list (Force.t W))
    (f : ndarray) : M W ndarray :=
  match forces with
  | [] => mret f
  | force :: forces' =>
      f' ← call_force i force dt f;
      apply_forces dt (S i) forces' f'
  end.

Definition missing_mass : exception :=
  RuntimeError
    "To accelerate particles we need a mass ensemble or particle property".

(** The branch on ['mass'] *)
Definition resolve_mass (e : Ensemble.t) : result ndarray :=
  match Ensemble.ensemble_properties e !! "mass" with
  | Some m => Ok m
  | None =>
      match Ensemble.particle_properties e !! "mass" with
      | Some m => Ok m
      | None => Raise missing_mass
      end
  end.

(** [ensemble.v += f / m] *)
Definition kick (f m : ndarray) : M W unit :=
  e ← get_ens;
  a ← lift (np_binop F64.div f m);
  v' ← lift (np_iop F64.add (Ensemble.v e) a);
  set_ens {| Ensemble.x := Ensemble.x e; Ensemble.v := v';
             Ensemble.ensemble_properties := Ensemble.ensemble_properties e;
             Ensemble.particle_properties := Ensemble.particle_properties e |}.

Definition drift_kick (dt : float64) (forces : list (Force.t W))
    (sink : option (Sink.t W)) : M W unit :=
  if decide (length forces = 0) then
    process_sink dt sink;;
    drift dt
  else
    process_sink (F64.mul F64.half dt) sink;;
    drift (F64.mul F64.half dt);;
    e ← get_ens;
    f ← apply_forces dt 0 forces (np_zeros_like (Ensemble.v e));
    e ← get_ens;
    m ← lift (resolve_mass e);
    kick f m;;
    process_sink (F64.mul F64.half dt) sink;;
    drift (F64.mul F64.half dt).

End Drivers.

(** ** Radiation pressure *)

(** [np.random.normal(size=shape)]: as many samples as the shape holds,
    drawn one after the other from the generator in the world. *)
Fixpoint samples {W} (sample : W -> float64 * W) (n : nat) (w : W)
    : list float64 * W :=
  match n with
  | 0 => ([], w)
  | S n' =>
      let (r, w1) := sample w in
      let (rs, w2) := samples sample n' w1 in
      (r :: rs, w2)
  end.

Definition np_random_normal {W} (sample : W -> float64 * W) (size : list nat)
    (w : W) : ndarray * W :=
  let (rs, w') := samples sample (size_of size) w in
  (NDArray size rs, w').

Module RadiationPressure.

(** [intensity] and [detuning] stand for the methods
    [intensity.intensities(x)] and [detuning.detunings(x, v)] of the two
    profile objects. *)
Record t : Type := Build {
  gamma : float64;
  hbar_k : ndarray;
  intensity : ndarray -> ndarray;
  detuning : ndarray -> ndarray -> ndarray
}.

(** [RadiationPressure.__init__] *)
Definition init (gamma : float64) (hbar_k : ndarray)
    (intensity : ndarray -> ndarray) (detuning : ndarray -> ndarray -> ndarray)
    : t :=
  {| gamma := gamma;
     hbar_k := np_copy hbar_k;
     intensity := intensity;
     detuning := detuning |}.

Section Methods.
Context {N : Numerics}.

(** The scalar factor [(gamma / 2.0 / np.pi) * (gamma / 2.0)**2]. *)
Definition numerator (gamma : float64) : result float64 :=
  g2 ← py_pow2 (F64.div gamma F64.two);
  Ok (F64.mul (F64.div (F64.div gamma F64.two) F64.pi) g2).

(** One entry of
    [(gamma / 2.0)**2 * (1.0 + 2.0 * s_of_r)], given [(gamma / 2.0)**2]. *)
Definition saturation (g2 s : float64) : float64 :=
  F64.mul g2 (F64.add F64.one (F64.mul F64.two s)).

(** The expected numbers of scattered photons:
    [dt * s_of_r * ((gamma / 2.0 / np.pi) * (gamma / 2.0)**2 /
       ((gamma / 2.0)**2 * (1.0 + 2.0 * s_of_r) + deltas**2))]. *)
Definition nbars (self : t) (dt : float64) (s_of_r deltas : ndarray)
    : result ndarray :=
  let dt_s := np_map (F64.mul dt) s_of_r in
  num ← numerator (gamma self);
  g2 ← py_pow2 (F64.div (gamma self) F64.two);
  den ← np_binop F64.add (np_map (saturation g2) s_of_r)
                         (np_map (fun d => F64.mul d d) deltas);
  np_binop F64.mul dt_s (np_map (F64.div num) den).

(** One entry of [np.sqrt(nbars[:, np.newaxis] / 3.0) *
    np.linalg.norm(self.hbar_k)]. *)
Definition recoil_scale (norm nbar : float64) : float64 :=
  F64.mul (F64.sqrt (F64.div nbar F64.three)) norm.

(** The last two statements of [force], for the drawn [recoil_momenta]. *)
Definition add_recoil (self : t) (nbars recoil_momenta f : ndarray)
    : result ndarray :=
  col ← newaxis1 nbars;
  recoil_momenta ←
    np_iop F64.mul recoil_momenta
      (np_map (recoil_scale (np_linalg_norm (hbar_k self))) col);
  col ← newaxis1 nbars;
  mean ← np_binop F64.mul col (hbar_k self);
  total ← np_binop F64.add mean recoil_momenta;
  np_iop F64.add f total.

(** [RadiationPressure.force]; [sample] is the generator behind
    [np.random.normal].  The updated accumulator is returned; the
    ensemble is only read. *)
Definition force {W} (sample : W -> float64 * W) (self : t) (dt : float64)
    (ensemble : Ensemble.t) (f : ndarray) (w : W) : result ndarray * W :=
  let s_of_r := intensity self (Ensemble.x ensemble) in
  let deltas := detuning self (Ensemble.x ensemble) (Ensemble.v ensemble) in
  match nbars self dt s_of_r deltas with
  | Raise e => (Raise e, w)
  | Ok nbars =>
      let (recoil_momenta, w') :=
        np_random_normal sample (shape (Ensemble.x ensemble)) w in
      (add_recoil self nbars recoil_momenta f, w')
  end.

(** The object seen as a force of [drift_kick]. *)
Definition as_force {W} (sample : W -> float64 * W) (self : t) : Force.t W :=
  {| Force.force := fun dt ensemble f w =>
       ((force sample self dt ensemble f w).1, ensemble,
        (force sample self dt ensemble f w).2) |}.

End Methods.

End RadiationPressure.

(** ** Reference behaviour

    What the specification says of the drivers and of the force, written
    independently of the definitions above, to compare them with. *)

(** Every source is asked once for its count, in list order. *)
Fixpoint query_once {W} (dt : float64) (sources : list (Source.t W)) (w : W)
    : list nat * W :=
  match sources with
  | [] => ([], w)
  | s :: sources' =>
      let (k, w1) := Source.num_ptcls_produced s dt w in
      let (ks, w2) := query_once dt sources' w1 in
      (k :: ks, w2)
  end.

(** Where the slice of source [i] starts, given all counts: after the
    [initial] particles and the slices of the sources before it. *)
Definition slice_start (initial : nat) (counts : list nat) (i : nat) : nat :=
  initial + sum_list (take i counts).

(** The sources fill their slices one after the other. *)
Fixpoint fill_in_order {W} (dt : float64) (sources : list (Source.t W))
    (counts : list nat) (start : nat) (ew : Ensemble.t * W) : Ensemble.t * W :=
  match sources, counts with
  | s :: sources', k :: counts' =>
      fill_in_order dt sources' counts' (start + k)
        (Source.produce_ptcls s dt start (start + k) ew.1 ew.2)
  | _, _ => ew
  end.

(** The force-driven branch of [drift_kick] up to the mass lookup: the
    first half step and the accumulation of the forces. *)
Definition before_mass_lookup {W} (dt : float64) (forces : list (Force.t W))
    (sink : option (Sink.t W)) : M W ndarray :=
  process_sink (F64.mul F64.half dt) sink;;
  drift (F64.mul F64.half dt);;
  e ← get_ens;
  apply_forces dt 0 forces (np_zeros_like (Ensemble.v e)).

(** The rest of the branch, once the mass [m] is known: the velocity
    update with [m] and the second half step. *)
Definition after_mass_lookup {W} (dt : float64) (sink : option (Sink.t W))
    (f m : ndarray) : M W unit :=
  kick f m;;
  process_sink (F64.mul F64.half dt) sink;;
  drift (F64.mul F64.half dt).

Definition square (a : float64) : float64 := F64.mul a a.

(** The scattering rate of one particle, as the specification writes it:
    [(gamma/(2 pi)) * (gamma/2)^2 / ((gamma/2)^2 (1 + 2 s) + delta^2)],
    every operation rounded, in the order of the code; [g2] is the value
    of [(gamma/2)^2] (the Python power [(gamma / 2.0)**2], decided by the
    C library) and [delta^2] the rounded product (NumPy's square of an
    array). *)
Definition scattering_rate (g2 gamma s delta : float64) : float64 :=
  F64.div
    (F64.mul (F64.div (F64.div gamma F64.two) F64.pi) g2)
    (F64.add
       (F64.mul g2 (F64.add F64.one (F64.mul F64.two s)))
       (square delta)).

(** The expected number of scattered photons of one particle over the
    step, [nbar = dt * s * rate]. *)
Definition photons (g2 gamma dt s delta : float64) : float64 :=
  F64.mul (F64.mul dt s) (scattering_rate g2 gamma s delta).

(** What one call adds to one component of the accumulator:
    [nbar * hbar_k + sqrt(nbar/3) * |hbar_k| * r]. *)
Definition recoil (nbar hbar_k_j norm r : float64) : float64 :=
  F64.add (F64.mul nbar hbar_k_j)
    (F64.mul (F64.mul (F64.sqrt (F64.div nbar F64.three)) norm) r).

(** The accumulator entry [b] holds the number that [a] held: the same
    value, or a zero for a zero (the sum of two zeros can differ from
    either in sign). *)
Definition same_number (a b : float64) : Prop :=
  b = a \/ (F64.is_zero a = true /\ F64.is_zero b = true).

(** A dot product routine is exact along the third axis: with the unit
    vector (0, 0, 1) it returns the third component of the other vector,
    a zero for a zero.  (Every product but one is a zero, so the order of
    the sum and a fused multiply-add make no difference.) *)
Definition exact_on_axis {N : Numerics} : Prop :=
  forall a b c : float64,
    F64.is_finite a = true -> F64.is_finite b = true ->
    F64.is_finite c = true -> F64.valid c = true ->
    same_number c (blas_dot [F64.zero; F64.zero; F64.one] [a; b; c]).

(** The indices below [n] that a deletion of [indices] keeps, in
    ascending order. *)
Definition survivors (n : nat) (indices : list nat) : list nat :=
  filter (fun i => i ∉ indices) (seq 0 n).

(** What every method of the class keeps true of positions and
    velocities. *)
Definition xv_aligned (n : nat) (e : Ensemble.t) : Prop :=
  shape (Ensemble.x e) = [n; 3] /\ shape (Ensemble.v e) = [n; 3]
  /\ wf_array (Ensemble.x e) /\ wf_array (Ensemble.v e).

(** ** Example inputs *)

(** Two particles with a per-particle mass. *)
Definition two_ptcls_with_mass : result Ensemble.t :=
  Ensemble.set_particle_property "mass" (NDArray [2] [F64.one; F64.two])
    (Ensemble.init 2).

(** Two particles with a per-particle property of two components. *)
Definition two_ptcls_with_pairs : result Ensemble.t :=
  Ensemble.set_particle_property "spin"
    (NDArray [2; 2] [F64.of_Z 1; F64.of_Z 2; F64.of_Z 3; F64.of_Z 4])
    (Ensemble.init 2).

(** A source whose count changes from one query to the next (it returns
    the number of queries made so far) and that notes the slices it is
    given; the world is the query counter and the list of slices. *)
Definition counting_source : Source.t (nat * list (nat * nat)) :=
  {| Source.num_ptcls_produced := fun dt w => (S w.1, (S w.1, w.2));
     Source.produce_ptcls := fun dt start end_ ensemble w =>
       (ensemble, (w.1, w.2 ++ [(start, end_)])) |}.

(** One particle at (1, 2, 3) with velocity (1, 0, -1). *)
Definition one_moving_ptcl : Ensemble.t :=
  {| Ensemble.x := NDArray [1; 3] [F64.of_Z 1; F64.of_Z 2; F64.of_Z 3];
     Ensemble.v := NDArray [1; 3] [F64.of_Z 1; F64.zero; F64.of_Z (-1)];
     Ensemble.ensemble_properties := ∅;
     Ensemble.particle_properties := ∅ |}.

(** The plane through the origin with normal (0, 0, 1). *)
Definition plane_z0 : SinkPlane.t :=
  {| SinkPlane.point := NDArray [3] [F64.zero; F64.zero; F64.zero];
     SinkPlane.normal := NDArray [3] [F64.zero; F64.zero; F64.one] |}.

(** An ensemble of one particle at [(0, 0, z)] with velocity [v], and the
    empty ensemble. *)
Definition one_ptcl (z : float64) (v : list float64) : Ensemble.t :=
  {| Ensemble.x := NDArray [1; 3] [F64.zero; F64.zero; z];
     Ensemble.v := NDArray [1; 3] v;
     Ensemble.ensemble_properties := ∅;
     Ensemble.particle_properties := ∅ |}.

Definition no_ptcl : Ensemble.t :=
  {| Ensemble.x := NDArray [0; 3] [];
     Ensemble.v := NDArray [0; 3] [];
     Ensemble.ensemble_properties := ∅;
     Ensemble.particle_properties := ∅ |}.

(** The particle of the specification's example: at z = 5, moving down
    with v_z = -10. *)
Definition falling_ptcl : Ensemble.t :=
  one_ptcl (F64.of_Z 5) [F64.zero; F64.zero; F64.of_Z (-10)].

(** A particle at z = 5 that moves along the plane: v = (1, 2, 0). *)
Definition gliding_ptcl : Ensemble.t :=
  one_ptcl (F64.of_Z 5) [F64.of_Z 1; F64.of_Z 2; F64.zero].

(** A particle just above the plane, at z = 2^-60, that moves away from
    it with v_z = 1. *)
Definition leaving_ptcl : Ensemble.t :=
  one_ptcl (F64.of_Z_pow2 1 (-60)) [F64.zero; F64.zero; F64.one].

(** Adds one to every component of the accumulator. *)
Definition unit_push : Force.t unit :=
  {| Force.force := fun dt ensemble f w =>
       (Ok (np_map (fun a => F64.add a F64.one) f), ensemble, w) |}.

(** One particle at rest at the origin, with the ensemble-wide mass 2 and
    the per-particle mass 4. *)
Definition ptcl_with_two_masses : Ensemble.t :=
  {| Ensemble.x := np_zeros [1; 3];
     Ensemble.v := np_zeros [1; 3];
     Ensemble.ensemble_properties := {[ "mass" := NDArray [] [F64.of_Z 2] ]};
     Ensemble.particle_properties := {[ "mass" := NDArray [1; 1] [F64.of_Z 4] ]} |}.

(** A profile that has the same value [c] at every particle. *)
Definition uniform (c : float64) (x : ndarray) : ndarray :=
  match shape x with
  | n :: _ => np_full n c
  | [] => NDArray [] [c]
  end.

(** A generator whose every draw is [c]. *)
Definition constant_draw (c : float64) (w : unit) : float64 * unit := (c, w).

(** A laser along the first axis.  [gamma] is the decay rate, [s] the
    intensity and [delta] the detuning at every particle. *)
Definition laser (gamma s delta : float64) : RadiationPressure.t :=
  RadiationPressure.init gamma (NDArray [3] [F64.one; F64.zero; F64.zero])
    (uniform s) (fun x v => uniform delta x).

Definition not_a_number : float64 := S754_nan.

(** Whether a call is a deletion. *)
Definition is_delete (o : ensemble_op) : bool :=
  match o with Op_delete _ => true | _ => false end.

(** The buffer of [x + c * v], element by element. *)
Definition drift_data (c : float64) (x v : list float64) : list float64 :=
  zip_with (fun x v => F64.add x (F64.mul c v)) x v.

(** The buffer of [v + f / m] for a scalar [m], element by element. *)
Definition kick_data (m : float64) (v f : list float64) : list float64 :=
  zip_with (fun v f => F64.add v (F64.div f m)) v f.

(** What a step without a sink keeps of an ensemble: the shapes of
    positions and velocities, and both property maps. *)
Definition same_frame (e e' : Ensemble.t) : Prop :=
  shape (Ensemble.x e') = shape (Ensemble.x e)
  /\ shape (Ensemble.v e') = shape (Ensemble.v e)
  /\ Ensemble.ensemble_properties e' = Ensemble.ensemble_properties e
  /\ Ensemble.particle_properties e' = Ensemble.particle_properties e.

(** A computation that keeps this frame whatever its outcome. *)
Definition keeps_frame {W A} (m : M W A) : Prop :=
  forall st, same_frame (ens st) (ens (m st).2).

(** A force that keeps this frame of the ensemble it is handed, whatever
    else it changes there and whatever its outcome. *)
Definition force_keeps_frame {W} (force : Force.t W) : Prop :=
  forall dt e f w, same_frame e (Force.force force dt e f w).1.2.

(** A force that only reads the ensemble it is handed. *)
Definition force_leaves_ensemble {W} (force : Force.t W) : Prop :=
  forall dt e f w, (Force.force force dt e f w).1.2 = e.

(** A force that raises, and leaves the ensemble and the world as they
    were. *)
Definition failing_force : Force.t unit :=
  {| Force.force := fun dt ensemble f w =>
       (Raise (ValueError "no field at this position"), ensemble, w) |}.

(** A force that adds nothing to the accumulator but removes particle 0
    from the ensemble; it raises where the deletion does. *)
Definition removing_force : Force.t unit :=
  {| Force.force := fun dt ensemble f w =>
       ((Ensemble.delete [0] ensemble).1;; Ok f,
        (Ensemble.delete [0] ensemble).2, w) |}.

(** Two particles at rest with the masses 1 and 2, stored as a vector. *)
Definition two_ptcls_vector_mass : Ensemble.t :=
  {| Ensemble.x := np_zeros [2; 3];
     Ensemble.v := np_zeros [2; 3];
     Ensemble.ensemble_properties := ∅;
     Ensemble.particle_properties :=
       {[ "mass" := NDArray [2] [F64.one; F64.two] ]} |}.

(** Two particles at rest with the masses 2 and 4, stored as a column,
    and an accumulator that holds 1 for the first and 2 for the second. *)
Definition two_ptcls_column_mass : Ensemble.t :=
  {| Ensemble.x := np_zeros [2; 3];
     Ensemble.v := np_zeros [2; 3];
     Ensemble.ensemble_properties := ∅;
     Ensemble.particle_properties :=
       {[ "mass" := NDArray [2; 1] [F64.of_Z 2; F64.of_Z 4] ]} |}.

Definition one_and_two : ndarray :=
  NDArray [2; 3] [F64.one; F64.one; F64.one; F64.two; F64.two; F64.two].

(** A particle that falls onto the plane from z = 5 and one that glides
    along it at the same height. *)
Definition falling_and_gliding : Ensemble.t :=
  {| Ensemble.x :=
       NDArray [2; 3] [F64.zero; F64.zero; F64.of_Z 5;
                       F64.one; F64.zero; F64.of_Z 5];
     Ensemble.v :=
       NDArray [2; 3] [F64.zero; F64.zero; F64.of_Z (-10);
                       F64.of_Z 1; F64.of_Z 2; F64.zero];
     Ensemble.ensemble_properties := ∅;
     Ensemble.particle_properties := ∅ |}.

(** A result of rounding with the mantissa [m] and the exponent [e]: the
    number, or an infinity when the exponent is beyond the format. *)
Definition fin_or_inf (s : bool) (m : positive) (e : Z) : spec_float :=
  if (e <=? 971)%Z then S754_finite s m e else S754_infinity s.

(** The second stage of the library's rounding: the rounded mantissa is
    shifted once more if the rounding carried into a 54th bit. *)
Definition finish (s : bool) (m e : Z) : spec_float :=
  let '(mrs, e') := shr_fexp 53 1024 m e loc_Exact in
  match shr_m mrs with
  | Z0 => S754_zero s
  | Zpos m => if (e' <=? 1024 - 53)%Z then S754_finite s m e' else S754_infinity s
  | Zneg _ => S754_nan
  end.

(** ** Proof automation *)

Ltac unfold_monad :=
  unfold mbind, mret, M_bind, M_ret, result_bind, result_ret, lift, raise,
    get_ens, set_ens, log in *.

(** * Properties *)

(** ** Arrays *)

Section ArrayFacts.
Implicit Types (a : ndarray) (s rest : list nat) (i n k : nat).

Lemma size_of_cons n rest : size_of (n :: rest) = n * size_of rest.
Proof. reflexivity. Qed.

Lemma np_zeros_wf s : wf_array (np_zeros s).
Proof. unfold wf_array, np_zeros; simpl. by rewrite length_replicate. Qed.

Lemma ndarray_resize_wf a s : wf_array (ndarray_resize a s).
Proof. unfold wf_array, ndarray_resize; simpl. by rewrite length_resize. Qed.

Lemma stride_cons a n rest : shape a = n :: rest -> stride a = size_of rest.
Proof. unfold stride. by intros ->. Qed.

Lemma length_row a n rest i :
  shape a = n :: rest -> wf_array a -> i < n ->
  length (row a i) = size_of rest.
Proof.
  intros Hs Hwf Hi. unfold row. rewrite (stride_cons a n rest Hs).
  rewrite length_take, length_drop, Hwf, Hs, size_of_cons. nia.
Qed.

Lemma length_bind_row a n rest (keep : list nat) :
  shape a = n :: rest -> wf_array a -> Forall (fun i => i < n) keep ->
  length (keep ≫= row a) = length keep * size_of rest.
Proof.
  intros Hs Hwf. induction 1 as [|i keep Hi _ IH]; [done|].
  rewrite bind_cons, length_app, IH, (length_row a n rest i); auto.
Qed.

Lemma Forall_kept n (indices : list nat) :
  Forall (fun i => i < n) (filter (fun i => i ∉ indices) (seq 0 n)).
Proof.
  apply Forall_forall. intros i Hi.
  apply list_elem_of_filter in Hi as [_ Hi].
  apply elem_of_seq in Hi. lia.
Qed.

Lemma StronglySorted_filter_list {A} (R : relation A) (P : A -> Prop)
    `{!forall y, Decision (P y)} (l : list A) :
  StronglySorted R l -> StronglySorted R (filter P l).
Proof.
  induction 1 as [|y l Hs IH Hf]; [constructor|].
  rewrite filter_cons. case_decide; [|done].
  constructor; [done|].
  apply Forall_forall. intros z Hz. apply list_elem_of_filter in Hz as [_ Hz].
  rewrite Forall_forall in Hf. auto.
Qed.

Lemma StronglySorted_seq k n : StronglySorted lt (seq k n).
Proof.
  revert k. induction n as [|n IH]; intros k; simpl; constructor; [done|].
  apply Forall_forall. intros j Hj. apply elem_of_seq in Hj. lia.
Qed.

(** The entries along the first axis, put one after the other, are the
    buffer. *)
Lemma rows_from (l : list float64) (st n k : nat) :
  length l = (k + n) * st ->
  seq k n ≫= (fun i => take st (drop (i * st) l)) = drop (k * st) l.
Proof.
  revert k. induction n as [|n IH]; intros k Hl.
  - cbn [seq]. rewrite drop_ge; [done|]. lia.
  - cbn [seq]. rewrite bind_cons, IH by lia.
    replace (S k * st) with (k * st + st) by lia.
    rewrite <- drop_drop. apply take_drop.
Qed.

Lemma rows_reassemble a n rest :
  shape a = n :: rest -> wf_array a -> seq 0 n ≫= row a = data a.
Proof.
  intros Hs Hwf. unfold row. rewrite (stride_cons a n rest Hs).
  unfold wf_array in Hwf. rewrite Hs, size_of_cons in Hwf.
  by rewrite (rows_from (data a) (size_of rest) n 0).
Qed.

Lemma filter_all {A} (P : A -> Prop) `{!forall y, Decision (P y)} (l : list A) :
  Forall P l -> filter P l = l.
Proof.
  induction 1 as [|y l Hy _ IH]; [done|].
  by rewrite filter_cons, decide_True, IH.
Qed.

Lemma filter_none {A} (P : A -> Prop) `{!forall y, Decision (P y)} (l : list A) :
  Forall (fun y => ~ P y) l -> filter P l = [].
Proof.
  induction 1 as [|y l Hy _ IH]; [done|].
  by rewrite filter_cons, decide_False, IH.
Qed.

Lemma filter_agree {A} (P Q : A -> Prop) `{!forall y, Decision (P y)}
    `{!forall y, Decision (Q y)} (l : list A) :
  Forall (fun y => P y <-> Q y) l -> filter P l = filter Q l.
Proof.
  induction 1 as [|y l Hy _ IH]; [done|].
  rewrite !filter_cons, IH. destruct (decide (P y)), (decide (Q y)); tauto.
Qed.

Lemma kept_rows_nothing a n rest :
  shape a = n :: rest -> wf_array a -> kept_rows a n rest [] = a.
Proof.
  intros Hs Hwf. unfold kept_rows.
  rewrite filter_all.
  - rewrite length_seq, (rows_reassemble a n rest Hs Hwf).
    destruct a as [sa da]. simpl in *. by rewrite Hs.
  - apply Forall_forall. intros i _. apply not_elem_of_nil.
Qed.

Lemma kept_rows_shape a n rest indices :
  shape (kept_rows a n rest indices)
  = length (filter (fun i => i ∉ indices) (seq 0 n)) :: rest.
Proof. reflexivity. Qed.

Lemma kept_rows_wf a n rest indices :
  shape a = n :: rest -> wf_array a -> wf_array (kept_rows a n rest indices).
Proof.
  intros Hs Hwf. unfold wf_array, kept_rows; simpl.
  apply (length_bind_row a n rest); auto using Forall_kept.
Qed.

Lemma np_delete_Ok a n rest indices :
  shape a = n :: rest -> Forall (fun i => i < n) indices ->
  np_delete a indices = Ok (kept_rows a n rest indices).
Proof. intros Hs Hin. unfold np_delete. rewrite Hs. by rewrite decide_True. Qed.

Lemma np_delete_Raise a n rest indices :
  shape a = n :: rest -> ~ Forall (fun i => i < n) indices ->
  np_delete a indices = Raise out_of_bounds.
Proof. intros Hs Hin. unfold np_delete. rewrite Hs. by rewrite decide_False. Qed.

(** The loop of [delete] over the keys raises at the first key. *)
Lemma delete_loop (props : gmap string ndarray) (indices : list nat) :
  (for_each (fun key => Ensemble.np_delete_key key indices)
     (map_to_list props).*1;;
   Ok tt)
  = if decide (props = ∅) then Ok tt else Raise no_axis.
Proof.
  case_decide as He.
  - subst props. by rewrite map_to_list_empty.
  - destruct (map_to_list props) as [|[key p] l] eqn:Hl; [|done].
    by apply map_to_list_empty_iff in Hl.
Qed.

(** What [delete] does when every index names a particle. *)
Lemma delete_in_bounds (e : Ensemble.t) n restx restv indices :
  shape (Ensemble.x e) = n :: restx -> shape (Ensemble.v e) = n :: restv ->
  Forall (fun i => i < n) indices ->
  Ensemble.delete indices e
  = (if decide (Ensemble.particle_properties e = ∅)
     then Ok tt else Raise no_axis,
     {| Ensemble.x := kept_rows (Ensemble.x e) n restx indices;
        Ensemble.v := kept_rows (Ensemble.v e) n restv indices;
        Ensemble.ensemble_properties := Ensemble.ensemble_properties e;
        Ensemble.particle_properties := Ensemble.particle_properties e |}).
Proof.
  intros Hx Hv Hin. unfold Ensemble.delete.
  rewrite (np_delete_Ok _ n restx indices Hx Hin). cbn [Ensemble.v].
  rewrite (np_delete_Ok _ n restv indices Hv Hin).
  cbn [Ensemble.x Ensemble.ensemble_properties Ensemble.particle_properties].
  by rewrite delete_loop.
Qed.

(** And when one does not: nothing is assigned. *)
Lemma delete_out_of_bounds (e : Ensemble.t) n rest indices :
  shape (Ensemble.x e) = n :: rest -> ~ Forall (fun i => i < n) indices ->
  Ensemble.delete indices e = (Raise out_of_bounds, e).
Proof.
  intros Hx Hin. unfold Ensemble.delete.
  by rewrite (np_delete_Raise _ n rest indices Hx Hin).
Qed.

End ArrayFacts.

(** ** The ensemble's arrays *)

Lemma init_aligned n : xv_aligned n (Ensemble.init n).
Proof. repeat split; apply np_zeros_wf. Qed.

Lemma resize_aligned n m e :
  xv_aligned n e ->
  exists e', Ensemble.resize m e = Ok e' /\ xv_aligned m e'.
Proof.
  intros (Hx & Hv & _ & _). unfold Ensemble.resize. rewrite Hx.
  eexists; split; [reflexivity|].
  repeat split; apply ndarray_resize_wf.
Qed.

Lemma delete_aligned n indices e :
  xv_aligned n e -> exists m, xv_aligned m (Ensemble.delete indices e).2.
Proof.
  intros (Hx & Hv & Wx & Wv).
  destruct (decide (Forall (fun i => i < n) indices)) as [Hin|Hout].
  - rewrite (delete_in_bounds e n [3] [3] indices Hx Hv Hin).
    eexists. repeat split; cbn [snd Ensemble.x Ensemble.v];
      auto using kept_rows_wf.
  - rewrite (delete_out_of_bounds e n [3] indices Hx Hout).
    by exists n.
Qed.

Lemma set_particle_property_xv key prop e e' :
  Ensemble.set_particle_property key prop e = Ok e' ->
  Ensemble.x e' = Ensemble.x e /\ Ensemble.v e' = Ensemble.v e.
Proof.
  unfold Ensemble.set_particle_property.
  destruct (shape0 prop) as [n|]; simpl; [|done].
  destruct (Ensemble.get_num_ptcls e) as [m|]; simpl; [|done].
  case_decide; [done|]. by intros [= <-].
Qed.

Lemma apply_op_aligned o n e :
  xv_aligned n e -> exists m, xv_aligned m (apply_op o e).
Proof.
  intros H. destruct o as [m|indices|key prop]; simpl.
  - destruct (resize_aligned n m e H) as (e' & -> & H'). eauto.
  - by apply (delete_aligned n).
  - destruct (Ensemble.set_particle_property key prop e) as [e'|] eqn:E; [|eauto].
    apply set_particle_property_xv in E as [Ex Ev].
    exists n. unfold xv_aligned. by rewrite Ex, Ev.
Qed.

Lemma apply_ops_aligned ops n e :
  xv_aligned n e -> exists m, xv_aligned m (apply_ops ops e).
Proof.
  revert n e. induction ops as [|o ops IH]; intros n e H; simpl; [eauto|].
  destruct (apply_op_aligned o n e H) as (m & Hm). exact (IH m _ Hm).
Qed.

(** C10.  After [Ensemble(num_ptcls)] and any sequence of [resize],
    [delete] and [set_particle_property] calls, positions and velocities
    are both arrays of shape [(n, 3)] for one [n], each with a buffer of
    that size, and [num_ptcls] is that [n].  (Nothing is said, or true,
    of the property arrays here.) *)
Theorem positions_velocities_same_length (num_ptcls : nat) (ops : list ensemble_op) :
  exists n,
    shape (Ensemble.x (apply_ops ops (Ensemble.init num_ptcls))) = [n; 3]
    /\ shape (Ensemble.v (apply_ops ops (Ensemble.init num_ptcls))) = [n; 3]
    /\ Ensemble.get_num_ptcls (apply_ops ops (Ensemble.init num_ptcls)) = Ok n
    /\ length (data (Ensemble.x (apply_ops ops (Ensemble.init num_ptcls)))) = n * 3
    /\ length (data (Ensemble.v (apply_ops ops (Ensemble.init num_ptcls)))) = n * 3.
Proof.
  destruct (apply_ops_aligned ops num_ptcls _ (init_aligned num_ptcls))
    as (n & Hx & Hv & Wx & Wv).
  exists n. unfold Ensemble.get_num_ptcls, shape0.
  unfold wf_array in Wx, Wv. rewrite Hx in *. rewrite Hv in *.
  simpl in Wx, Wv. repeat split; auto; lia.
Qed.

(** *** [delete] and the property arrays *)

Lemma delete_particle_properties indices e :
  Ensemble.particle_properties (Ensemble.delete indices e).2
  = Ensemble.particle_properties e.
Proof.
  unfold Ensemble.delete.
  destruct (np_delete (Ensemble.x e) indices); [|done]. cbn [Ensemble.v].
  by destruct (np_delete (Ensemble.v e) indices).
Qed.

(** C1 (the code departs from the claim).  Deleting particle 0 of two
    particles that carry a per-particle mass leaves one position and one
    velocity, and still two masses: the mass of the deleted particle is not
    removed.  (The call ends in the [AxisError] that [np.delete] raises
    for the key in the loop over the properties, after positions and
    velocities have been reduced.) *)
Theorem delete_leaves_property_arrays :
  exists e,
    two_ptcls_with_mass = Ok e
    /\ Ensemble.get_num_ptcls (Ensemble.delete [0] e).2 = Ok 1
    /\ shape (Ensemble.x (Ensemble.delete [0] e).2) = [1; 3]
    /\ shape (Ensemble.v (Ensemble.delete [0] e).2) = [1; 3]
    /\ Ensemble.particle_properties (Ensemble.delete [0] e).2 !! "mass"
       = Some (NDArray [2] [F64.one; F64.two])
    /\ (Ensemble.delete [0] e).1 = Raise no_axis.
Proof.
  eexists. split; [reflexivity|].
  repeat split; vm_compute; reflexivity.
Qed.

(** *** [resize] and the property arrays *)

(** C2 (the code departs from the claim).  Resizing two particles to two
    particles turns a property array of shape [(2, 2)] into the vector of
    its first two numbers: the entry of particle 1, [(3, 4)], is lost. *)
Theorem resize_flattens_property_arrays :
  exists e e',
    two_ptcls_with_pairs = Ok e
    /\ Ensemble.resize 2 e = Ok e'
    /\ Ensemble.get_num_ptcls e' = Ok 2
    /\ Ensemble.particle_properties e !! "spin"
       = Some (NDArray [2; 2] [F64.of_Z 1; F64.of_Z 2; F64.of_Z 3; F64.of_Z 4])
    /\ Ensemble.particle_properties e' !! "spin"
       = Some (NDArray [2] [F64.of_Z 1; F64.of_Z 2]).
Proof.
  do 2 eexists. split; [reflexivity|]. split; [reflexivity|].
  repeat split; vm_compute; reflexivity.
Qed.

(** *** What [resize] and [delete] do to positions and velocities *)

Section RowFacts.
Implicit Types (a : ndarray) (rest : list nat) (i k n m : nat).

Lemma row_resize a n rest m i :
  shape a = n :: rest -> wf_array a -> i < n -> i < m ->
  row (ndarray_resize a (m :: rest)) i = row a i.
Proof.
  intros Hs Hwf Hn Hm. unfold row, stride, ndarray_resize. rewrite Hs. simpl.
  fold (size_of rest). unfold wf_array in Hwf. rewrite Hs, size_of_cons in Hwf.
  apply list_eq. intros k.
  destruct (decide (k < size_of rest)) as [Hk|Hk].
  - rewrite !lookup_take_lt, !lookup_drop by done.
    apply lookup_resize; nia.
  - by rewrite !lookup_take_ge by lia.
Qed.

Lemma bind_row_lookup (f : nat -> list float64) (st : nat) (l : list nat) k i :
  Forall (fun j => length (f j) = st) l ->
  l !! k = Some i ->
  take st (drop (k * st) (l ≫= f)) = f i.
Proof.
  intros Hlen. revert k. induction Hlen as [|j l Hj _ IH]; intros k Hk; [done|].
  rewrite bind_cons. destruct k as [|k]; simpl in Hk.
  - injection Hk as ->. simpl. rewrite drop_0. by rewrite take_app_length'.
  - rewrite drop_app_ge by (simpl; lia).
    replace (S k * st - length (f j)) with (k * st) by (simpl; lia).
    by apply IH.
Qed.

Lemma row_delete a n rest indices k i :
  shape a = n :: rest -> wf_array a ->
  survivors n indices !! k = Some i ->
  row (kept_rows a n rest indices) k = row a i.
Proof.
  intros Hs Hwf Hk. unfold kept_rows.
  unfold row at 1, stride at 1 2. simpl. fold (size_of rest).
  apply bind_row_lookup; [|exact Hk].
  eapply Forall_impl; [apply (Forall_kept n indices)|].
  intros j Hj. simpl in Hj. by apply (length_row a n rest j).
Qed.

End RowFacts.

(** X1.  [resize(m)] on [n] particles: positions and velocities get the
    leading dimension [m], [num_ptcls] is [m], the entries of every
    particle below both [n] and [m] are kept, and a one-dimensional
    property array gets length [m] and keeps its entries below both. *)
Theorem resize_keeps_entries (e e' : Ensemble.t) (n m : nat) (rest : list nat) :
  shape (Ensemble.x e) = n :: rest -> shape (Ensemble.v e) = n :: rest ->
  wf_array (Ensemble.x e) -> wf_array (Ensemble.v e) ->
  Ensemble.resize m e = Ok e' ->
  Ensemble.get_num_ptcls e' = Ok m
  /\ shape (Ensemble.x e') = m :: rest
  /\ shape (Ensemble.v e') = m :: rest
  /\ (forall i, i < n -> i < m ->
        row (Ensemble.x e') i = row (Ensemble.x e) i
        /\ row (Ensemble.v e') i = row (Ensemble.v e) i)
  /\ (forall key p,
        Ensemble.particle_properties e !! key = Some p ->
        shape p = [n] -> wf_array p ->
        exists p',
          Ensemble.particle_properties e' !! key = Some p'
          /\ shape p' = [m]
          /\ forall i, i < n -> i < m -> row p' i = row p i).
Proof.
  intros Hx Hv Wx Wv. unfold Ensemble.resize. rewrite Hx. intros [= <-].
  simpl. unfold Ensemble.get_num_ptcls, shape0. simpl.
  split; [done|]. split; [done|]. split; [done|]. split.
  { intros i Hn Hm. split; by apply (row_resize _ n). }
  intros key p Hp Hs Wp. eexists. rewrite lookup_fmap, Hp. simpl.
  split; [reflexivity|]. split; [reflexivity|].
  intros i Hn Hm. by rewrite <- (row_resize p n [] m i Hs Wp Hn Hm).
Qed.

(** X1 at work: three particles resized to two. *)
Lemma resize_keeps_entries_witness :
  exists e',
    Ensemble.resize 2 (Ensemble.init 3) = Ok e'
    /\ Ensemble.get_num_ptcls e' = Ok 2
    /\ row (Ensemble.x e') 1 = row (Ensemble.x (Ensemble.init 3)) 1.
Proof.
  eexists. split; [reflexivity|].
  destruct (resize_keeps_entries (Ensemble.init 3) _ 3 2 [3]
              eq_refl eq_refl eq_refl eq_refl eq_refl)
    as (Hn & _ & _ & Hrows & _).
  split; [exact Hn|]. apply (Hrows 1); lia.
Defined.

(** X2.  [delete(indices)] on [n] particles.  When every index is below
    [n], positions and velocities keep exactly the particles whose index
    is not listed, in their order, and [num_ptcls] is their number; the
    call returns normally when the ensemble has no per-particle property
    and otherwise ends, after that, in the [AxisError] of the loop over
    the properties.  When an index is not below [n] the call raises
    [IndexError] and the ensemble is as it was. *)
Theorem delete_keeps_survivors (e : Ensemble.t) (n : nat) (rest indices : list nat) :
  shape (Ensemble.x e) = n :: rest -> shape (Ensemble.v e) = n :: rest ->
  wf_array (Ensemble.x e) -> wf_array (Ensemble.v e) ->
  (Forall (fun i => i < n) indices ->
   (Ensemble.delete indices e).1
   = (if decide (Ensemble.particle_properties e = ∅)
      then Ok tt else Raise no_axis)
   /\ Ensemble.get_num_ptcls (Ensemble.delete indices e).2
      = Ok (length (survivors n indices))
   /\ shape (Ensemble.x (Ensemble.delete indices e).2)
      = length (survivors n indices) :: rest
   /\ shape (Ensemble.v (Ensemble.delete indices e).2)
      = length (survivors n indices) :: rest
   /\ (forall i, i ∈ survivors n indices <-> i < n /\ i ∉ indices)
   /\ StronglySorted lt (survivors n indices)
   /\ (forall k i, survivors n indices !! k = Some i ->
         row (Ensemble.x (Ensemble.delete indices e).2) k = row (Ensemble.x e) i
         /\ row (Ensemble.v (Ensemble.delete indices e).2) k
            = row (Ensemble.v e) i))
  /\ (~ Forall (fun i => i < n) indices ->
      Ensemble.delete indices e
      = (Raise (IndexError "index is out of bounds for axis 0"), e)).
Proof.
  intros Hx Hv Wx Wv. split; [|apply (delete_out_of_bounds e n rest indices Hx)].
  intros Hin. rewrite (delete_in_bounds e n rest rest indices Hx Hv Hin).
  cbn [fst snd]. unfold Ensemble.get_num_ptcls, shape0.
  cbn [Ensemble.x Ensemble.v]. rewrite !kept_rows_shape. unfold survivors.
  split; [done|]. split; [done|]. split; [done|]. split; [done|].
  split; [|split].
  - intros i. rewrite list_elem_of_filter, elem_of_seq. split; intros []; split; auto; lia.
  - apply StronglySorted_filter_list, StronglySorted_seq.
  - intros k i Hk. split; by apply (row_delete _ n rest).
Qed.

(** X2 at work: the middle one of three particles is deleted. *)
Lemma delete_keeps_survivors_witness :
  survivors 3 [1] = [0; 2]
  /\ (Ensemble.delete [1] (Ensemble.init 3)).1 = Ok tt
  /\ Ensemble.get_num_ptcls (Ensemble.delete [1] (Ensemble.init 3)).2 = Ok 2
  /\ row (Ensemble.x (Ensemble.delete [1] (Ensemble.init 3)).2) 1
     = row (Ensemble.x (Ensemble.init 3)) 2.
Proof.
  split; [reflexivity|].
  destruct (proj1 (delete_keeps_survivors (Ensemble.init 3) 3 [3] [1]
                     eq_refl eq_refl eq_refl eq_refl))
    as (Hok & Hn & _ & _ & _ & _ & Hrows).
  { repeat constructor. }
  split; [exact Hok|]. split; [exact Hn|]. by apply (Hrows 1 2).
Defined.

(** ** Particle production *)

Section Production.
Context {W : Type}.
Implicit Types (st : state W) (sources : list (Source.t W)).

Lemma call_num_ptcls_produced_eq i (s : Source.t W) dt st :
  call_num_ptcls_produced i s dt st
  = (Ok (Source.num_ptcls_produced s dt (world st)).1,
     State (ens st) (Source.num_ptcls_produced s dt (world st)).2
       (calls st
        ++ [Call_num_ptcls_produced i dt
              (Source.num_ptcls_produced s dt (world st)).1])).
Proof.
  unfold call_num_ptcls_produced.
  by destruct (Source.num_ptcls_produced s dt (world st)).
Qed.

Lemma call_produce_ptcls_eq i (s : Source.t W) dt start end_ st :
  call_produce_ptcls i s dt start end_ st
  = (Ok tt,
     State (Source.produce_ptcls s dt start end_ (ens st) (world st)).1
       (Source.produce_ptcls s dt start end_ (ens st) (world st)).2
       (calls st ++ [Call_produce_ptcls i dt start end_])).
Proof.
  unfold call_produce_ptcls.
  by destruct (Source.produce_ptcls s dt start end_ (ens st) (world st)).
Qed.

Lemma query_once_length dt sources (w : W) :
  length (query_once dt sources w).1 = length sources.
Proof.
  revert w. induction sources as [|s sources IH]; intros w; simpl; [done|].
  destruct (Source.num_ptcls_produced s dt w) as [k w1].
  specialize (IH w1). destruct (query_once dt sources w1) as [ks w2].
  simpl in *. by rewrite IH.
Qed.

(** The first loop asks each source once and accumulates the counts and
    their sum. *)
Lemma query_sources_once dt sources i num_new_ptcls tot_new_ptcls st :
  query_sources dt i sources num_new_ptcls tot_new_ptcls st
  = (Ok (num_new_ptcls ++ (query_once dt sources (world st)).1,
         tot_new_ptcls + sum_list (query_once dt sources (world st)).1),
     State (ens st) (query_once dt sources (world st)).2
       (calls st
        ++ imap (fun j k => Call_num_ptcls_produced (i + j) dt k)
             (query_once dt sources (world st)).1)).
Proof.
  revert i num_new_ptcls tot_new_ptcls st.
  induction sources as [|s sources IH]; intros i acc tot [e w cs]; simpl.
  - unfold_monad. simpl. by rewrite !app_nil_r, Nat.add_0_r.
  - unfold mbind at 1. unfold M_bind. rewrite call_num_ptcls_produced_eq. simpl.
    destruct (Source.num_ptcls_produced s dt w) as [k w1]. simpl.
    rewrite last_snoc. rewrite IH. simpl.
    destruct (query_once dt sources w1) as [ks w2]. simpl.
    rewrite <- !app_assoc. simpl. rewrite Nat.add_0_r.
    replace (tot + (k + sum_list ks)) with (tot + k + sum_list ks) by lia.
    rewrite (imap_ext
               ((fun j k0 => Call_num_ptcls_produced (i + j) dt k0) ∘ S)
               (fun j k0 => Call_num_ptcls_produced (S (i + j)) dt k0) ks);
      [done|].
    intros j k' _. simpl. f_equal. lia.
Qed.

(** The second loop hands out consecutive slices from the cached counts. *)
Lemma fill_sources_in_order dt sources i pre counts start st :
  length pre = i -> length counts = length sources ->
  fill_sources dt i sources (pre ++ counts) start st
  = (Ok tt,
     State (fill_in_order dt sources counts start (ens st, world st)).1
       (fill_in_order dt sources counts start (ens st, world st)).2
       (calls st
        ++ imap (fun j k =>
                   Call_produce_ptcls (i + j) dt
                     (slice_start start counts j)
                     (slice_start start counts j + k))
             counts)).
Proof.
  revert i pre counts start st.
  induction sources as [|s sources IH]; intros i pre counts start [e w cs] Hi Hlen.
  - destruct counts; [|done]. simpl. unfold_monad. by rewrite app_nil_r.
  - destruct counts as [|k counts]; [done|]. simpl in Hlen.
    simpl. rewrite lookup_app_r by lia.
    replace (i - length pre) with 0 by lia. simpl.
    unfold mbind at 1. unfold M_bind. rewrite call_produce_ptcls_eq. simpl.
    replace (pre ++ k :: counts) with ((pre ++ [k]) ++ counts)
      by (by rewrite <- app_assoc).
    rewrite (IH (S i)); [|rewrite length_app; simpl; lia|lia]. simpl.
    rewrite <- !app_assoc. simpl.
    destruct (Source.produce_ptcls s dt start (start + k) e w) as [e1 w1].
    simpl. unfold slice_start. simpl. rewrite !Nat.add_0_r.
    rewrite (imap_ext
               ((fun j k0 =>
                   Call_produce_ptcls (i + j) dt
                     (start + sum_list (take j (k :: counts)))
                     (start + sum_list (take j (k :: counts)) + k0)) ∘ S)
               (fun j k0 =>
                  Call_produce_ptcls (S (i + j)) dt
                    (start + k + sum_list (take j counts))
                    (start + k + sum_list (take j counts) + k0)) counts);
      [done|].
    intros j k' _. simpl. f_equal; lia.
Qed.

(** C3.  For an ensemble of [initial] particles, [produce_ptcls] asks each
    source of the list exactly once for its count (one
    [Call_num_ptcls_produced] per position, in order, and no other), then
    resizes the ensemble once, to [initial] plus the sum of the counts, then
    calls [produce_ptcls] of each source once, in list order, with the
    slice that starts at [initial] plus the counts of the sources before it
    and is as long as the count the source returned.  The final ensemble
    and world are those of filling the slices in order. *)
Theorem produce_ptcls_slices dt sources st initial rest counts (w1 : W) :
  shape (Ensemble.x (ens st)) = initial :: rest ->
  query_once dt sources (world st) = (counts, w1) ->
  exists e1,
    length counts = length sources
    /\ Ensemble.resize (initial + sum_list counts) (ens st) = Ok e1
    /\ Ensemble.get_num_ptcls e1 = Ok (initial + sum_list counts)
    /\ produce_ptcls dt sources st
       = (Ok tt,
          State (fill_in_order dt sources counts initial (e1, w1)).1
            (fill_in_order dt sources counts initial (e1, w1)).2
            (calls st
             ++ imap (fun i k => Call_num_ptcls_produced i dt k) counts
             ++ [Call_resize (initial + sum_list counts)]
             ++ imap (fun i k =>
                        Call_produce_ptcls i dt
                          (slice_start initial counts i)
                          (slice_start initial counts i + k))
                  counts)).
Proof.
  intros Hshape Hq.
  assert (Hlen : length counts = length sources).
  { pose proof (query_once_length dt sources (world st)) as H.
    by rewrite Hq in H. }
  assert (Hres : Ensemble.resize (initial + sum_list counts) (ens st)
                 = Ok {| Ensemble.x := ndarray_resize (Ensemble.x (ens st))
                                         ((initial + sum_list counts) :: rest);
                         Ensemble.v := ndarray_resize (Ensemble.v (ens st))
                                         ((initial + sum_list counts) :: rest);
                         Ensemble.ensemble_properties :=
                           Ensemble.ensemble_properties (ens st);
                         Ensemble.particle_properties :=
                           (fun prop => ndarray_resize prop
                                          [initial + sum_list counts])
                             <$> Ensemble.particle_properties (ens st) |}).
  { unfold Ensemble.resize. by rewrite Hshape. }
  eexists. split; [exact Hlen|]. split; [exact Hres|]. split; [reflexivity|].
  unfold produce_ptcls.
  unfold mbind at 1. unfold M_bind at 1. rewrite query_sources_once, Hq. simpl.
  unfold num_ptcls, ens_resize. unfold_monad. simpl.
  unfold Ensemble.get_num_ptcls, shape0. rewrite Hshape. simpl.
  rewrite Hres. simpl.
  rewrite (fill_sources_in_order dt sources 0 [] counts initial); [|done|done].
  simpl. by rewrite <- !app_assoc.
Qed.

End Production.

(** C3 at work: the same counting source twice, on one particle. *)
Lemma produce_ptcls_slices_witness :
  shape (Ensemble.x (Ensemble.init 1)) = [1; 3]
  /\ query_once F64.one [counting_source; counting_source] (0, [])
     = ([1; 2], (2, []))
  /\ Ensemble.get_num_ptcls
       (ens (produce_ptcls F64.one [counting_source; counting_source]
               (State (Ensemble.init 1) (0, []) [])).2) = Ok 4
  /\ world (produce_ptcls F64.one [counting_source; counting_source]
              (State (Ensemble.init 1) (0, []) [])).2
     = (2, [(1, 2); (2, 4)])
  /\ calls (produce_ptcls F64.one [counting_source; counting_source]
              (State (Ensemble.init 1) (0, []) [])).2
     = [Call_num_ptcls_produced 0 F64.one 1;
        Call_num_ptcls_produced 1 F64.one 2;
        Call_resize 4;
        Call_produce_ptcls 0 F64.one 1 2;
        Call_produce_ptcls 1 F64.one 2 4].
Proof.
  split; [reflexivity|]. split; [reflexivity|].
  destruct (produce_ptcls_slices F64.one [counting_source; counting_source]
              (State (Ensemble.init 1) (0, []) []) 1 [3] [1; 2] (2, [])
              eq_refl eq_refl)
    as (e1 & _ & Hres & Hn & Hrun).
  rewrite Hrun. simpl. split; [exact Hn|]. split; reflexivity.
Defined.

(** ** Broadcasting *)

Section BroadcastFacts.
Implicit Types (a b : ndarray) (s rs : list nat) (k st : nat).

Lemma size_of_app s1 s2 : size_of (s1 ++ s2) = size_of s1 * size_of s2.
Proof.
  induction s1 as [|d s1 IH]; simpl; [lia|].
  fold (size_of (s1 ++ s2)). fold (size_of s1). rewrite IH. lia.
Qed.

Lemma size_of_reverse s : size_of (reverse s) = size_of s.
Proof.
  induction s as [|d s IH]; [done|].
  rewrite reverse_cons, size_of_app, IH. simpl. lia.
Qed.

Lemma bcast_index_same rs k st :
  k < size_of rs -> bcast_index rs rs k st = k * st.
Proof.
  revert k st. induction rs as [|d rs IH]; intros k st Hk; simpl in *.
  - lia.
  - fold (size_of rs) in Hk.
    assert (d <> 0) by lia.
    assert (k `div` d < size_of rs) by (apply Nat.Div0.div_lt_upper_bound; lia).
    rewrite IH by done.
    pose proof (Nat.div_mod_eq k d).
    case_decide; [subst d; rewrite Nat.div_1_r in *; lia | nia].
Qed.

Lemma broadcast_rev_same rs : broadcast_rev rs rs = Some rs.
Proof.
  induction rs as [|d rs IH]; [done|]. simpl.
  rewrite decide_True by done. simpl. by rewrite IH.
Qed.

Lemma broadcast_shapes_same s : broadcast_shapes s s = Some s.
Proof.
  unfold broadcast_shapes. rewrite broadcast_rev_same. simpl.
  by rewrite reverse_involutive.
Qed.

Lemma get_lookup a k (c : float64) : data a !! k = Some c -> get a k = c.
Proof. unfold get. by intros ->. Qed.

Lemma get_fmap_seq (g : nat -> float64) s n k :
  k < n -> get (NDArray s (g <$> seq 0 n)) k = g k.
Proof.
  intros Hk. apply get_lookup. simpl.
  rewrite list_lookup_fmap, lookup_seq_lt by done. done.
Qed.

(** Two arrays of one shape are combined element by element. *)
Lemma broadcast_data_same op s a b :
  shape a = s -> shape b = s -> wf_array a -> wf_array b ->
  broadcast_data op s a b = zip_with op (data a) (data b).
Proof.
  intros Ha Hb Wa Wb. unfold wf_array in *. rewrite Ha in Wa. rewrite Hb in Wb.
  apply list_eq. intros k. unfold broadcast_data.
  rewrite list_lookup_fmap, lookup_zip_with, Ha, Hb.
  destruct (decide (k < size_of s)) as [Hk|Hk].
  - rewrite lookup_seq_lt by done. simpl.
    rewrite !bcast_index_same by (by rewrite size_of_reverse).
    rewrite Nat.mul_1_r.
    destruct (lookup_lt_is_Some_2 (data a) k) as [xa Hxa]; [lia|].
    destruct (lookup_lt_is_Some_2 (data b) k) as [xb Hxb]; [lia|].
    rewrite (get_lookup a k xa Hxa), (get_lookup b k xb Hxb), Hxa, Hxb. done.
  - rewrite lookup_seq_ge by lia. simpl.
    rewrite (lookup_ge_None_2 (data a)) by lia. done.
Qed.

Lemma np_binop_same op a b :
  shape a = shape b -> wf_array a -> wf_array b ->
  np_binop op a b = Ok (NDArray (shape a) (zip_with op (data a) (data b))).
Proof.
  intros Hs Wa Wb. unfold np_binop. rewrite <- Hs, broadcast_shapes_same.
  by rewrite (broadcast_data_same op (shape a) a b).
Qed.

Lemma np_iop_same op a b :
  shape a = shape b -> wf_array a -> wf_array b ->
  np_iop op a b = Ok (NDArray (shape a) (zip_with op (data a) (data b))).
Proof.
  intros Hs Wa Wb. unfold np_iop. rewrite <- Hs, broadcast_shapes_same.
  rewrite decide_True by done.
  by rewrite (broadcast_data_same op (shape a) a b).
Qed.

Lemma np_map_wf f a : wf_array a -> wf_array (np_map f a).
Proof. unfold wf_array, np_map. simpl. by rewrite length_fmap. Qed.

End BroadcastFacts.

(** ** The kinematic step *)

(** C5.  With no force and no sink, [drift_kick] returns normally on every
    ensemble whose positions and velocities are arrays of one shape,
    whatever its properties (no mass is looked up): every position
    becomes [x + dt * v], computed in binary64 from the position and the
    velocity before the call; velocities, properties, the world and the
    trace of calls are unchanged. *)
Theorem drift_kick_kinematic {W} (dt : float64) (st : state W) :
  Ensemble.aligned (ens st) ->
  drift_kick dt [] None st
  = (Ok tt,
     State
       {| Ensemble.x :=
            NDArray (shape (Ensemble.x (ens st)))
              (zip_with (fun x v => F64.add x (F64.mul dt v))
                 (data (Ensemble.x (ens st))) (data (Ensemble.v (ens st))));
          Ensemble.v := Ensemble.v (ens st);
          Ensemble.ensemble_properties :=
            Ensemble.ensemble_properties (ens st);
          Ensemble.particle_properties :=
            Ensemble.particle_properties (ens st) |}
       (world st) (calls st)).
Proof.
  intros (Hs & Wx & Wv). destruct st as [e w cs]. simpl in *.
  unfold drift_kick. simpl. unfold drift. unfold_monad. simpl.
  rewrite np_iop_same; [|done|done|by apply np_map_wf].
  simpl. by rewrite zip_with_fmap_r.
Qed.

(** C5 at work: one particle, [dt = 2]. *)
Lemma drift_kick_kinematic_witness :
  Ensemble.aligned one_moving_ptcl
  /\ drift_kick (F64.of_Z 2) [] None (State one_moving_ptcl tt [])
     = (Ok tt,
        State
          {| Ensemble.x := NDArray [1; 3] [F64.of_Z 3; F64.of_Z 2; F64.of_Z 1];
             Ensemble.v := NDArray [1; 3] [F64.of_Z 1; F64.zero; F64.of_Z (-1)];
             Ensemble.ensemble_properties := ∅;
             Ensemble.particle_properties := ∅ |}
          tt []).
Proof.
  assert (H : Ensemble.aligned one_moving_ptcl) by (repeat split; reflexivity).
  split; [exact H|].
  rewrite (drift_kick_kinematic (F64.of_Z 2) (State one_moving_ptcl tt []) H).
  vm_compute. reflexivity.
Defined.

(** ** Halving a time step *)

Section HalfFacts.

Lemma iter_shr_52 (m : positive) :
  SpecFloat.iter_pos shr_1 52 (Build_shr_record (Zpos (4503599627370496 * m)) false false)
  = Build_shr_record (Zpos m) false false.
Proof. reflexivity. Qed.

Lemma digits_shift_52 (m : positive) :
  digits2_pos (4503599627370496 * m) = (52 + digits2_pos m)%positive.
Proof. cbv [Pos.mul digits2_pos]. fold digits2_pos. lia. Qed.

(** A mantissa of 53 bits with an exponent in range is not rounded. *)
Lemma round_exact (s : bool) (m : positive) (e : Z) :
  digits2_pos m = 53%positive -> (-1074 <= e <= 971)%Z ->
  binary_round_aux 53 1024 s (Zpos m) e loc_Exact = S754_finite s m e.
Proof.
  intros Hd He. unfold binary_round_aux, shr_fexp, Zdigits2, fexp, emin.
  rewrite Hd.
  replace (Z.max (Z.pos 53 + e - 53) (3 - 1024 - 53) - e)%Z with 0%Z by lia.
  cbn [shr shr_record_of_loc shr_m loc_of_shr_record round_nearest_even Zdigits2].
  rewrite Hd.
  replace (Z.max (Z.pos 53 + e - 53) (3 - 1024 - 53) - e)%Z with 0%Z by lia.
  cbn [shr shr_record_of_loc shr_m].
  replace (e <=? 1024 - 53)%Z with true by (symmetry; apply Z.leb_le; lia).
  reflexivity.
Qed.

(** Half of a positive normal number of at least 2^-1021 is exact. *)
Lemma mul_half_exact (m : positive) (e : Z) :
  digits2_pos m = 53%positive -> (-1073 <= e <= 971)%Z ->
  F64.mul F64.half (S754_finite false m e) = S754_finite false m (e - 1).
Proof.
  intros Hd He. unfold F64.mul, F64.half, F64.prec, F64.emax, SFmul.
  cbn [xorb]. unfold binary_round_aux.
  unfold shr_fexp at 1. unfold Zdigits2. rewrite digits_shift_52, Hd.
  unfold fexp, emin.
  replace (Z.max (Z.pos (52 + 53) + (-53 + e) - 53) (3 - 1024 - 53)
           - (-53 + e))%Z with 52%Z by lia.
  unfold shr. cbn [shr_record_of_loc]. rewrite !iter_shr_52.
  cbn [shr_m loc_of_shr_record round_nearest_even].
  unfold shr_fexp, Zdigits2, fexp, emin. rewrite Hd.
  replace (Z.max (Z.pos 53 + (-53 + e + 52) - 53) (3 - 1024 - 53)
           - (-53 + e + 52))%Z with 0%Z by lia.
  cbn [shr shr_record_of_loc shr_m].
  replace (-53 + e + 52 <=? 1024 - 53)%Z with true
    by (symmetry; apply Z.leb_le; lia).
  f_equal. lia.
Qed.

(** The product of one and a binary64 number is that number. *)
Lemma mul_one_exact (s : bool) (m : positive) (e : Z) :
  bounded 53 1024 m e = true ->
  F64.mul F64.one (S754_finite s m e) = S754_finite s m e.
Proof.
  unfold bounded, canonical_mantissa, fexp, emin.
  intros [Hc He]%andb_true_iff. apply Z.eqb_eq in Hc. apply Z.leb_le in He.
  unfold F64.mul, F64.one, F64.prec, F64.emax, SFmul.
  cbn [xorb]. unfold binary_round_aux.
  unfold shr_fexp at 1. unfold Zdigits2. rewrite digits_shift_52.
  unfold fexp, emin.
  replace (Z.max (Z.pos (52 + digits2_pos m) + (-52 + e) - 53) (3 - 1024 - 53)
           - (-52 + e))%Z with 52%Z by lia.
  unfold shr. cbn [shr_record_of_loc]. rewrite !iter_shr_52.
  cbn [shr_m loc_of_shr_record round_nearest_even].
  unfold shr_fexp, Zdigits2, fexp, emin.
  replace (Z.max (Z.pos (digits2_pos m) + (-52 + e + 52) - 53) (3 - 1024 - 53)
           - (-52 + e + 52))%Z with 0%Z by lia.
  cbn [shr shr_record_of_loc shr_m].
  replace (-52 + e + 52 <=? 1024 - 53)%Z with true
    by (symmetry; apply Z.leb_le; lia).
  f_equal. lia.
Qed.

(** The sequential dot product is exact along the third axis. *)
Lemma sequential_exact_on_axis : exact_on_axis (N := sequential).
Proof.
  intros a b c Ha Hb Hc Hv. unfold blas_dot, sequential, dot_data.
  cbn [zip zip_with foldl fst snd].
  assert (Hz : forall y, F64.is_finite y = true ->
                 exists sy, F64.mul F64.zero y = S754_zero sy).
  { intros [sy| | |sy my ey] Hy; try done; by eexists. }
  destruct (Hz a Ha) as [sa ->]. destruct (Hz b Hb) as [sb ->].
  assert (Hsum : exists s0,
            F64.add (F64.add F64.zero (S754_zero sa)) (S754_zero sb)
            = S754_zero s0) by (destruct sa, sb; by eexists).
  destruct Hsum as [s0 ->].
  destruct c as [sc| | |sc mc ec]; try done.
  - right. split; [done|]. by destruct s0, sc.
  - left. rewrite (mul_one_exact sc mc ec Hv). reflexivity.
Qed.

(** Such a number minus its half is its half. *)
Lemma sub_half_exact (m : positive) (e : Z) :
  digits2_pos m = 53%positive -> (-1073 <= e <= 971)%Z ->
  F64.sub (S754_finite false m e) (S754_finite false m (e - 1))
  = S754_finite false m (e - 1).
Proof.
  intros Hd He. unfold F64.sub, F64.prec, F64.emax, SFsub.
  replace (Z.min e (e - 1)) with (e - 1)%Z by lia.
  unfold shl_align. rewrite Z.sub_diag.
  replace (e - 1 - e)%Z with (-1)%Z by lia.
  cbn [fst cond_Zopp Pos.iter].
  replace (Z.pos m~0 - Z.pos m)%Z with (Z.pos m) by lia.
  unfold binary_normalize, binary_round.
  unfold fexp, emin. rewrite Hd.
  unfold shl_align.
  replace (Z.max (Z.pos 53 + (e - 1) - 53) (3 - 1024 - 53) - (e - 1))%Z
    with 0%Z by lia.
  apply round_exact; [done|lia].
Qed.

Lemma leb_refl_finite (m : positive) (e : Z) :
  F64.leb (S754_finite false m e) (S754_finite false m e) = true.
Proof.
  unfold F64.leb, SFleb, SFcompare.
  by rewrite Z.compare_refl, Pos.compare_cont_refl.
Qed.

(** For a positive normal time step of at least 2^-1021, both ends of the
    interval pass the test of [process_sink]. *)
Lemma absorbed_boundaries (m : positive) (e : Z) (s : bool) :
  digits2_pos m = 53%positive -> (-1073 <= e <= 971)%Z ->
  absorbed (S754_finite false m e) (S754_zero s) = true
  /\ absorbed (S754_finite false m e) (S754_finite false m e) = true.
Proof.
  intros Hd He. unfold absorbed. rewrite (mul_half_exact m e Hd He). split.
  - destruct s; apply leb_refl_finite.
  - rewrite (sub_half_exact m e Hd He). apply leb_refl_finite.
Qed.

End HalfFacts.

(** ** Rounding

    What the library's rounding does to an integer mantissa, and what
    that means for comparisons with a number of the format. *)

Section RoundingFacts.
Local Open Scope Z_scope.

(** Bounds of a mantissa from its number of bits. *)
Lemma digits_bounds (p : positive) :
  (2 ^ (Zpos (digits2_pos p) - 1) <= Zpos p < 2 ^ Zpos (digits2_pos p))%Z.
Proof.
  induction p as [p IH|p IH|]; [| |done]; cbn [digits2_pos];
    rewrite Pos2Z.inj_succ;
    replace (Z.succ (Z.pos (digits2_pos p)) - 1)%Z
      with (Z.succ (Z.pos (digits2_pos p) - 1)) by lia;
    rewrite !Z.pow_succ_r by lia; lia.
Qed.

Lemma digits_unique (p : positive) (d : positive) :
  (2 ^ (Zpos d - 1) <= Zpos p < 2 ^ Zpos d)%Z -> digits2_pos p = d.
Proof.
  intros [Hlo Hhi]. pose proof (digits_bounds p) as [Hlo' Hhi'].
  destruct (Pos.compare_spec (digits2_pos p) d) as [|Hlt|Hgt]; [done| |].
  - assert (2 ^ Zpos (digits2_pos p) <= 2 ^ (Zpos d - 1))%Z
      by (apply Z.pow_le_mono_r; lia). lia.
  - assert (2 ^ Zpos d <= 2 ^ (Zpos (digits2_pos p) - 1))%Z
      by (apply Z.pow_le_mono_r; lia). lia.
Qed.

Lemma digits_succ (p : positive) :
  digits2_pos (Pos.succ p) = digits2_pos p
  \/ digits2_pos (Pos.succ p) = Pos.succ (digits2_pos p).
Proof.
  induction p as [p IH|p _|]; simpl; [|by left|by right].
  destruct IH as [->| ->]; [by left|by right].
Qed.

Lemma round_nearest_even_pos (p : positive) (l : location) :
  round_nearest_even (Zpos p) l = Zpos p
  \/ round_nearest_even (Zpos p) l = Zpos (Pos.succ p).
Proof.
  destruct l as [|[]]; simpl; auto.
  - destruct p; simpl; auto.
  - right. f_equal. lia.
Qed.

(** The library's iteration, step by step. *)
Lemma iter_pos_nat {A} (f : A -> A) (p : positive) (x : A) :
  SpecFloat.iter_pos f p x = Nat.iter (Pos.to_nat p) f x.
Proof.
  revert x. induction p as [p IH|p IH|]; intros x;
    cbn [SpecFloat.iter_pos]; [| |done].
  - rewrite !IH, Pos2Nat.inj_xI. rewrite <- Nat.iter_add.
    rewrite <- Nat.iter_succ_r. f_equal. lia.
  - rewrite !IH, Pos2Nat.inj_xO. rewrite <- Nat.iter_add. f_equal. lia.
Qed.

(** One shift to the right: the mantissa is halved, the bit that falls
    out becomes the round bit, and the sticky bit collects the rest. *)
Lemma shr_1_spec (mrs : shr_record) :
  0 <= shr_m mrs ->
  shr_m (shr_1 mrs) = shr_m mrs / 2
  /\ shr_r (shr_1 mrs) = Z.odd (shr_m mrs)
  /\ shr_s (shr_1 mrs) = shr_r mrs || shr_s mrs.
Proof.
  destruct mrs as [m r s]. simpl. intros Hm.
  destruct m as [|[p|p|]|]; [done| | |done|lia]; simpl; split; try done.
  - apply (Z.div_unique _ 2 _ 1); lia.
  - apply (Z.div_unique _ 2 _ 0); lia.
Qed.

Lemma shr_iter_spec (M : Z) (k : nat) :
  0 <= M ->
  shr_m (Nat.iter k shr_1 (Build_shr_record M false false)) = M / 2 ^ Z.of_nat k
  /\ (M mod 2 ^ Z.of_nat k = 0 ->
      shr_r (Nat.iter k shr_1 (Build_shr_record M false false)) = false
      /\ shr_s (Nat.iter k shr_1 (Build_shr_record M false false)) = false).
Proof.
  intros HM. induction k as [|k [IHm IHrs]].
  - simpl. rewrite Z.div_1_r. done.
  - rewrite Nat.iter_succ.
    assert (Hpos : 0 < 2 ^ Z.of_nat k) by (apply Z.pow_pos_nonneg; lia).
    assert (Hnn : 0 <= shr_m (Nat.iter k shr_1 (Build_shr_record M false false)))
      by (rewrite IHm; apply Z.div_pos; lia).
    destruct (shr_1_spec _ Hnn) as (Hm & Hr & Hs).
    rewrite Hm, Hr, Hs, IHm.
    rewrite Nat2Z.inj_succ, Z.pow_succ_r by lia.
    split.
    + rewrite Z.div_div by lia. f_equal. lia.
    + intros Hmod.
      apply Z.mod_divide in Hmod; [|lia]. destruct Hmod as [q Hq].
      assert (Hk : M mod 2 ^ Z.of_nat k = 0).
      { apply Z.mod_divide; [lia|]. exists (q * 2). lia. }
      destruct (IHrs Hk) as [-> ->]. split; [|done].
      replace M with (2 * q * 2 ^ Z.of_nat k) by lia.
      rewrite Z.div_mul by lia. apply Z.odd_even.
Qed.

(** A mantissa that needs no shift is kept. *)
Lemma round_aux_exact (s : bool) (m : positive) (e : Z) :
  Z.max (Zpos (digits2_pos m) + e - 53) (-1074) = e ->
  binary_round_aux 53 1024 s (Zpos m) e loc_Exact = fin_or_inf s m e.
Proof.
  intros He. unfold binary_round_aux, shr_fexp, Zdigits2, fexp, emin.
  change (3 - 1024 - 53) with (-1074). rewrite He, Z.sub_diag.
  cbn [shr shr_record_of_loc shr_m loc_of_shr_record round_nearest_even Zdigits2].
  rewrite He, Z.sub_diag. cbn [shr shr_record_of_loc shr_m].
  reflexivity.
Qed.

Lemma digits_shift (m : positive) (n : positive) :
  digits2_pos (Pos.iter xO m n) = (digits2_pos m + n)%positive.
Proof.
  apply digits_unique. pose proof (digits_bounds m) as [Hlo Hhi].
  change (Pos.iter xO m n) with (shift_pos n m).
  rewrite shift_pos_correct, Z.pow_pos_fold.
  rewrite Pos2Z.inj_add.
  replace (Z.pos (digits2_pos m) + Z.pos n - 1)
    with (Z.pos n + (Z.pos (digits2_pos m) - 1)) by lia.
  replace (Z.pos (digits2_pos m) + Z.pos n)
    with (Z.pos n + Z.pos (digits2_pos m)) by lia.
  rewrite !Z.pow_add_r by lia.
  assert (0 < 2 ^ Z.pos n) by (apply Z.pow_pos_nonneg; lia). nia.
Qed.

(** Rounding a mantissa of at most 53 bits: nothing is lost. *)
Lemma binary_round_short (s : bool) (M : positive) (ez : Z) :
  (digits2_pos M <= 53)%positive -> -1074 <= ez ->
  exists M' fe,
    binary_round 53 1024 s M ez = fin_or_inf s M' fe
    /\ fe = Z.max (Zpos (digits2_pos M) + ez - 53) (-1074)
    /\ fe <= ez
    /\ Zpos M' = Zpos M * 2 ^ (ez - fe)
    /\ Z.max (Zpos (digits2_pos M') + fe - 53) (-1074) = fe.
Proof.
  intros Hd Hez. unfold binary_round, fexp, emin.
  change (3 - 1024 - 53) with (-1074).
  remember (Z.max (Zpos (digits2_pos M) + ez - 53) (-1074)) as fe eqn:Hdef.
  assert (Hfe : fe <= ez) by lia.
  unfold shl_align.
  destruct (fe - ez) as [|p|p] eqn:Hp; [| lia |].
  - assert (Heq : fe = ez) by lia.
    exists M, fe. rewrite round_aux_exact by lia.
    replace (ez - fe) with 0 by lia. rewrite Z.mul_1_r.
    rewrite Heq at 1.
    split; [done|]. split; [done|]. split; [done|]. split; [done|lia].
  - exists (Pos.iter xO M p), fe.
    assert (Hdig := digits_shift M p).
    rewrite round_aux_exact by (rewrite Hdig; lia).
    split; [done|]. split; [done|]. split; [done|]. split.
    + change (Pos.iter xO M p) with (shift_pos p M).
      rewrite shift_pos_correct, Z.pow_pos_fold.
      replace (ez - fe) with (Z.pos p) by lia. lia.
    + rewrite Hdig. lia.
Qed.

Lemma binary_round_aux_split (s : bool) (m e : Z) (l : location) :
  binary_round_aux 53 1024 s m e l
  = finish s
      (round_nearest_even (shr_m (shr_fexp 53 1024 m e l).1)
         (loc_of_shr_record (shr_fexp 53 1024 m e l).1))
      (shr_fexp 53 1024 m e l).2.
Proof.
  unfold binary_round_aux, finish.
  by destruct (shr_fexp 53 1024 m e l) as [mrs e'].
Qed.

Lemma finish_exact (s : bool) (p : positive) (e : Z) :
  digits2_pos p = 53%positive -> -1074 <= e ->
  finish s (Zpos p) e = fin_or_inf s p e.
Proof.
  intros Hd He. unfold finish, shr_fexp, Zdigits2, fexp, emin. rewrite Hd.
  replace (Z.max (Z.pos 53 + e - 53) (3 - 1024 - 53) - e) with 0 by lia.
  reflexivity.
Qed.

Lemma finish_carry (s : bool) (e : Z) :
  -1074 <= e ->
  finish s (Zpos 9007199254740992) e = fin_or_inf s 4503599627370496 (e + 1).
Proof.
  intros He. unfold finish, shr_fexp, Zdigits2, fexp, emin.
  change (digits2_pos 9007199254740992) with 54%positive.
  replace (Z.max (Z.pos 54 + e - 53) (3 - 1024 - 53) - e) with 1 by lia.
  reflexivity.
Qed.

(** Rounding a mantissa of more than 53 bits: [k] bits are shifted out,
    the 53 that stay are kept or increased by one, and nothing is added
    when the bits shifted out are all zero. *)
Lemma binary_round_long (s : bool) (M : positive) (ez : Z) (k : positive) :
  digits2_pos M = (53 + k)%positive -> -1074 <= ez ->
  exists m1 : positive,
    Zpos m1 = Zpos M / 2 ^ Zpos k
    /\ digits2_pos m1 = 53%positive
    /\ (binary_round 53 1024 s M ez = fin_or_inf s m1 (ez + Zpos k)
        \/ (Zpos M mod 2 ^ Zpos k <> 0
            /\ digits2_pos (Pos.succ m1) = 53%positive
            /\ binary_round 53 1024 s M ez
               = fin_or_inf s (Pos.succ m1) (ez + Zpos k))
        \/ (Zpos M mod 2 ^ Zpos k <> 0
            /\ Pos.succ m1 = 9007199254740992%positive
            /\ binary_round 53 1024 s M ez
               = fin_or_inf s 4503599627370496 (ez + Zpos k + 1))).
Proof.
  intros Hd Hez.
  pose proof (digits_bounds M) as [Hlo Hhi]. rewrite Hd in Hlo, Hhi.
  rewrite Pos2Z.inj_add in Hlo, Hhi.
  replace (Z.pos 53 + Z.pos k - 1) with (Z.pos k + 52) in Hlo by lia.
  replace (Z.pos 53 + Z.pos k) with (Z.pos k + 53) in Hhi by lia.
  rewrite Z.pow_add_r in Hlo, Hhi by lia.
  assert (Hk : 0 < 2 ^ Z.pos k) by (apply Z.pow_pos_nonneg; lia).
  assert (Hq1 : 2 ^ 52 <= Zpos M / 2 ^ Zpos k)
    by (apply Z.div_le_lower_bound; lia).
  assert (Hq2 : Zpos M / 2 ^ Zpos k < 2 ^ 53)
    by (apply Z.div_lt_upper_bound; lia).
  change (2 ^ 52) with 4503599627370496 in Hq1.
  change (2 ^ 53) with 9007199254740992 in Hq2.
  destruct (Zpos M / 2 ^ Zpos k) as [|m1|] eqn:Hq; [lia| |lia].
  exists m1. split; [done|].
  assert (Hd1 : digits2_pos m1 = 53%positive).
  { apply digits_unique. change (2 ^ (53 - 1)) with 4503599627370496.
    change (2 ^ 53) with 9007199254740992. lia. }
  split; [done|].
  destruct (shr_iter_spec (Zpos M) (Pos.to_nat k)) as [Hm Hrs]; [lia|].
  rewrite positive_nat_Z in Hm, Hrs. rewrite Hq in Hm.
  set (mrs := Nat.iter (Pos.to_nat k) shr_1 (Build_shr_record (Zpos M) false false)) in *.
  assert (Hbr : binary_round 53 1024 s M ez
                = finish s (round_nearest_even (Zpos m1) (loc_of_shr_record mrs))
                    (ez + Zpos k)).
  { unfold binary_round, fexp, emin. rewrite Hd.
    replace (Z.max (Z.pos (53 + k) + ez - 53) (3 - 1024 - 53)) with (ez + Zpos k)
      by lia.
    unfold shl_align. replace (ez + Z.pos k - ez) with (Zpos k) by lia.
    rewrite binary_round_aux_split.
    unfold shr_fexp, Zdigits2, fexp, emin. rewrite Hd.
    replace (Z.max (Z.pos (53 + k) + ez - 53) (3 - 1024 - 53) - ez) with (Zpos k)
      by lia.
    cbn [shr shr_record_of_loc fst snd]. rewrite iter_pos_nat.
    fold mrs. by rewrite Hm. }
  rewrite Hbr.
  destruct (Z.eq_dec (Zpos M mod 2 ^ Zpos k) 0) as [Hex|Hnex].
  - destruct (Hrs Hex) as [Hr Hs]. left.
    unfold loc_of_shr_record. destruct mrs as [mm r ss]. simpl in Hr, Hs.
    subst r ss. cbn [round_nearest_even]. apply finish_exact; [done|lia].
  - destruct (round_nearest_even_pos m1 (loc_of_shr_record mrs)) as [-> | ->].
    + left. apply finish_exact; [done|lia].
    + right. destruct (digits_succ m1) as [Hs|Hs]; rewrite Hd1 in Hs.
      * left. split; [done|]. split; [done|]. apply finish_exact; [done|lia].
      * right. split; [done|].
        assert (Hp : Pos.succ m1 = 9007199254740992%positive).
        { pose proof (digits_bounds (Pos.succ m1)) as [Hlo' _]. rewrite Hs in Hlo'.
          change (2 ^ (Z.pos (Pos.succ 53) - 1)) with 9007199254740992 in Hlo'.
          lia. }
        split; [done|]. rewrite Hp. apply finish_carry. lia.
Qed.

(** ** Comparisons of positive finite numbers *)

Lemma leb_exp_lt (m1 m2 : positive) (e1 e2 : Z) :
  e1 < e2 -> SFleb (S754_finite false m1 e1) (S754_finite false m2 e2) = true.
Proof.
  intros H. unfold SFleb, SFcompare.
  by replace (e1 ?= e2) with Lt by (symmetry; by apply Z.compare_lt_iff).
Qed.

Lemma leb_exp_gt (m1 m2 : positive) (e1 e2 : Z) :
  e2 < e1 -> SFleb (S754_finite false m1 e1) (S754_finite false m2 e2) = false.
Proof.
  intros H. unfold SFleb, SFcompare.
  by replace (e1 ?= e2) with Gt by (symmetry; apply Z.compare_gt_iff; lia).
Qed.

Lemma leb_exp_eq (m1 m2 : positive) (e : Z) :
  SFleb (S754_finite false m1 e) (S754_finite false m2 e)
  = (m1 <=? m2)%positive.
Proof.
  unfold SFleb, SFcompare. rewrite Z.compare_refl.
  unfold Pos.leb. change (Pos.compare_cont Eq m1 m2) with (m1 ?= m2)%positive.
  by destruct (m1 ?= m2)%positive.
Qed.

Lemma leb_fin_or_inf_gt (m md : positive) (e ey : Z) :
  ey < e -> SFleb (fin_or_inf false m e) (S754_finite false md ey) = false.
Proof.
  intros H. unfold fin_or_inf. destruct (e <=? 971); [|done].
  by apply leb_exp_gt.
Qed.

Lemma fin_or_inf_fin (s : bool) (m : positive) (e : Z) :
  e <= 971 -> fin_or_inf s m e = S754_finite s m e.
Proof.
  intros H. unfold fin_or_inf.
  by replace (e <=? 971) with true by (symmetry; by apply Z.leb_le).
Qed.

(** The number of bits of a mantissa beyond 53, when there are any. *)
Lemma digits_long (M : positive) :
  (53 < digits2_pos M)%positive ->
  exists k : positive, digits2_pos M = (53 + k)%positive.
Proof. intros H. exists (digits2_pos M - 53)%positive. lia. Qed.

Lemma round_le_long (M : positive) (ez : Z) (md : positive) (ey : Z)
    (k : positive) :
  digits2_pos md = 53%positive -> -1074 <= ez <= ey -> ey <= 971 ->
  Zpos M <= Zpos md * 2 ^ (ey - ez) ->
  digits2_pos M = (53 + k)%positive ->
  SFleb (binary_round 53 1024 false M ez) (S754_finite false md ey) = true.
Proof.
  intros Hmd Hez Hey Hle HdM.
  pose proof (digits_bounds md) as [Hdlo Hdhi]. rewrite Hmd in Hdlo, Hdhi.
  change (2 ^ (53 - 1)) with 4503599627370496 in Hdlo.
  change (2 ^ 53) with 9007199254740992 in Hdhi.
  assert (Hpow : 0 < 2 ^ (ey - ez)) by (apply Z.pow_pos_nonneg; lia).
  assert (Hk : 0 < 2 ^ Zpos k) by (apply Z.pow_pos_nonneg; lia).
  destruct (binary_round_long false M ez k HdM (proj1 Hez))
    as (m1 & Hm1 & Hd1 & Hcases).
  pose proof (digits_bounds m1) as [Hlo1 Hhi1]. rewrite Hd1 in Hlo1, Hhi1.
  change (2 ^ (53 - 1)) with 4503599627370496 in Hlo1.
  change (2 ^ 53) with 9007199254740992 in Hhi1.
  pose proof (Z.mul_div_le (Zpos M) (2 ^ Zpos k) Hk) as Hfloor.
  rewrite <- Hm1 in Hfloor.
  pose proof (Z.div_mod (Zpos M) (2 ^ Zpos k) ltac:(lia)) as Hdm.
  rewrite <- Hm1 in Hdm.
  pose proof (Z.mod_pos_bound (Zpos M) (2 ^ Zpos k) Hk) as Hmod.
  assert (Hfe : ez + Zpos k <= ey).
  { destruct (Z.le_gt_cases (ez + Zpos k) ey) as [|Hgt]; [done|].
    assert (2 ^ (ey - ez + 1) <= 2 ^ Zpos k) by (apply Z.pow_le_mono_r; lia).
    rewrite Z.pow_add_r in H by lia. change (2 ^ 1) with 2 in H. nia. }
  destruct (Z.eq_dec (ez + Zpos k) ey) as [Heq|Hne].
  - assert (Hkk : ey - ez = Zpos k) by lia. rewrite Hkk in Hle.
    destruct Hcases as [-> | [(Hnex & Hds & ->) | (Hnex & Hs & ->)]].
    + rewrite fin_or_inf_fin by lia. rewrite Heq, leb_exp_eq.
      apply Pos.leb_le. nia.
    + rewrite fin_or_inf_fin by lia. rewrite Heq, leb_exp_eq.
      apply Pos.leb_le. nia.
    + nia.
  - destruct Hcases as [-> | [(Hnex & Hds & ->) | (Hnex & Hs & ->)]].
    + rewrite fin_or_inf_fin by lia. apply leb_exp_lt. lia.
    + rewrite fin_or_inf_fin by lia. apply leb_exp_lt. lia.
    + rewrite fin_or_inf_fin by lia.
      destruct (Z.eq_dec (ez + Zpos k + 1) ey) as [Heq|Hne'].
      * rewrite Heq, leb_exp_eq. apply Pos.leb_le. lia.
      * apply leb_exp_lt. lia.
Qed.

(** Rounding does not cross a number of the format: what is at most a
    normal number rounds to at most that number. *)
Lemma round_le_bound (M : positive) (ez : Z) (md : positive) (ey : Z) :
  digits2_pos md = 53%positive -> -1074 <= ez <= ey -> ey <= 971 ->
  Zpos M <= Zpos md * 2 ^ (ey - ez) ->
  SFleb (binary_round 53 1024 false M ez) (S754_finite false md ey) = true.
Proof.
  intros Hmd Hez Hey Hle.
  pose proof (digits_bounds md) as [Hdlo Hdhi]. rewrite Hmd in Hdlo, Hdhi.
  change (2 ^ (53 - 1)) with 4503599627370496 in Hdlo.
  change (2 ^ 53) with 9007199254740992 in Hdhi.
  assert (Hpow : 0 < 2 ^ (ey - ez)) by (apply Z.pow_pos_nonneg; lia).
  destruct (Pos.lt_total (digits2_pos M) 54) as [Hshort|[Heq|Hlong]].
  - destruct (binary_round_short false M ez ltac:(lia) (proj1 Hez))
      as (M' & fe & -> & Hfe & Hfez & HM' & Hcan).
    rewrite fin_or_inf_fin by lia.
    destruct (Z.lt_trichotomy fe ey) as [Hlt|[Heq|Hgt]]; [| |lia].
    + by apply leb_exp_lt.
    + subst ey. rewrite leb_exp_eq. apply Pos.leb_le.
      assert (Hz : ez = fe) by lia. rewrite Hz, Z.sub_diag in Hle, HM'.
      lia.
  - by apply (round_le_long M ez md ey 1).
  - destruct (digits_long M ltac:(lia)) as [k Hk].
    by apply (round_le_long M ez md ey k).
Qed.

(** Rounding does not fall to a number of the format from above: what is
    more than a normal number by at least one unit of its last place
    rounds to more than that number, or to infinity. *)
Lemma round_gt_bound (M : positive) (md : positive) (ey : Z) :
  digits2_pos md = 53%positive -> -1074 <= ey ->
  Zpos md + 1 <= Zpos M ->
  SFleb (binary_round 53 1024 false M ey) (S754_finite false md ey) = false.
Proof.
  intros Hmd Hey Hge.
  pose proof (digits_bounds md) as [Hdlo Hdhi]. rewrite Hmd in Hdlo, Hdhi.
  change (2 ^ (53 - 1)) with 4503599627370496 in Hdlo.
  change (2 ^ 53) with 9007199254740992 in Hdhi.
  assert (Hlong : forall k, digits2_pos M = (53 + k)%positive ->
            SFleb (binary_round 53 1024 false M ey) (S754_finite false md ey)
            = false).
  { intros k Hk.
    destruct (binary_round_long false M ey k Hk Hey)
      as (m1 & _ & _ & [-> | [(_ & _ & ->) | (_ & _ & ->)]]);
      apply leb_fin_or_inf_gt; lia. }
  destruct (Pos.lt_total (digits2_pos M) 54) as [Hshort|[Heq|Hlon]].
  - assert (Hd : digits2_pos M = 53%positive).
    { pose proof (digits_bounds M) as [_ Hhi].
      destruct (Pos.lt_total (digits2_pos M) 53) as [Hlt|[|Hgt]]; [|done|lia].
      assert (2 ^ Zpos (digits2_pos M) <= 2 ^ 52)
        by (apply Z.pow_le_mono_r; lia).
      change (2 ^ 52) with 4503599627370496 in H. lia. }
    destruct (binary_round_short false M ey ltac:(lia) Hey)
      as (M' & fe & -> & Hfe & Hfez & HM' & Hcan).
    rewrite Hd in Hfe. assert (Hfe' : fe = ey) by lia.
    rewrite Hfe' in HM' |- *. rewrite Z.sub_diag, Z.mul_1_r in HM'.
    unfold fin_or_inf. destruct (ey <=? 971); [|done].
    rewrite leb_exp_eq. apply Pos.leb_gt. lia.
  - apply (Hlong 1%positive). by rewrite Heq.
  - destruct (digits_long M ltac:(lia)) as [k Hk]. by apply (Hlong k).
Qed.

Lemma abs_finish (s : bool) (m e : Z) :
  SFabs (finish s m e) = finish false m e.
Proof.
  unfold finish, shr_fexp.
  destruct (shr _ _ _) as [mrs e'].
  destruct (shr_m mrs); [done| |done]. by destruct (_ <=? _).
Qed.

Lemma abs_binary_round (s : bool) (M : positive) (e : Z) :
  SFabs (binary_round 53 1024 s M e) = binary_round 53 1024 false M e.
Proof.
  unfold binary_round. destruct (shl_align _ _ _) as [mz ez].
  rewrite !binary_round_aux_split. apply abs_finish.
Qed.

Lemma shl_align_fst (mx : positive) (ex ez : Z) :
  ez <= ex -> Zpos (shl_align mx ex ez).1 = Zpos mx * 2 ^ (ex - ez).
Proof.
  intros H. unfold shl_align.
  destruct (ez - ex) as [|p|p] eqn:Hp; [|lia|].
  - replace (ex - ez) with 0 by lia. simpl. lia.
  - cbn [fst]. change (Pos.iter xO mx p) with (shift_pos p mx).
    rewrite shift_pos_correct, Z.pow_pos_fold.
    replace (ex - ez) with (Z.pos p) by lia. lia.
Qed.

(** The difference of two positive numbers, before rounding. *)
Lemma sub_finite (mt : positive) (et : Z) (md : positive) (ey : Z) :
  F64.sub (S754_finite false mt et) (S754_finite false md ey)
  = binary_normalize 53 1024
      (Zpos mt * 2 ^ (et - Z.min et ey) - Zpos md * 2 ^ (ey - Z.min et ey))
      (Z.min et ey) false.
Proof.
  unfold F64.sub, SFsub. cbn [cond_Zopp].
  rewrite !shl_align_fst by lia. reflexivity.
Qed.

(** What [abs(x) <= h] comes to for the rounded value of a non-zero
    integer multiple of a power of two. *)
Lemma leb_abs_normalize (D ez : Z) (md : positive) (ey : Z) :
  D <> 0 ->
  F64.leb (F64.abs (binary_normalize 53 1024 D ez false))
    (S754_finite false md ey)
  = SFleb (binary_round 53 1024 false (Z.to_pos (Z.abs D)) ez)
      (S754_finite false md ey).
Proof.
  intros HD. unfold F64.leb, F64.abs, binary_normalize.
  destruct D as [|p|p]; [done| |]; by rewrite abs_binary_round.
Qed.

Lemma bounded_inv (m : positive) (e : Z) :
  bounded 53 1024 m e = true ->
  -1074 <= e <= 971
  /\ Zpos m < 2 ^ 53
  /\ (-1074 < e -> 2 ^ 52 <= Zpos m).
Proof.
  unfold bounded, canonical_mantissa, fexp, emin.
  intros [Hc He]%andb_true_iff. apply Z.eqb_eq in Hc. apply Z.leb_le in He.
  pose proof (digits_bounds m) as [Hlo Hhi].
  split; [lia|]. split.
  - assert (2 ^ Zpos (digits2_pos m) <= 2 ^ 53)
      by (apply Z.pow_le_mono_r; lia). lia.
  - intros Hn. assert (Hd : Zpos (digits2_pos m) = 53) by lia.
    by rewrite Hd in Hlo.
Qed.

Lemma leb_fin_inv (m1 m2 : positive) (e1 e2 : Z) :
  SFleb (S754_finite false m1 e1) (S754_finite false m2 e2)
  = if Z.ltb e1 e2 then true
    else if Z.eqb e1 e2 then (m1 <=? m2)%positive else false.
Proof.
  destruct (Z.ltb_spec e1 e2) as [Hlt|Hge]; [by apply leb_exp_lt|].
  destruct (Z.eqb_spec e1 e2) as [->|Hne]; [apply leb_exp_eq|].
  apply leb_exp_gt. lia.
Qed.

(** A time in [0, dt] passes the test. *)
Lemma absorbed_within (md : positive) (ed : Z) (mt : positive) (et : Z) :
  digits2_pos md = 53%positive -> -1073 <= ed <= 971 ->
  bounded 53 1024 mt et = true ->
  F64.leb (S754_finite false mt et) (S754_finite false md ed) = true ->
  absorbed (S754_finite false md ed) (S754_finite false mt et) = true.
Proof.
  intros Hmd Hed Hb Hle. unfold absorbed in *.
  rewrite (mul_half_exact md ed Hmd Hed).
  destruct (bounded_inv mt et Hb) as (Het & Hmt & _).
  pose proof (digits_bounds md) as [Hdlo Hdhi]. rewrite Hmd in Hdlo, Hdhi.
  change (2 ^ (53 - 1)) with 4503599627370496 in Hdlo.
  change (2 ^ 53) with 9007199254740992 in *.
  unfold F64.leb in Hle. rewrite leb_fin_inv in Hle.
  rewrite sub_finite.
  set (ey := ed - 1) in *. set (ez := Z.min et ey).
  set (D := Zpos mt * 2 ^ (et - ez) - Zpos md * 2 ^ (ey - ez)).
  destruct (Z.eq_dec D 0) as [->|HD]; [done|].
  rewrite leb_abs_normalize by done.
  apply round_le_bound; [done|lia|lia|].
  rewrite Z2Pos.id by lia.
  destruct (Z.le_gt_cases ey et) as [Hge|Hlt].
  - assert (Hez : ez = ey) by lia. subst D. rewrite Hez, Z.sub_diag.
    change (2 ^ 0) with 1.
    destruct (Z.ltb_spec et ed) as [Hlt|Hge'].
    + replace (et - ey) with 0 by lia. change (2 ^ 0) with 1. lia.
    + destruct (Z.eqb_spec et ed) as [Heq|]; [|done].
      apply Pos.leb_le in Hle. replace (et - ey) with 1 by lia.
      change (2 ^ 1) with 2. lia.
  - assert (Hez : ez = et) by lia. subst D. rewrite Hez, Z.sub_diag.
    change (2 ^ 0) with 1.
    assert (2 ^ 1 <= 2 ^ (ey - et)) by (apply Z.pow_le_mono_r; lia).
    change (2 ^ 1) with 2 in H. nia.
Qed.

(** A time above [dt] fails it. *)
Lemma absorbed_beyond (md : positive) (ed : Z) (mt : positive) (et : Z) :
  digits2_pos md = 53%positive -> -1073 <= ed <= 971 ->
  bounded 53 1024 mt et = true ->
  F64.leb (S754_finite false mt et) (S754_finite false md ed) = false ->
  absorbed (S754_finite false md ed) (S754_finite false mt et) = false.
Proof.
  intros Hmd Hed Hb Hle. unfold absorbed in *.
  rewrite (mul_half_exact md ed Hmd Hed).
  destruct (bounded_inv mt et Hb) as (Het & Hmt & Hnorm).
  pose proof (digits_bounds md) as [Hdlo Hdhi]. rewrite Hmd in Hdlo, Hdhi.
  change (2 ^ (53 - 1)) with 4503599627370496 in Hdlo.
  change (2 ^ 53) with 9007199254740992 in *.
  change (2 ^ 52) with 4503599627370496 in *.
  unfold F64.leb in Hle. rewrite leb_fin_inv in Hle.
  rewrite sub_finite.
  destruct (Z.ltb_spec et ed) as [Hlt|Hge]; [done|].
  replace (Z.min et (ed - 1)) with (ed - 1) by lia.
  rewrite Z.sub_diag. change (2 ^ 0) with 1.
  set (D := Zpos mt * 2 ^ (et - (ed - 1)) - Zpos md * 1).
  assert (HD : Zpos md + 1 <= D).
  { subst D. destruct (Z.eqb_spec et ed) as [Heq|Hne].
    - apply Pos.leb_gt in Hle. replace (et - (ed - 1)) with 1 by lia.
      change (2 ^ 1) with 2. lia.
    - assert (2 ^ 2 <= 2 ^ (et - (ed - 1))) by (apply Z.pow_le_mono_r; lia).
      change (2 ^ 2) with 4 in H. specialize (Hnorm ltac:(lia)). nia. }
  rewrite leb_abs_normalize by lia.
  apply round_gt_bound; [done|lia|]. rewrite Z2Pos.id by lia. lia.
Qed.


(** The sign is carried through the rounding untouched. *)
Lemma finish_sign (s : bool) (m e : Z) :
  finish s m e
  = match finish false m e with
    | S754_zero _ => S754_zero s
    | S754_infinity _ => S754_infinity s
    | S754_nan => S754_nan
    | S754_finite _ m' e' => S754_finite s m' e'
    end.
Proof.
  unfold finish, shr_fexp.
  destruct (shr _ _ _) as [mrs e'].
  destruct (shr_m mrs); [done| |done]. by destruct (_ <=? _).
Qed.

Lemma binary_round_sign (s : bool) (M : positive) (e : Z) :
  binary_round 53 1024 s M e
  = match binary_round 53 1024 false M e with
    | S754_zero _ => S754_zero s
    | S754_infinity _ => S754_infinity s
    | S754_nan => S754_nan
    | S754_finite _ m' e' => S754_finite s m' e'
    end.
Proof.
  unfold binary_round. destruct (shl_align _ _ _) as [mz ez].
  rewrite !binary_round_aux_split. apply finish_sign.
Qed.

(** The result of rounding a positive mantissa is a number or an
    infinity. *)
Lemma binary_round_shape (s : bool) (M : positive) (ez : Z) :
  -1074 <= ez ->
  exists m e, binary_round 53 1024 s M ez = fin_or_inf s m e.
Proof.
  intros Hez.
  destruct (Pos.lt_total (digits2_pos M) 54) as [Hshort|[Heq|Hlong]].
  - destruct (binary_round_short s M ez ltac:(lia) Hez) as (M' & fe & -> & _).
    eauto.
  - destruct (binary_round_long s M ez 1 Heq Hez)
      as (m1 & _ & _ & [-> | [(_ & _ & ->) | (_ & _ & ->)]]); eauto.
  - destruct (digits_long M ltac:(lia)) as [k Hk].
    destruct (binary_round_long s M ez k Hk Hez)
      as (m1 & _ & _ & [-> | [(_ & _ & ->) | (_ & _ & ->)]]); eauto.
Qed.

Lemma leb_fin_fin_or_inf (md m : positive) (ey e : Z) :
  ey < e \/ (ey = e /\ (md <= m)%positive) ->
  SFleb (S754_finite false md ey) (fin_or_inf false m e) = true.
Proof.
  intros H. unfold fin_or_inf. destruct (e <=? 971); [|done].
  rewrite leb_fin_inv.
  destruct (Z.ltb_spec ey e); [done|].
  destruct (Z.eqb_spec ey e); [|lia]. apply Pos.leb_le. lia.
Qed.

(** Rounding does not cross a number of the format from above either:
    what is at least a normal number rounds to at least that number. *)
Lemma round_ge_bound (M : positive) (ez : Z) (md : positive) (ey : Z) :
  digits2_pos md = 53%positive -> -1074 <= ez <= ey ->
  Zpos md * 2 ^ (ey - ez) <= Zpos M ->
  SFleb (S754_finite false md ey) (binary_round 53 1024 false M ez) = true.
Proof.
  intros Hmd Hez Hge.
  pose proof (digits_bounds md) as [Hdlo Hdhi]. rewrite Hmd in Hdlo, Hdhi.
  change (2 ^ (53 - 1)) with 4503599627370496 in Hdlo.
  change (2 ^ 53) with 9007199254740992 in Hdhi.
  assert (Hpow : 0 < 2 ^ (ey - ez)) by (apply Z.pow_pos_nonneg; lia).
  pose proof (digits_bounds M) as [HMlo HMhi].
  assert (Hlong : forall k, digits2_pos M = (53 + k)%positive ->
            SFleb (S754_finite false md ey) (binary_round 53 1024 false M ez)
            = true).
  { intros k Hk. rewrite Hk in HMhi.
    assert (Hkk : ey - ez <= Zpos k).
    { destruct (Z.le_gt_cases (ey - ez) (Zpos k)) as [|Hgt]; [done|].
      assert (2 ^ Zpos (53 + k) <= 2 ^ (52 + (ey - ez)))
        by (apply Z.pow_le_mono_r; lia).
      rewrite Z.pow_add_r in H by lia.
      change (2 ^ 52) with 4503599627370496 in H. nia. }
    assert (H2k : 0 < 2 ^ Zpos k) by (apply Z.pow_pos_nonneg; lia).
    destruct (binary_round_long false M ez k Hk (proj1 Hez))
      as (m1 & Hm1 & Hd1 & Hcases).
    assert (Hm1ge : ey = ez + Zpos k -> Zpos md <= Zpos m1).
    { intros Heq. rewrite Hm1. apply Z.div_le_lower_bound; [lia|].
      replace (ey - ez) with (Zpos k) in Hge by lia. lia. }
    destruct Hcases as [-> | [(_ & _ & ->) | (_ & _ & ->)]];
      apply leb_fin_fin_or_inf.
    - destruct (Z.eq_dec ey (ez + Zpos k)) as [Heq|]; [|lia].
      right. split; [done|]. specialize (Hm1ge Heq). lia.
    - destruct (Z.eq_dec ey (ez + Zpos k)) as [Heq|]; [|lia].
      right. split; [done|]. specialize (Hm1ge Heq). lia.
    - left. lia. }
  destruct (Pos.lt_total (digits2_pos M) 54) as [Hshort|[Heq|Hlon]].
  - assert (Hd : digits2_pos M = 53%positive /\ ez = ey).
    { assert (2 ^ Zpos (digits2_pos M) <= 2 ^ 53)
        by (apply Z.pow_le_mono_r; lia).
      change (2 ^ 53) with 9007199254740992 in H.
      destruct (Z.eq_dec ez ey) as [Heq|Hne].
      - split; [|done]. rewrite Heq, Z.sub_diag in Hge.
        destruct (Pos.lt_total (digits2_pos M) 53) as [Hlt|[|Hgt]]; [|done|lia].
        assert (2 ^ Zpos (digits2_pos M) <= 2 ^ 52)
          by (apply Z.pow_le_mono_r; lia).
        change (2 ^ 52) with 4503599627370496 in H0. lia.
      - assert (2 ^ 1 <= 2 ^ (ey - ez)) by (apply Z.pow_le_mono_r; lia).
        change (2 ^ 1) with 2 in H0. nia. }
    destruct Hd as [Hd Heq]. subst ez.
    destruct (binary_round_short false M ey ltac:(lia) (proj1 Hez))
      as (M' & fe & -> & Hfe & Hfez & HM' & Hcan).
    rewrite Hd in Hfe. assert (Hfe' : fe = ey) by lia.
    rewrite Hfe' in HM' |- *. rewrite Z.sub_diag, Z.mul_1_r in HM', Hge.
    apply leb_fin_fin_or_inf. right. split; [done|]. lia.
  - by apply (Hlong 1%positive).
  - destruct (digits_long M ltac:(lia)) as [k Hk]. by apply (Hlong k).
Qed.

(** A time below zero passes the test exactly when the difference
    [tau - 0.5 * dt] rounds to [-0.5 * dt]. *)
Lemma absorbed_before (md : positive) (ed : Z) (mt : positive) (et : Z) :
  digits2_pos md = 53%positive -> -1073 <= ed <= 971 ->
  bounded 53 1024 mt et = true ->
  absorbed (S754_finite false md ed) (S754_finite true mt et) = true
  <-> F64.sub (S754_finite true mt et)
        (F64.mul F64.half (S754_finite false md ed))
      = S754_finite true md (ed - 1).
Proof.
  intros Hmd Hed Hb. unfold absorbed.
  rewrite (mul_half_exact md ed Hmd Hed).
  split.
  2:{ intros ->. change (SFleb (S754_finite false md (ed - 1))
                            (S754_finite false md (ed - 1)) = true).
      rewrite leb_exp_eq. apply Pos.leb_le. lia. }
  destruct (bounded_inv mt et Hb) as (Het & _ & _).
  unfold F64.sub, SFsub. cbn [cond_Zopp].
  rewrite !shl_align_fst by lia.
  set (ey := ed - 1). set (ez := Z.min et ey).
  assert (Hp1 : 0 < 2 ^ (et - ez)) by (apply Z.pow_pos_nonneg; lia).
  assert (Hp2 : 0 < 2 ^ (ey - ez)) by (apply Z.pow_pos_nonneg; lia).
  set (P := Zpos mt * 2 ^ (et - ez) + Zpos md * 2 ^ (ey - ez)).
  replace (- (Zpos mt * 2 ^ (et - ez)) - Zpos md * 2 ^ (ey - ez))
    with (- P) by (subst P; lia).
  assert (HP : 0 < P) by (subst P; nia).
  destruct P as [|p|p] eqn:HPp; [lia| |lia].
  unfold F64.prec, F64.emax, F64.abs, F64.leb.
  change (- Z.pos p) with (Z.neg p). cbn [binary_normalize].
  rewrite abs_binary_round. intros Hle.
  assert (Hge : SFleb (S754_finite false md ey)
                  (binary_round 53 1024 false p ez) = true).
  { apply round_ge_bound; [done|lia|]. rewrite <- HPp. subst P. nia. }
  rewrite binary_round_sign.
  destruct (binary_round_shape false p ez ltac:(lia)) as (m & e & Hr).
  rewrite Hr in Hle, Hge |- *. unfold fin_or_inf in *.
  destruct (e <=? 971); [|done].
  rewrite leb_fin_inv in Hle, Hge.
  assert (Hee : e = ey).
  { destruct (Z.lt_trichotomy e ey) as [Hlt|[Heq|Hgt]]; [|done|].
    - rewrite (proj2 (Z.ltb_ge ey e)), (proj2 (Z.eqb_neq ey e)) in Hge by lia.
      done.
    - rewrite (proj2 (Z.ltb_ge e ey)), (proj2 (Z.eqb_neq e ey)) in Hle by lia.
      done. }
  subst e. rewrite Z.ltb_irrefl, Z.eqb_refl in Hle, Hge.
  apply Pos.leb_le in Hle, Hge. f_equal. lia.
Qed.



(** Twice a positive normal number below 2^1023 is exact. *)
Lemma mul_two_exact (m : positive) (e : Z) :
  digits2_pos m = 53%positive -> (-1074 <= e <= 970)%Z ->
  F64.mul F64.two (S754_finite false m e) = S754_finite false m (e + 1).
Proof.
  intros Hd He. unfold F64.mul, F64.two, F64.prec, F64.emax, SFmul.
  cbn [xorb]. unfold binary_round_aux.
  unfold shr_fexp at 1. unfold Zdigits2. rewrite digits_shift_52, Hd.
  unfold fexp, emin.
  replace (Z.max (Z.pos (52 + 53) + (-51 + e) - 53) (3 - 1024 - 53)
           - (-51 + e))%Z with 52%Z by lia.
  unfold shr. cbn [shr_record_of_loc]. rewrite !iter_shr_52.
  cbn [shr_m loc_of_shr_record round_nearest_even].
  unfold shr_fexp, Zdigits2, fexp, emin. rewrite Hd.
  replace (Z.max (Z.pos 53 + (-51 + e + 52) - 53) (3 - 1024 - 53)
           - (-51 + e + 52))%Z with 0%Z by lia.
  cbn [shr shr_record_of_loc shr_m].
  replace (-51 + e + 52 <=? 1024 - 53)%Z with true
    by (symmetry; apply Z.leb_le; lia).
  f_equal. lia.
Qed.

(** Twice a number of at least 2^1023 is infinite. *)
Lemma mul_two_overflow (m : positive) :
  digits2_pos m = 53%positive ->
  F64.mul F64.two (S754_finite false m 971) = S754_infinity false.
Proof.
  intros Hd. unfold F64.mul, F64.two, F64.prec, F64.emax, SFmul.
  cbn [xorb]. unfold binary_round_aux.
  unfold shr_fexp at 1. unfold Zdigits2. rewrite digits_shift_52, Hd.
  unfold fexp, emin.
  change (Z.max (Z.pos (52 + 53) + (-51 + 971) - 53) (3 - 1024 - 53)
          - (-51 + 971))%Z with 52%Z.
  unfold shr. cbn [shr_record_of_loc]. rewrite !iter_shr_52.
  cbn [shr_m loc_of_shr_record round_nearest_even].
  unfold shr_fexp, Zdigits2, fexp, emin. rewrite Hd.
  reflexivity.
Qed.

(** The sentinel [2.0 * dt] fails the test of [process_sink] for every
    positive normal time step of at least 2^-1021. *)
Lemma sentinel_not_absorbed (m : positive) (e : Z) :
  digits2_pos m = 53%positive -> (-1073 <= e <= 971)%Z ->
  absorbed (S754_finite false m e) (F64.mul F64.two (S754_finite false m e))
  = false.
Proof.
  intros Hd He.
  destruct (decide (e = 971%Z)) as [->|Hne].
  - rewrite (mul_two_overflow m Hd). unfold absorbed.
    by rewrite (mul_half_exact m 971 Hd).
  - rewrite (mul_two_exact m e Hd) by lia.
    apply (absorbed_beyond m e m (e + 1) Hd He).
    + unfold bounded, canonical_mantissa, fexp, emin. rewrite Hd.
      apply andb_true_iff. split; [apply Z.eqb_eq|apply Z.leb_le]; lia.
    + apply leb_exp_gt. lia.
Qed.

(** With a time step of zero the sentinel is zero and passes. *)
Lemma sentinel_absorbed_zero (s : bool) :
  absorbed (S754_zero s) (F64.mul F64.two (S754_zero s)) = true.
Proof. by destruct s. Qed.

(** The test of [process_sink] against the interval from 0 to [dt], for a
    positive normal [dt] of at least 2^-1021 and any value [tau] of the
    format: a [tau] from 0 to [dt] passes; what passes is at most [dt]
    (so no [tau] above [dt], no infinity and no NaN passes); and a [tau]
    below zero passes exactly when [tau - 0.5 * dt] rounds to
    [-0.5 * dt]. *)
Lemma absorbed_interval (md : positive) (ed : Z) (tau : float64) :
  digits2_pos md = 53%positive -> -1073 <= ed <= 971 ->
  F64.valid tau = true ->
  (F64.leb F64.zero tau = true ->
   F64.leb tau (S754_finite false md ed) = true ->
   absorbed (S754_finite false md ed) tau = true)
  /\ (absorbed (S754_finite false md ed) tau = true ->
      F64.leb tau (S754_finite false md ed) = true)
  /\ (F64.ltb tau F64.zero = true ->
      (absorbed (S754_finite false md ed) tau = true
       <-> F64.sub tau (F64.mul F64.half (S754_finite false md ed))
           = F64.opp (F64.mul F64.half (S754_finite false md ed)))).
Proof.
  intros Hmd Hed Hv.
  destruct tau as [s|s| |s mt et].
  - split; [|split]; [|done|by destruct s].
    intros _ _. apply (proj1 (absorbed_boundaries md ed s Hmd Hed)).
  - assert (Ha : absorbed (S754_finite false md ed) (S754_infinity s) = false).
    { unfold absorbed. rewrite (mul_half_exact md ed Hmd Hed). by destruct s. }
    rewrite Ha, (mul_half_exact md ed Hmd Hed).
    split; [|split]; [by destruct s|done|]. intros _. by split.
  - done.
  - destruct s.
    + split; [done|]. split; [done|]. intros _.
      rewrite (absorbed_before md ed mt et Hmd Hed Hv).
      by rewrite (mul_half_exact md ed Hmd Hed).
    + split; [|split]; [| |done].
      * intros _. by apply absorbed_within.
      * intros Ha.
        destruct (F64.leb (S754_finite false mt et) (S754_finite false md ed))
          eqn:Hle; [done|].
        by rewrite (absorbed_beyond md ed mt et Hmd Hed Hv Hle) in Ha.
Qed.

End RoundingFacts.

(** ** Sinks *)

Section SinkFacts.
Context {W : Type}.
Implicit Types (st : state W) (sink : Sink.t W).

Lemma call_record_absorption_eq sink dt times indices st :
  call_record_absorption sink dt times indices st
  = (Ok tt,
     State (Sink.record_absorption sink (ens st) dt times indices (world st)).1
       (Sink.record_absorption sink (ens st) dt times indices (world st)).2
       (calls st ++ [Call_record_absorption (ens st) dt times indices])).
Proof.
  unfold call_record_absorption.
  by destruct (Sink.record_absorption sink (ens st) dt times indices (world st)).
Qed.

(** The positions a mask selects. *)
Lemma elem_of_selected (dt : float64) (taus : list float64) n i :
  i ∈ filter (fun i => (absorbed dt <$> taus) !! i = Some true) (seq 0 n)
  <-> i < n /\ exists tau, taus !! i = Some tau /\ absorbed dt tau = true.
Proof.
  rewrite list_elem_of_filter, elem_of_seq, list_lookup_fmap, fmap_Some.
  split.
  - intros [(tau & Ht & Ha) Hi]. split; [lia|]. eauto.
  - intros [Hi (tau & Ht & Ha)]. split; [eauto|lia].
Qed.

Lemma process_sink_None dt st : process_sink dt None st = (Ok tt, st).
Proof. reflexivity. Qed.

(** What [process_sink] does with a sink whose times are a vector of the
    ensemble's length: the outcome is that of the deletion. *)
Lemma process_sink_Some dt sink st n rest times :
  shape (Ensemble.x (ens st)) = n :: rest ->
  Sink.find_absorption_time sink (Ensemble.x (ens st)) (Ensemble.v (ens st)) dt
  = Ok times ->
  shape times = [n] ->
  process_sink dt (Some sink) st
  = let indices :=
      filter (fun i => (absorbed dt <$> data times) !! i = Some true) (seq 0 n) in
    let ew := Sink.record_absorption sink (ens st) dt times indices (world st) in
    ((Ensemble.delete indices ew.1).1,
     State (Ensemble.delete indices ew.1).2 ew.2
       (calls st
        ++ [Call_find_absorption_time (Ensemble.x (ens st))
              (Ensemble.v (ens st)) dt;
            Call_record_absorption (ens st) dt times indices;
            Call_delete indices])).
Proof.
  intros Hx Ht Hs. destruct st as [e w cs]. simpl in *.
  unfold process_sink, call_find_absorption_time, num_ptcls, ens_delete.
  unfold_monad. simpl. rewrite Ht. simpl.
  unfold Ensemble.get_num_ptcls, shape0. rewrite Hx. simpl.
  unfold boolean_index. rewrite Hs. rewrite decide_True by done.
  rewrite call_record_absorption_eq. simpl.
  by rewrite <- !app_assoc.
Qed.

(** The indices a mask selects name particles. *)
Lemma selected_in_bounds (dt : float64) (taus : list float64) n :
  Forall (fun i => i < n)
    (filter (fun i => (absorbed dt <$> taus) !! i = Some true) (seq 0 n)).
Proof.
  apply Forall_forall. intros i Hi. by apply elem_of_selected in Hi as [? _].
Qed.

End SinkFacts.

(** C4 (as amended).  Without a sink [process_sink] changes nothing.  With
    a sink whose absorption times are a vector of the ensemble's length,
    the indices it selects are, in ascending order and once each, exactly
    the [i] for which [abs(tau_i - 0.5 * dt) <= 0.5 * dt] holds as
    evaluated in binary64; [record_absorption] is called once, with the
    ensemble as it was before any deletion, these times and these
    indices, and only then are the indices deleted from the ensemble that
    [record_absorption] left: when that ensemble still has the [n]
    particles, their positions and velocities are reduced to those not
    selected, and the call returns normally if there is no per-particle
    property and otherwise ends in the [AxisError] of [Ensemble.delete].

    The test against the interval, for a positive normal [dt] of at least
    2^-1021 and any binary64 value [tau]: every [tau] with
    [0 <= tau <= dt] passes, both ends included; nothing above [dt], no
    infinity and no NaN passes; a [tau] below zero passes exactly when
    [tau - 0.5 * dt] rounds to [-0.5 * dt]. *)
Theorem process_sink_selects :
  (forall {W} (dt : float64) (st : state W), process_sink dt None st = (Ok tt, st))
  /\ (forall {W} (dt : float64) (sink : Sink.t W) (st : state W) (n : nat)
        (rest : list nat) (times : ndarray),
        shape (Ensemble.x (ens st)) = n :: rest ->
        Sink.find_absorption_time sink (Ensemble.x (ens st))
          (Ensemble.v (ens st)) dt = Ok times ->
        shape times = [n] ->
        exists indices,
          (forall i,
             i ∈ indices
             <-> i < n
                 /\ exists tau,
                      data times !! i = Some tau
                      /\ F64.leb (F64.abs (F64.sub tau (F64.mul F64.half dt)))
                           (F64.mul F64.half dt) = true)
          /\ StronglySorted lt indices
          /\ process_sink dt (Some sink) st
             = ((Ensemble.delete indices
                   (Sink.record_absorption sink (ens st) dt times indices
                      (world st)).1).1,
                State
                  (Ensemble.delete indices
                     (Sink.record_absorption sink (ens st) dt times indices
                        (world st)).1).2
                  (Sink.record_absorption sink (ens st) dt times indices
                     (world st)).2
                  (calls st
                   ++ [Call_find_absorption_time (Ensemble.x (ens st))
                         (Ensemble.v (ens st)) dt;
                       Call_record_absorption (ens st) dt times indices;
                       Call_delete indices]))
          /\ (forall (e' : Ensemble.t) (restx restv : list nat),
                shape (Ensemble.x e') = n :: restx ->
                shape (Ensemble.v e') = n :: restv ->
                Ensemble.delete indices e'
                = (if decide (Ensemble.particle_properties e' = ∅)
                   then Ok tt
                   else Raise (AxisError
                                 "axis 0 is out of bounds for array of dimension 0"),
                   {| Ensemble.x := kept_rows (Ensemble.x e') n restx indices;
                      Ensemble.v := kept_rows (Ensemble.v e') n restv indices;
                      Ensemble.ensemble_properties :=
                        Ensemble.ensemble_properties e';
                      Ensemble.particle_properties :=
                        Ensemble.particle_properties e' |})))
  /\ (forall (m : positive) (e : Z) (s : bool),
        digits2_pos m = 53%positive -> (-1073 <= e <= 971)%Z ->
        absorbed (S754_finite false m e) (S754_zero s) = true
        /\ absorbed (S754_finite false m e) (S754_finite false m e) = true)
  /\ (forall (m : positive) (e : Z) (tau : float64),
        digits2_pos m = 53%positive -> (-1073 <= e <= 971)%Z ->
        F64.valid tau = true ->
        (F64.leb F64.zero tau = true ->
         F64.leb tau (S754_finite false m e) = true ->
         absorbed (S754_finite false m e) tau = true)
        /\ (absorbed (S754_finite false m e) tau = true ->
            F64.leb tau (S754_finite false m e) = true)
        /\ (F64.ltb tau F64.zero = true ->
            (absorbed (S754_finite false m e) tau = true
             <-> F64.sub tau (F64.mul F64.half (S754_finite false m e))
                 = F64.opp (F64.mul F64.half (S754_finite false m e))))).
Proof.
  split; [reflexivity|].
  split; [|split; [apply absorbed_boundaries|apply absorbed_interval]].
  intros W dt sink st n rest times Hx Ht Hs.
  exists (filter (fun i => (absorbed dt <$> data times) !! i = Some true) (seq 0 n)).
  split; [|split; [|split]].
  - intros i. apply elem_of_selected.
  - apply StronglySorted_filter_list, StronglySorted_seq.
  - by rewrite (process_sink_Some dt sink st n rest times).
  - intros e' restx restv Hx' Hv'.
    apply (delete_in_bounds e' n restx restv); [done|done|].
    apply selected_in_bounds.
Qed.

(** *** The absorbing plane *)

Section PlaneFacts.
Context {N : Numerics}.
Implicit Types (a x v : ndarray) (self : SinkPlane.t).

Lemma for_each_Ok {A B} (f : A -> result B) (g : A -> B) (l : list A) :
  (forall y, y ∈ l -> f y = Ok (g y)) -> for_each f l = Ok (g <$> l).
Proof.
  induction l as [|y l IH]; intros Hf; simpl; [done|].
  rewrite Hf by left. simpl. rewrite IH; [done|].
  intros b Hb. apply Hf. by right.
Qed.

Lemma getitem_row a n rest i :
  shape a = n :: rest -> i < n -> getitem a i = Ok (NDArray rest (row a i)).
Proof. intros Hs Hi. unfold getitem. rewrite Hs. by rewrite decide_True. Qed.

Lemma np_dot_vectors a b d :
  shape a = [d] -> shape b = [d] -> np_dot a b = Ok (blas_dot (data a) (data b)).
Proof. intros Ha Hb. unfold np_dot. rewrite Ha, Hb. by rewrite decide_True. Qed.

(** The value the loop stores for particle [i]. *)
Lemma absorption_time_eq self x v dt n d i :
  shape (SinkPlane.point self) = [d] -> wf_array (SinkPlane.point self) ->
  shape (SinkPlane.normal self) = [d] ->
  shape x = [n; d] -> wf_array x -> shape v = [n; d] -> i < n ->
  SinkPlane.absorption_time self x v dt i
  = Ok (if F64.eqb (blas_dot (data (SinkPlane.normal self)) (row v i)) F64.zero
        then F64.mul F64.two dt
        else F64.div
               (blas_dot (data (SinkPlane.normal self))
                  (zip_with F64.sub (data (SinkPlane.point self)) (row x i)))
               (blas_dot (data (SinkPlane.normal self)) (row v i))).
Proof.
  intros Hp Wp Hn Hx Wx Hv Hi. unfold SinkPlane.absorption_time.
  rewrite (getitem_row v n [d] i Hv Hi). simpl.
  rewrite (np_dot_vectors (SinkPlane.normal self) (NDArray [d] (row v i)) d
             Hn eq_refl). simpl.
  destruct (F64.eqb _ F64.zero); [done|].
  rewrite (getitem_row x n [d] i Hx Hi). simpl.
  rewrite np_binop_same; [|by rewrite Hp| done |].
  - simpl. rewrite Hp.
    by rewrite (np_dot_vectors (SinkPlane.normal self)
                  (NDArray [d] (zip_with F64.sub (data (SinkPlane.point self))
                                  (row x i))) d Hn eq_refl).
  - unfold wf_array. simpl. rewrite (length_row x n [d] i Hx Wx Hi). simpl. lia.
Qed.

(** The times of [find_absorption_time], particle by particle. *)
Lemma find_absorption_time_eq self x v dt n d :
  shape (SinkPlane.point self) = [d] -> wf_array (SinkPlane.point self) ->
  shape (SinkPlane.normal self) = [d] ->
  shape x = [n; d] -> wf_array x -> shape v = [n; d] ->
  SinkPlane.find_absorption_time self x v dt
  = Ok (NDArray [n]
          ((fun i =>
              if F64.eqb (blas_dot (data (SinkPlane.normal self)) (row v i))
                   F64.zero
              then F64.mul F64.two dt
              else F64.div
                     (blas_dot (data (SinkPlane.normal self))
                        (zip_with F64.sub (data (SinkPlane.point self))
                           (row x i)))
                     (blas_dot (data (SinkPlane.normal self)) (row v i)))
           <$> seq 0 n)).
Proof.
  intros Hp Wp Hn Hx Wx Hv.
  unfold SinkPlane.find_absorption_time, shape0. rewrite Hx. simpl.
  rewrite (for_each_Ok _ (fun i =>
              if F64.eqb (blas_dot (data (SinkPlane.normal self)) (row v i))
                   F64.zero
              then F64.mul F64.two dt
              else F64.div
                     (blas_dot (data (SinkPlane.normal self))
                        (zip_with F64.sub (data (SinkPlane.point self))
                           (row x i)))
                     (blas_dot (data (SinkPlane.normal self)) (row v i))));
    [done|].
  intros i Hi. apply elem_of_seq in Hi.
  apply (absorption_time_eq self x v dt n d i); auto; lia.
Qed.

(** What an exact routine gives for the plane through the origin with
    normal (0, 0, 1). *)
Lemma axis_dot (a b c : float64) :
  exact_on_axis ->
  F64.is_finite a = true -> F64.is_finite b = true ->
  F64.is_finite c = true -> F64.valid c = true ->
  (F64.is_zero c = true ->
   F64.eqb (blas_dot [F64.zero; F64.zero; F64.one] [a; b; c]) F64.zero = true)
  /\ (F64.is_zero c = false ->
      blas_dot [F64.zero; F64.zero; F64.one] [a; b; c] = c).
Proof.
  intros Hax Ha Hb Hc Hv.
  destruct (Hax a b c Ha Hb Hc Hv) as [-> | [Hz Hz']].
  - split; [|done]. by destruct c as [[]| | |].
  - split; [|by rewrite Hz].
    intros _. by destruct (blas_dot _ _) as [[]| | |].
Qed.

(** The one particle of [one_ptcl z [a; b; c]] against that plane. *)
Lemma plane_z0_time (z a b c dt : float64) :
  exact_on_axis ->
  F64.is_finite a = true -> F64.is_finite b = true ->
  F64.is_finite c = true -> F64.valid c = true ->
  SinkPlane.find_absorption_time plane_z0 (Ensemble.x (one_ptcl z [a; b; c]))
    (Ensemble.v (one_ptcl z [a; b; c])) dt
  = Ok (NDArray [1]
          [if F64.is_zero c then F64.mul F64.two dt
           else F64.div
                  (blas_dot [F64.zero; F64.zero; F64.one]
                     [F64.sub F64.zero F64.zero; F64.sub F64.zero F64.zero;
                      F64.sub F64.zero z])
                  c]).
Proof.
  intros Hax Ha Hb Hc Hv.
  rewrite (find_absorption_time_eq plane_z0 _ _ dt 1 3) by done.
  destruct (axis_dot a b c Hax Ha Hb Hc Hv) as [Hzero Hnon].
  do 2 f_equal. cbn [seq fmap list_fmap].
  change (row (Ensemble.v (one_ptcl z [a; b; c])) 0) with [a; b; c].
  change (data (SinkPlane.normal plane_z0)) with [F64.zero; F64.zero; F64.one].
  destruct (F64.is_zero c) eqn:Hz.
  - by rewrite (Hzero eq_refl).
  - rewrite (Hnon eq_refl).
    replace (F64.eqb c F64.zero) with false
      by (by destruct c as [[]| | |[]]).
    reflexivity.
Qed.

End PlaneFacts.

(** C7.  For a plane and arrays of [n] positions and velocities of one
    dimension [d], [find_absorption_time] returns a vector of [n] times;
    the time of particle [i] is [2 * dt] when [normal . v_i] compares
    equal to zero (no division happens), and otherwise
    [normal . (point - x_i) / (normal . v_i)], whatever the rounding of
    the dot products.  For the plane through the origin with normal
    (0, 0, 1), with a dot product that is exact along that axis: the
    particle at z = 5 with v_z = -10 gets the time 0.5 for [dt = 1] and
    [process_sink] deletes it; a particle with v_z = 0 gets the time
    [2 * dt] and, for every positive normal [dt] of at least 2^-1021,
    [process_sink] leaves it where it is. *)
Theorem sink_plane_absorption_time {N : Numerics} :
  (forall (self : SinkPlane.t) (x v : ndarray) (dt : float64) (n d : nat),
     shape (SinkPlane.point self) = [d] -> wf_array (SinkPlane.point self) ->
     shape (SinkPlane.normal self) = [d] ->
     shape x = [n; d] -> wf_array x -> shape v = [n; d] ->
     exists taus,
       SinkPlane.find_absorption_time self x v dt = Ok (NDArray [n] taus)
       /\ length taus = n
       /\ forall i, i < n ->
            (F64.eqb (blas_dot (data (SinkPlane.normal self)) (row v i)) F64.zero
             = true ->
             taus !! i = Some (F64.mul F64.two dt))
            /\ (F64.eqb (blas_dot (data (SinkPlane.normal self)) (row v i)) F64.zero
                = false ->
                taus !! i
                = Some (F64.div
                          (blas_dot (data (SinkPlane.normal self))
                             (zip_with F64.sub (data (SinkPlane.point self))
                                (row x i)))
                          (blas_dot (data (SinkPlane.normal self)) (row v i)))))
  /\ (exact_on_axis ->
      SinkPlane.find_absorption_time plane_z0 (Ensemble.x falling_ptcl)
        (Ensemble.v falling_ptcl) F64.one
      = Ok (NDArray [1] [F64.half])
      /\ process_sink F64.one (Some (SinkPlane.as_sink unit plane_z0))
           (State falling_ptcl tt [])
         = (Ok tt,
            State no_ptcl tt
              [Call_find_absorption_time (Ensemble.x falling_ptcl)
                 (Ensemble.v falling_ptcl) F64.one;
               Call_record_absorption falling_ptcl F64.one
                 (NDArray [1] [F64.half]) [0];
               Call_delete [0]])
      /\ forall (m : positive) (e : Z) (z a b : float64),
           digits2_pos m = 53%positive -> (-1073 <= e <= 971)%Z ->
           F64.is_finite a = true -> F64.is_finite b = true ->
           SinkPlane.find_absorption_time plane_z0
             (Ensemble.x (one_ptcl z [a; b; F64.zero]))
             (Ensemble.v (one_ptcl z [a; b; F64.zero])) (S754_finite false m e)
           = Ok (NDArray [1] [F64.mul F64.two (S754_finite false m e)])
           /\ process_sink (S754_finite false m e)
                (Some (SinkPlane.as_sink unit plane_z0))
                (State (one_ptcl z [a; b; F64.zero]) tt [])
              = (Ok tt,
                 State (one_ptcl z [a; b; F64.zero]) tt
                   [Call_find_absorption_time
                      (Ensemble.x (one_ptcl z [a; b; F64.zero]))
                      (Ensemble.v (one_ptcl z [a; b; F64.zero]))
                      (S754_finite false m e);
                    Call_record_absorption (one_ptcl z [a; b; F64.zero])
                      (S754_finite false m e)
                      (NDArray [1] [F64.mul F64.two (S754_finite false m e)])
                      [];
                    Call_delete []])).
Proof.
  split.
  { intros self x v dt n d Hp Wp Hn Hx Wx Hv.
    rewrite (find_absorption_time_eq self x v dt n d) by done.
    eexists. split; [reflexivity|]. split; [by rewrite length_fmap, length_seq|].
    intros i Hi. rewrite list_lookup_fmap, lookup_seq_lt by done. simpl.
    split; intros ->; done. }
  intros Hax.
  assert (Hfall : SinkPlane.find_absorption_time plane_z0
                    (Ensemble.x falling_ptcl) (Ensemble.v falling_ptcl) F64.one
                  = Ok (NDArray [1] [F64.half])).
  { unfold falling_ptcl. rewrite (plane_z0_time _ _ _ _ _ Hax) by done.
    destruct (axis_dot (F64.sub F64.zero F64.zero) (F64.sub F64.zero F64.zero)
                (F64.sub F64.zero (F64.of_Z 5)) Hax) as [_ Hnon]; try done.
    rewrite Hnon by done. vm_compute. reflexivity. }
  split; [exact Hfall|]. split.
  { rewrite (process_sink_Some F64.one _ _ 1 [3] (NDArray [1] [F64.half]));
      [|done|exact Hfall|done].
    vm_compute. reflexivity. }
  intros m e z a b Hm He Ha Hb.
  assert (Hglide : SinkPlane.find_absorption_time plane_z0
                     (Ensemble.x (one_ptcl z [a; b; F64.zero]))
                     (Ensemble.v (one_ptcl z [a; b; F64.zero]))
                     (S754_finite false m e)
                   = Ok (NDArray [1] [F64.mul F64.two (S754_finite false m e)]))
    by (by rewrite (plane_z0_time _ _ _ _ _ Hax)).
  split; [exact Hglide|].
  rewrite (process_sink_Some (S754_finite false m e)
             (SinkPlane.as_sink unit plane_z0)
             (State (one_ptcl z [a; b; F64.zero]) tt []) 1 [3]
             (NDArray [1] [F64.mul F64.two (S754_finite false m e)])
             eq_refl Hglide eq_refl).
  cbn [data fmap list_fmap seq]. cbn zeta.
  assert (Hsel : filter
                   (fun i => [absorbed (S754_finite false m e)
                                (F64.mul F64.two (S754_finite false m e))] !! i
                             = Some true) [0] = []).
  { rewrite filter_cons, decide_False; [done|].
    cbn [lookup list_lookup]. by rewrite (sentinel_not_absorbed m e Hm He). }
  rewrite Hsel. cbn [SinkPlane.as_sink Sink.record_absorption
    Sink.base_record_absorption fst snd ens world calls app].
  rewrite (delete_in_bounds _ 1 [3] [3] []); [|done|done|constructor].
  cbn [fst snd].
  rewrite !(kept_rows_nothing _ 1 [3]) by done.
  reflexivity.
Qed.

(** C7 at work, with the sequential dot product: the falling particle of
    the example is deleted, and a particle gliding along the plane stays
    for [dt = 1]. *)
Lemma sink_plane_absorption_time_witness :
  ens (process_sink F64.one
         (Some (SinkPlane.as_sink (N := sequential) unit plane_z0))
         (State falling_ptcl tt [])).2
  = no_ptcl
  /\ ens (process_sink F64.one
            (Some (SinkPlane.as_sink (N := sequential) unit plane_z0))
            (State gliding_ptcl tt [])).2
     = gliding_ptcl.
Proof.
  destruct (proj2 (sink_plane_absorption_time (N := sequential))
              sequential_exact_on_axis) as (_ & Hfall & Hglide).
  split; [by rewrite Hfall|].
  destruct (Hglide 4503599627370496%positive (-52)%Z (F64.of_Z 5)
              (F64.of_Z 1) (F64.of_Z 2) eq_refl ltac:(lia) eq_refl eq_refl)
    as (_ & Hrun).
  change (S754_finite false 4503599627370496 (-52)) with F64.one in Hrun.
  unfold gliding_ptcl. by rewrite Hrun.
Defined.

(** C4 (the claim as stated fails).  The particle just above the plane and
    moving away from it has the absorption time -2^-60, which is below
    zero, and [process_sink] with [dt = 1] absorbs it: the difference
    [tau - 0.5] rounds to [-0.5].  (The two dot products of the example
    are exact.) *)
Lemma process_sink_absorbs_before_zero :
  SinkPlane.find_absorption_time (N := sequential) plane_z0
    (Ensemble.x leaving_ptcl) (Ensemble.v leaving_ptcl) F64.one
  = Ok (NDArray [1] [F64.of_Z_pow2 (-1) (-60)])
  /\ F64.leb F64.zero (F64.of_Z_pow2 (-1) (-60)) = false
  /\ F64.sub (F64.of_Z_pow2 (-1) (-60)) (F64.mul F64.half F64.one)
     = F64.opp (F64.mul F64.half F64.one)
  /\ process_sink F64.one
       (Some (SinkPlane.as_sink (N := sequential) unit plane_z0))
       (State leaving_ptcl tt [])
     = (Ok tt,
        State no_ptcl tt
          [Call_find_absorption_time (Ensemble.x leaving_ptcl)
             (Ensemble.v leaving_ptcl) F64.one;
           Call_record_absorption leaving_ptcl F64.one
             (NDArray [1] [F64.of_Z_pow2 (-1) (-60)]) [0];
           Call_delete [0]]).
Proof. repeat split; vm_compute; reflexivity. Qed.

(** C4 at work: the time 1/2 lies between 0 and [dt = 1], so a particle
    with that time is selected; here it is the falling particle. *)
Lemma process_sink_selects_witness :
  absorbed F64.one F64.half = true
  /\ exists indices,
       (0 ∈ indices)
       /\ process_sink F64.one
            (Some (SinkPlane.as_sink (N := sequential) unit plane_z0))
            (State falling_ptcl tt [])
          = ((Ensemble.delete indices falling_ptcl).1,
             State (Ensemble.delete indices falling_ptcl).2 tt
               [Call_find_absorption_time (Ensemble.x falling_ptcl)
                  (Ensemble.v falling_ptcl) F64.one;
                Call_record_absorption falling_ptcl F64.one
                  (NDArray [1] [F64.half]) indices;
                Call_delete indices]).
Proof.
  split.
  - apply (proj1 (proj2 (proj2 (proj2 process_sink_selects))
                    4503599627370496%positive (-52)%Z F64.half
                    eq_refl ltac:(lia) eq_refl));
      reflexivity.
  - destruct (proj1 (proj2 process_sink_selects) unit F64.one
                (SinkPlane.as_sink (N := sequential) unit plane_z0)
                (State falling_ptcl tt []) 1 [3] (NDArray [1] [F64.half])
                eq_refl eq_refl eq_refl)
      as (indices & Hmem & _ & Hrun & _).
    exists indices. split; [|exact Hrun].
    apply Hmem. split; [lia|]. exists F64.half. split; reflexivity.
Defined.

(** ** The mass of the kick *)

(** C6.  In a step with forces, once the first half step and the forces
    have run, the mass of the velocity update [v += f / m] is the value
    of ['mass'] in the ensemble-wide properties when there is one (a
    per-particle ['mass'] is then not looked at); otherwise the value of
    ['mass'] in the per-particle properties; and with neither,
    [drift_kick] raises the [RuntimeError] that asks for a mass, in the
    state the forces left. *)
Theorem drift_kick_mass_lookup {W} (dt : float64) (forces : list (Force.t W))
    (sink : option (Sink.t W)) (st st1 : state W) (f : ndarray) :
  forces <> [] ->
  before_mass_lookup dt forces sink st = (Ok f, st1) ->
  (forall m,
     Ensemble.ensemble_properties (ens st1) !! "mass" = Some m ->
     drift_kick dt forces sink st = after_mass_lookup dt sink f m st1)
  /\ (forall m,
        Ensemble.ensemble_properties (ens st1) !! "mass" = None ->
        Ensemble.particle_properties (ens st1) !! "mass" = Some m ->
        drift_kick dt forces sink st = after_mass_lookup dt sink f m st1)
  /\ (Ensemble.ensemble_properties (ens st1) !! "mass" = None ->
      Ensemble.particle_properties (ens st1) !! "mass" = None ->
      drift_kick dt forces sink st
      = (Raise (RuntimeError
                  "To accelerate particles we need a mass ensemble or particle property"),
         st1)).
Proof.
  intros Hforces Hpre.
  assert (Hrun : forall k : ndarray -> M W unit,
            (process_sink (F64.mul F64.half dt) sink;;
             drift (F64.mul F64.half dt);;
             e ← get_ens;
             f ← apply_forces dt 0 forces (np_zeros_like (Ensemble.v e));
             k f) st
            = k f st1).
  { intros k. revert Hpre. unfold before_mass_lookup.
    unfold mbind, M_bind.
    destruct (process_sink (F64.mul F64.half dt) sink st) as [[[]|ex] st2];
      [|done].
    destruct (drift (F64.mul F64.half dt) st2) as [[[]|ex] st3]; [|done].
    unfold get_ens.
    destruct (apply_forces dt 0 forces (np_zeros_like (Ensemble.v (ens st3))) st3)
      as [[f'|ex] st4]; [|done].
    by intros [= -> ->]. }
  assert (Hdk : drift_kick dt forces sink st
                = (e ← get_ens;
                   m ← lift (resolve_mass e);
                   after_mass_lookup dt sink f m) st1).
  { unfold drift_kick. rewrite decide_False by (by destruct forces).
    apply (Hrun (fun f => e ← get_ens; m ← lift (resolve_mass e);
                          after_mass_lookup dt sink f m)). }
  rewrite Hdk. unfold_monad. unfold resolve_mass.
  repeat split.
  - by intros m ->.
  - by intros m -> ->.
  - by intros -> ->.
Qed.

(** C6 at work: with both masses present the velocity gains 1/2, the
    force over the ensemble-wide mass. *)
Lemma drift_kick_mass_lookup_witness :
  [unit_push] <> []
  /\ before_mass_lookup F64.one [unit_push] None (State ptcl_with_two_masses tt [])
     = (Ok (NDArray [1; 3] [F64.one; F64.one; F64.one]),
        State ptcl_with_two_masses tt [Call_force 0 F64.one])
  /\ Ensemble.v
       (ens (drift_kick F64.one [unit_push] None
               (State ptcl_with_two_masses tt [])).2)
     = NDArray [1; 3] [F64.half; F64.half; F64.half].
Proof.
  assert (Hf : [unit_push] <> []) by done.
  assert (Hpre : before_mass_lookup F64.one [unit_push] None
                   (State ptcl_with_two_masses tt [])
                 = (Ok (NDArray [1; 3] [F64.one; F64.one; F64.one]),
                    State ptcl_with_two_masses tt [Call_force 0 F64.one]))
    by (vm_compute; reflexivity).
  split; [exact Hf|]. split; [exact Hpre|].
  destruct (drift_kick_mass_lookup F64.one [unit_push] None _ _ _ Hf Hpre)
    as (Hens & _ & _).
  rewrite (Hens (NDArray [] [F64.of_Z 2])) by (vm_compute; reflexivity).
  vm_compute. reflexivity.
Defined.

(** ** Binary64 facts *)

Section FloatFacts.
Implicit Types (a b : float64).

Lemma mul_comm a b : F64.mul a b = F64.mul b a.
Proof.
  destruct a as [sa|sa| |sa ma ea], b as [sb|sb| |sb mb eb];
    unfold F64.mul; simpl; try reflexivity;
    rewrite (xorb_comm sa sb); try reflexivity.
  by rewrite (Pos.mul_comm ma mb), (Z.add_comm ea eb).
Qed.

Lemma is_nan_mul_l a b : F64.is_nan a = true -> F64.is_nan (F64.mul a b) = true.
Proof. by destruct a, b. Qed.

Lemma is_nan_mul_r a b : F64.is_nan b = true -> F64.is_nan (F64.mul a b) = true.
Proof. by destruct a, b. Qed.

Lemma is_nan_add_l a b : F64.is_nan a = true -> F64.is_nan (F64.add a b) = true.
Proof. by destruct a, b. Qed.

Lemma is_nan_add_r a b : F64.is_nan b = true -> F64.is_nan (F64.add a b) = true.
Proof. by destruct a, b. Qed.

Lemma is_nan_div_l a b : F64.is_nan a = true -> F64.is_nan (F64.div a b) = true.
Proof. by destruct a, b. Qed.

Lemma is_nan_sqrt a : F64.is_nan a = true -> F64.is_nan (F64.sqrt a) = true.
Proof. by destruct a. Qed.

Lemma is_zero_mul_l a b :
  F64.is_zero a = true -> F64.is_finite b = true ->
  F64.is_zero (F64.mul a b) = true.
Proof. by destruct a, b. Qed.

Lemma is_zero_mul_r a b :
  F64.is_finite a = true -> F64.is_zero b = true ->
  F64.is_zero (F64.mul a b) = true.
Proof. by destruct a, b. Qed.

Lemma is_zero_div_three a :
  F64.is_zero a = true -> F64.is_zero (F64.div a F64.three) = true.
Proof. by destruct a. Qed.

Lemma is_zero_sqrt a : F64.is_zero a = true -> F64.is_zero (F64.sqrt a) = true.
Proof. by destruct a. Qed.

Lemma is_zero_add a b :
  F64.is_zero a = true -> F64.is_zero b = true ->
  F64.is_zero (F64.add a b) = true.
Proof. by destruct a as [[]| | |], b as [[]| | |]. Qed.

Lemma add_zero_r a b : F64.is_zero b = true -> same_number a (F64.add a b).
Proof.
  unfold same_number.
  destruct a as [[]|[]| |], b as [[]| | |]; try done; simpl; auto.
Qed.

(** A particle that scatters no photon contributes a zero. *)
Lemma recoil_zero nbar h norm r :
  F64.is_zero nbar = true -> F64.is_finite h = true ->
  F64.is_finite norm = true -> F64.is_finite r = true ->
  F64.is_zero (recoil nbar h norm r) = true.
Proof.
  intros Hn Hh Hnorm Hr. unfold recoil.
  apply is_zero_add.
  - by apply is_zero_mul_l.
  - apply is_zero_mul_l; [|done]. apply is_zero_mul_l; [|done].
    by apply is_zero_sqrt, is_zero_div_three.
Qed.

Lemma photons_zero g2 gamma dt s delta :
  F64.is_zero s = true -> F64.is_finite dt = true ->
  F64.is_finite (scattering_rate g2 gamma s delta) = true ->
  F64.is_zero (photons g2 gamma dt s delta) = true.
Proof.
  intros Hs Hdt Hr. unfold photons.
  apply is_zero_mul_l; [|done]. by apply is_zero_mul_r.
Qed.

(** A square root that is not a number spoils the sum. *)
Lemma recoil_nan nbar h norm r :
  F64.is_nan (F64.sqrt (F64.div nbar F64.three)) = true ->
  F64.is_nan (recoil nbar h norm r) = true.
Proof.
  intros H. unfold recoil. apply is_nan_add_r.
  by apply is_nan_mul_l, is_nan_mul_l.
Qed.

End FloatFacts.

(** ** Radiation pressure *)

Section RadiationFacts.
Context {N : Numerics}.
Implicit Types (a b f r nb : ndarray) (self : RadiationPressure.t).

Lemma samples_length {W} (sample : W -> float64 * W) n (w : W) :
  length (samples sample n w).1 = n.
Proof.
  revert w. induction n as [|n IH]; intros w; simpl; [done|].
  destruct (sample w) as [r w1]. specialize (IH w1).
  destruct (samples sample n w1) as [rs w2]. simpl in *. by rewrite IH.
Qed.

Lemma np_random_normal_wf {W} (sample : W -> float64 * W) size (w : W) :
  shape (np_random_normal sample size w).1 = size
  /\ wf_array (np_random_normal sample size w).1.
Proof.
  unfold np_random_normal, wf_array.
  pose proof (samples_length sample (size_of size) w) as H.
  destruct (samples sample (size_of size) w) as [rs w']. simpl in *. done.
Qed.

Lemma py_pow2_Ok (c g2 : float64) : py_pow2 c = Ok g2 -> g2 = libm_pow2 c.
Proof. unfold py_pow2. destruct (_ && _); [done|]. by intros [= <-]. Qed.

Lemma get_zip_with op s s1 s2 (l1 l2 : list float64) k :
  k < length l1 -> k < length l2 ->
  get (NDArray s (zip_with op l1 l2)) k
  = op (get (NDArray s1 l1) k) (get (NDArray s2 l2) k).
Proof.
  intros H1 H2.
  destruct (lookup_lt_is_Some_2 l1 k H1) as [x1 Hx1].
  destruct (lookup_lt_is_Some_2 l2 k H2) as [x2 Hx2].
  unfold get. simpl. by rewrite lookup_zip_with, Hx1, Hx2.
Qed.

Lemma get_broadcast_data op s a b k :
  k < size_of s ->
  get (NDArray s (broadcast_data op s a b)) k
  = op (get a (bcast_index (reverse s) (reverse (shape a)) k 1))
       (get b (bcast_index (reverse s) (reverse (shape b)) k 1)).
Proof. intros Hk. unfold broadcast_data. by rewrite get_fmap_seq. Qed.

Lemma broadcast_data_wf op s a b : wf_array (NDArray s (broadcast_data op s a b)).
Proof.
  unfold wf_array, broadcast_data. simpl. by rewrite length_fmap, length_seq.
Qed.

(** The photon numbers, particle by particle. *)
Lemma nbars_eq self dt s deltas n g2 :
  shape s = [n] -> wf_array s -> shape deltas = [n] -> wf_array deltas ->
  py_pow2 (F64.div (RadiationPressure.gamma self) F64.two) = Ok g2 ->
  RadiationPressure.nbars self dt s deltas
  = Ok (NDArray [n]
          (zip_with (photons g2 (RadiationPressure.gamma self) dt)
             (data s) (data deltas))).
Proof.
  intros Hs Ws Hd Wd Hg. unfold RadiationPressure.nbars, RadiationPressure.numerator.
  rewrite Hg. simpl.
  rewrite np_binop_same; [|simpl; congruence|by apply np_map_wf..].
  simpl.
  rewrite np_binop_same; simpl;
    [|congruence
     |by apply (np_map_wf (F64.mul dt))
     |unfold wf_array; simpl;
      rewrite length_fmap, length_zip_with, !length_fmap;
      unfold wf_array in Ws, Wd; rewrite Ws, Wd, Hs, Hd; simpl; lia].
  rewrite Hs. f_equal. f_equal.
  apply list_eq. intros k.
  rewrite !lookup_zip_with, !list_lookup_fmap, lookup_zip_with,
    !list_lookup_fmap.
  by destruct (data s !! k), (data deltas !! k).
Qed.

Lemma broadcast_shapes_n3_n1 n : broadcast_shapes [n; 3] [n; 1] = Some [n; 3].
Proof.
  unfold broadcast_shapes. simpl. by rewrite decide_True.
Qed.

Lemma broadcast_shapes_n1_3 n : broadcast_shapes [n; 1] [3] = Some [n; 3].
Proof. reflexivity. Qed.

Lemma bcast_index_n3_n1 n i j :
  i < n -> j < 3 -> bcast_index [3; n] [1; n] (i * 3 + j) 1 = i.
Proof.
  intros Hi Hj. cbn [bcast_index].
  replace ((i * 3 + j) `div` 3) with i
    by (apply (Nat.div_unique _ 3 i j); lia).
  rewrite (decide_True (P := 1 = 1)) by done.
  case_decide; [lia|]. rewrite Nat.mod_small by lia. lia.
Qed.

Lemma bcast_index_n3_3 n i j :
  i < n -> j < 3 -> bcast_index [3; n] [3] (i * 3 + j) 1 = j.
Proof.
  intros Hi Hj. cbn [bcast_index].
  replace ((i * 3 + j) `mod` 3) with j
    by (apply (Nat.mod_unique _ 3 i j); lia).
  rewrite (decide_False (P := 3 = 1)) by done. lia.
Qed.

Lemma bcast_index_n3_n3 n k : k < n * 3 -> bcast_index [3; n] [3; n] k 1 = k.
Proof.
  intros Hk. rewrite bcast_index_same; [lia|]. simpl. lia.
Qed.

(** What [add_recoil] leaves in the accumulator, component by component. *)
Lemma add_recoil_eq self nb r f n :
  shape nb = [n] -> wf_array nb ->
  shape r = [n; 3] -> wf_array r ->
  shape f = [n; 3] -> wf_array f ->
  shape (RadiationPressure.hbar_k self) = [3] ->
  exists f',
    RadiationPressure.add_recoil self nb r f = Ok f'
    /\ shape f' = [n; 3]
    /\ forall i j, i < n -> j < 3 ->
         get f' (i * 3 + j)
         = F64.add (get f (i * 3 + j))
             (recoil (get nb i) (get (RadiationPressure.hbar_k self) j)
                (np_linalg_norm (RadiationPressure.hbar_k self))
                (get r (i * 3 + j))).
Proof.
  intros Hnb Wnb Hr Wr Hf Wf Hh.
  unfold RadiationPressure.add_recoil, newaxis1. rewrite Hnb. simpl.
  unfold np_iop at 2. simpl. rewrite Hr, broadcast_shapes_n3_n1.
  rewrite decide_True by done. simpl.
  unfold np_binop at 2. simpl. rewrite Hh, broadcast_shapes_n1_3. simpl.
  rewrite np_binop_same; [|done|apply broadcast_data_wf..]. simpl.
  rewrite np_iop_same; [|done|done|].
  2:{ unfold wf_array. simpl.
      rewrite length_zip_with. unfold broadcast_data.
      rewrite !length_fmap, !length_seq. simpl. lia. }
  eexists. split; [reflexivity|]. split; [by rewrite Hf|].
  intros i j Hi Hj.
  assert (Hk : i * 3 + j < n * 3) by lia.
  assert (Hsz : size_of [n; 3] = n * 3) by (simpl; lia).
  unfold wf_array in Wf, Wr. rewrite Hf in Wf. rewrite Hr in Wr.
  rewrite Hsz in Wf, Wr.
  assert (Hlen : forall op a b,
            length (broadcast_data op [n; 3] a b) = n * 3).
  { intros. unfold broadcast_data. by rewrite length_fmap, length_seq. }
  rewrite (get_zip_with F64.add _ (shape f) [n; 3]);
    [|lia|cbn [data]; rewrite length_zip_with, !Hlen; lia].
  f_equal. cbn [data].
  rewrite (get_zip_with F64.add _ [n; 3] [n; 3]); [|rewrite Hlen; lia..].
  rewrite !get_broadcast_data by (rewrite Hsz; lia).
  cbn [shape np_map]. rewrite Hr, Hh.
  change (reverse [n; 3]) with [3; n].
  change (reverse [n; 1]) with [1; n].
  change (reverse [3]) with [3].
  rewrite bcast_index_n3_n3 by lia.
  rewrite !bcast_index_n3_n1, bcast_index_n3_3 by done.
  unfold recoil, RadiationPressure.recoil_scale. f_equal.
  rewrite (mul_comm (get r (i * 3 + j))). f_equal.
  unfold wf_array in Wnb. rewrite Hnb in Wnb. simpl in Wnb.
  destruct (lookup_lt_is_Some_2 (data nb) i) as [c Hc]; [lia|].
  unfold get. simpl. by rewrite list_lookup_fmap, Hc.
Qed.

End RadiationFacts.

Section ForceFacts.
Context {N : Numerics} {W : Type}.
Implicit Types (sample : W -> float64 * W) (self : RadiationPressure.t)
  (e : Ensemble.t) (f : ndarray) (w : W).

(** One call of [force] on [n] particles, component by component. *)
Lemma force_eq sample self dt e f w n g2 :
  shape (Ensemble.x e) = [n; 3] ->
  shape (RadiationPressure.intensity self (Ensemble.x e)) = [n] ->
  wf_array (RadiationPressure.intensity self (Ensemble.x e)) ->
  shape (RadiationPressure.detuning self (Ensemble.x e) (Ensemble.v e)) = [n] ->
  wf_array (RadiationPressure.detuning self (Ensemble.x e) (Ensemble.v e)) ->
  shape (RadiationPressure.hbar_k self) = [3] ->
  shape f = [n; 3] -> wf_array f ->
  py_pow2 (F64.div (RadiationPressure.gamma self) F64.two) = Ok g2 ->
  exists f',
    RadiationPressure.force sample self dt e f w
    = (Ok f', (np_random_normal sample [n; 3] w).2)
    /\ shape f' = [n; 3]
    /\ forall i j, i < n -> j < 3 ->
         get f' (i * 3 + j)
         = F64.add (get f (i * 3 + j))
             (recoil
                (photons g2 (RadiationPressure.gamma self) dt
                   (get (RadiationPressure.intensity self (Ensemble.x e)) i)
                   (get (RadiationPressure.detuning self (Ensemble.x e)
                           (Ensemble.v e)) i))
                (get (RadiationPressure.hbar_k self) j)
                (np_linalg_norm (RadiationPressure.hbar_k self))
                (get (np_random_normal sample [n; 3] w).1 (i * 3 + j))).
Proof.
  intros Hx Hs Ws Hd Wd Hh Hf Wf Hg.
  unfold RadiationPressure.force.
  rewrite (nbars_eq self dt _ _ n g2 Hs Ws Hd Wd Hg), Hx.
  destruct (np_random_normal_wf sample [n; 3] w) as [Hr Wr].
  destruct (np_random_normal sample [n; 3] w) as [r w'] eqn:Er. simpl in *.
  unfold wf_array in Ws, Wd. rewrite Hs in Ws. rewrite Hd in Wd.
  simpl in Ws, Wd.
  destruct (add_recoil_eq self
              (NDArray [n]
                 (zip_with (photons g2 (RadiationPressure.gamma self) dt)
                    (data (RadiationPressure.intensity self (Ensemble.x e)))
                    (data (RadiationPressure.detuning self (Ensemble.x e)
                             (Ensemble.v e)))))
              r f n) as (f' & Hrun & Hshape & Hget); auto.
  { unfold wf_array. simpl. rewrite length_zip_with. lia. }
  exists f'. split; [by rewrite Hrun|]. split; [done|].
  intros i j Hi Hj. rewrite (Hget i j Hi Hj). do 2 f_equal.
  by rewrite (get_zip_with _ _ [n] [n]) by lia.
Qed.

End ForceFacts.

(** C9.  For [n] particles with one intensity and one detuning each, and
    a [gamma] whose half can be squared, [force] adds to component [j] of
    particle [i] of the accumulator the binary64 value of
    [nbar * hbar_k[j] + sqrt(nbar/3) * |hbar_k| * r], where [r] is the draw
    for that component, [|hbar_k|] is the norm as NumPy returns it, and
    [nbar = dt * s * rate] with [rate] the rate of the specification,
    [(gamma/2/pi) * (gamma/2)^2 / ((gamma/2)^2 * (1 + 2 s) + delta^2)],
    in which [(gamma/2)^2] is the value [g2] that the Python power
    returns; this holds whatever the rounding of the power and of the
    norm.  When moreover every intensity is zero and [dt], the rates,
    [hbar_k], its norm and the draws are finite numbers, every [nbar] is
    zero and every component of the accumulator holds the number it held
    before. *)
Theorem radiation_pressure_force {N : Numerics} {W} (sample : W -> float64 * W)
    (self : RadiationPressure.t) (dt : float64) (e : Ensemble.t)
    (f : ndarray) (w : W) (n : nat) (g2 : float64) :
  shape (Ensemble.x e) = [n; 3] ->
  shape (RadiationPressure.intensity self (Ensemble.x e)) = [n] ->
  wf_array (RadiationPressure.intensity self (Ensemble.x e)) ->
  shape (RadiationPressure.detuning self (Ensemble.x e) (Ensemble.v e)) = [n] ->
  wf_array (RadiationPressure.detuning self (Ensemble.x e) (Ensemble.v e)) ->
  shape (RadiationPressure.hbar_k self) = [3] ->
  shape f = [n; 3] -> wf_array f ->
  py_pow2 (F64.div (RadiationPressure.gamma self) F64.two) = Ok g2 ->
  exists f',
    RadiationPressure.force sample self dt e f w
    = (Ok f', (np_random_normal sample [n; 3] w).2)
    /\ shape f' = [n; 3]
    /\ (forall i j, i < n -> j < 3 ->
          get f' (i * 3 + j)
          = F64.add (get f (i * 3 + j))
              (recoil
                 (photons g2 (RadiationPressure.gamma self) dt
                    (get (RadiationPressure.intensity self (Ensemble.x e)) i)
                    (get (RadiationPressure.detuning self (Ensemble.x e)
                            (Ensemble.v e)) i))
                 (get (RadiationPressure.hbar_k self) j)
                 (np_linalg_norm (RadiationPressure.hbar_k self))
                 (get (np_random_normal sample [n; 3] w).1 (i * 3 + j))))
    /\ ((forall i, i < n ->
           F64.is_zero (get (RadiationPressure.intensity self (Ensemble.x e)) i)
           = true) ->
        F64.is_finite dt = true ->
        (forall i, i < n ->
           F64.is_finite
             (scattering_rate g2 (RadiationPressure.gamma self)
                (get (RadiationPressure.intensity self (Ensemble.x e)) i)
                (get (RadiationPressure.detuning self (Ensemble.x e)
                        (Ensemble.v e)) i)) = true) ->
        (forall j, j < 3 ->
           F64.is_finite (get (RadiationPressure.hbar_k self) j) = true) ->
        F64.is_finite (np_linalg_norm (RadiationPressure.hbar_k self)) = true ->
        (forall k, k < n * 3 ->
           F64.is_finite (get (np_random_normal sample [n; 3] w).1 k) = true) ->
        forall i j, i < n -> j < 3 ->
          F64.is_zero
            (photons g2 (RadiationPressure.gamma self) dt
               (get (RadiationPressure.intensity self (Ensemble.x e)) i)
               (get (RadiationPressure.detuning self (Ensemble.x e)
                       (Ensemble.v e)) i)) = true
          /\ same_number (get f (i * 3 + j)) (get f' (i * 3 + j))).
Proof.
  intros Hx Hs Ws Hd Wd Hh Hf Wf Hg.
  destruct (force_eq sample self dt e f w n g2 Hx Hs Ws Hd Wd Hh Hf Wf Hg)
    as (f' & Hrun & Hshape & Hget).
  exists f'. repeat split; try done.
  - apply photons_zero; auto.
  - rewrite (Hget i j) by done. apply add_zero_r.
    apply recoil_zero; auto.
    + apply photons_zero; auto.
    + match goal with H : forall k, k < n * 3 -> _ |- _ => apply H end. lia.
Qed.

(** C9 at work: two particles in the dark, [gamma = 2], [delta = 1]
    (the square of 1 and the norm of (1, 0, 0) are exact). *)
Lemma radiation_pressure_force_witness :
  exists f',
    RadiationPressure.force (N := sequential) (constant_draw F64.one)
      (laser (F64.of_Z 2) F64.zero F64.one) F64.one (Ensemble.init 2)
      (np_zeros [2; 3]) tt
    = (Ok f', tt)
    /\ same_number (get (np_zeros [2; 3]) 4) (get f' 4).
Proof.
  destruct (radiation_pressure_force (N := sequential) (constant_draw F64.one)
              (laser (F64.of_Z 2) F64.zero F64.one) F64.one (Ensemble.init 2)
              (np_zeros [2; 3]) tt 2 F64.one
              eq_refl eq_refl eq_refl eq_refl eq_refl eq_refl eq_refl eq_refl
              eq_refl)
    as (f' & Hrun & _ & _ & Hzero).
  exists f'. split; [exact Hrun|].
  apply (Hzero
           (fun i Hi => match i with 0 | 1 => eq_refl | _ => eq_refl end)
           eq_refl
           (fun i Hi => match i with 0 | 1 => eq_refl | _ => eq_refl end)
           (fun j Hj => match j with 0 | 1 | 2 => eq_refl | _ => eq_refl end)
           eq_refl
           (fun k Hk =>
              match k with
              | 0 | 1 | 2 | 3 | 4 | 5 => eq_refl
              | _ => eq_refl
              end)
           1 1); lia.
Defined.

(** C9 (the claim as stated fails).  With zero intensity at every
    particle and zero detuning, a laser of decay rate 0, or of the positive
    decay rate 2^-600 (whose square underflows to zero), has the rate 0/0:
    [nbar] is not a number, and the call turns an accumulator of zeros
    into one of NaNs.  (The square of zero is zero with every [pow], and
    so is that of 2^-601, which lies far below the least positive
    number.) *)
Lemma radiation_pressure_zero_intensity_nan :
  RadiationPressure.intensity (laser F64.zero F64.zero F64.zero)
    (Ensemble.x (Ensemble.init 1))
  = NDArray [1] [F64.zero]
  /\ RadiationPressure.force (N := sequential) (constant_draw F64.one)
       (laser F64.zero F64.zero F64.zero) F64.one (Ensemble.init 1)
       (np_zeros [1; 3]) tt
     = (Ok (NDArray [1; 3] [not_a_number; not_a_number; not_a_number]), tt)
  /\ RadiationPressure.intensity
       (laser (F64.of_Z_pow2 1 (-600)) F64.zero F64.zero)
       (Ensemble.x (Ensemble.init 1))
     = NDArray [1] [F64.zero]
  /\ RadiationPressure.force (N := sequential) (constant_draw F64.one)
       (laser (F64.of_Z_pow2 1 (-600)) F64.zero F64.zero) F64.one
       (Ensemble.init 1) (np_zeros [1; 3]) tt
     = (Ok (NDArray [1; 3] [not_a_number; not_a_number; not_a_number]), tt).
Proof. repeat split; vm_compute; reflexivity. Qed.

(** C8 (as amended).  [RadiationPressure(gamma, ...)] keeps the [gamma] it
    is given, whatever its sign.  [force] checks nothing about [nbar]: for
    [n] particles with one intensity and one detuning each, and a [gamma]
    whose half can be squared (to [g2], whatever the rounding of the
    power), it returns normally; the three accumulator components of a
    particle whose [nbar] is not a number, or whose [nbar/3] is below
    zero, are not numbers afterwards. *)
Theorem radiation_pressure_no_checks :
  (forall gamma hbar_k intensity detuning,
     RadiationPressure.gamma
       (RadiationPressure.init gamma hbar_k intensity detuning) = gamma)
  /\ (forall {N : Numerics} {W} (sample : W -> float64 * W)
        (self : RadiationPressure.t)
        (dt : float64) (e : Ensemble.t) (f : ndarray) (w : W) (n : nat)
        (g2 : float64),
        shape (Ensemble.x e) = [n; 3] ->
        shape (RadiationPressure.intensity self (Ensemble.x e)) = [n] ->
        wf_array (RadiationPressure.intensity self (Ensemble.x e)) ->
        shape (RadiationPressure.detuning self (Ensemble.x e) (Ensemble.v e))
        = [n] ->
        wf_array (RadiationPressure.detuning self (Ensemble.x e) (Ensemble.v e)) ->
        shape (RadiationPressure.hbar_k self) = [3] ->
        shape f = [n; 3] -> wf_array f ->
        py_pow2 (F64.div (RadiationPressure.gamma self) F64.two) = Ok g2 ->
        exists f',
          RadiationPressure.force sample self dt e f w
          = (Ok f', (np_random_normal sample [n; 3] w).2)
          /\ forall i j, i < n -> j < 3 ->
               F64.is_nan
                 (photons g2 (RadiationPressure.gamma self) dt
                    (get (RadiationPressure.intensity self (Ensemble.x e)) i)
                    (get (RadiationPressure.detuning self (Ensemble.x e)
                            (Ensemble.v e)) i)) = true
               \/ F64.is_negative
                    (F64.div
                       (photons g2 (RadiationPressure.gamma self) dt
                          (get (RadiationPressure.intensity self (Ensemble.x e)) i)
                          (get (RadiationPressure.detuning self (Ensemble.x e)
                                  (Ensemble.v e)) i))
                       F64.three) = true ->
               F64.is_nan (get f' (i * 3 + j)) = true).
Proof.
  split; [reflexivity|].
  intros N W sample self dt e f w n g2 Hx Hs Ws Hd Wd Hh Hf Wf Hg.
  destruct (force_eq sample self dt e f w n g2 Hx Hs Ws Hd Wd Hh Hf Wf Hg)
    as (f' & Hrun & _ & Hget).
  exists f'. split; [exact Hrun|].
  intros i j Hi Hj Hbad. rewrite (Hget i j Hi Hj).
  apply is_nan_add_r, recoil_nan.
  destruct Hbad as [Hnan|Hneg].
  - by apply is_nan_sqrt, is_nan_div_l.
  - by destruct (F64.div _ F64.three) as [| [] | | [] ? ?].
Qed.

(** C8 at work: the laser of decay rate -2 on one particle (the square of
    -1 and the norm of (1, 0, 0) are exact). *)
Lemma radiation_pressure_no_checks_witness :
  exists f',
    RadiationPressure.force (N := sequential) (constant_draw F64.one)
      (laser (F64.of_Z (-2)) F64.one F64.zero) F64.one (Ensemble.init 1)
      (np_zeros [1; 3]) tt
    = (Ok f', tt)
    /\ F64.is_nan (get f' 2) = true.
Proof.
  destruct (proj2 radiation_pressure_no_checks sequential unit
              (constant_draw F64.one)
              (laser (F64.of_Z (-2)) F64.one F64.zero) F64.one
              (Ensemble.init 1) (np_zeros [1; 3]) tt 1 F64.one
              eq_refl eq_refl eq_refl eq_refl eq_refl eq_refl eq_refl eq_refl
              eq_refl)
    as (f' & Hrun & Hnan).
  exists f'. split; [exact Hrun|].
  apply (Hnan 0 2); [lia|lia|]. right. vm_compute. reflexivity.
Defined.

(** C8 (the claim as stated fails).  A laser with the decay rate -2 is
    constructed; on one particle at saturation intensity and on resonance
    its [nbar] is below zero, and [force] returns normally with an
    accumulator of NaNs. *)
Lemma radiation_pressure_negative_gamma :
  F64.leb (RadiationPressure.gamma (laser (F64.of_Z (-2)) F64.one F64.zero))
    F64.zero = true
  /\ (exists nbar,
        RadiationPressure.nbars (N := sequential)
          (laser (F64.of_Z (-2)) F64.one F64.zero)
          F64.one (NDArray [1] [F64.one]) (NDArray [1] [F64.zero])
        = Ok (NDArray [1] [nbar])
        /\ F64.is_negative nbar = true)
  /\ RadiationPressure.force (N := sequential) (constant_draw F64.one)
       (laser (F64.of_Z (-2)) F64.one F64.zero) F64.one (Ensemble.init 1)
       (np_zeros [1; 3]) tt
     = (Ok (NDArray [1; 3] [not_a_number; not_a_number; not_a_number]), tt).
Proof.
  split; [reflexivity|]. split; [|vm_compute; reflexivity].
  eexists. split; [vm_compute; reflexivity|reflexivity].
Qed.

(** * Further properties of the ensemble *)

Section EnsembleFacts.
Implicit Types (e : Ensemble.t) (a : ndarray) (rest : list nat).

Lemma kept_rows_all a n rest :
  kept_rows a n rest (seq 0 n) = NDArray (0 :: rest) [].
Proof.
  unfold kept_rows. rewrite filter_none; [done|].
  apply Forall_forall. intros i Hi. tauto.
Qed.

Lemma kept_rows_same_set a n rest (idx1 idx2 : list nat) :
  (forall i, i ∈ idx1 <-> i ∈ idx2) ->
  kept_rows a n rest idx1 = kept_rows a n rest idx2.
Proof.
  intros Hsame. unfold kept_rows.
  rewrite (filter_agree (fun i => i ∉ idx1) (fun i => i ∉ idx2)); [done|].
  apply Forall_forall. intros i _. specialize (Hsame i). tauto.
Qed.

Lemma Forall_seq_lt n : Forall (fun i => i < n) (seq 0 n).
Proof. apply Forall_forall. intros i Hi. apply elem_of_seq in Hi. lia. Qed.

End EnsembleFacts.

(** X3.  [set_particle_property(key, prop)] on [n] particles: when the
    leading dimension of [prop] is [n] the call stores [prop] under [key]
    (a later lookup of [key] gives [prop], whatever was stored there
    before), and changes no other property, no position and no velocity;
    with any other leading dimension it raises the [RuntimeError] of the
    size check, and with a 0-d [prop] the [IndexError] of [prop.shape[0]]. *)
Theorem set_particle_property_stores (key : string) (prop : ndarray)
    (e : Ensemble.t) (n : nat) :
  Ensemble.get_num_ptcls e = Ok n ->
  (shape0 prop = Ok n ->
   exists e',
     Ensemble.set_particle_property key prop e = Ok e'
     /\ Ensemble.particle_properties e' !! key = Some prop
     /\ (forall key', key' <> key ->
           Ensemble.particle_properties e' !! key'
           = Ensemble.particle_properties e !! key')
     /\ Ensemble.x e' = Ensemble.x e /\ Ensemble.v e' = Ensemble.v e
     /\ Ensemble.ensemble_properties e' = Ensemble.ensemble_properties e)
  /\ (forall m, shape0 prop = Ok m -> m <> n ->
        Ensemble.set_particle_property key prop e
        = Raise (RuntimeError
                   "Size of property array does not match number of particles."))
  /\ (shape prop = [] ->
      Ensemble.set_particle_property key prop e
      = Raise (IndexError "tuple index out of range")).
Proof.
  intros Hn. unfold Ensemble.set_particle_property. rewrite Hn.
  split; [|split].
  - intros ->. simpl. rewrite decide_False by (intros H; by apply H).
    eexists. split; [reflexivity|]. simpl. split; [apply lookup_insert_eq|].
    split; [|done]. intros key' Hne. by apply lookup_insert_ne.
  - intros m -> Hm. simpl. by rewrite decide_True.
  - intros Hs. unfold shape0. by rewrite Hs.
Qed.

(** X3 at work: a mass vector for two particles, stored over an older
    one. *)
Lemma set_particle_property_stores_witness :
  exists e e',
    two_ptcls_with_mass = Ok e
    /\ Ensemble.set_particle_property "mass"
         (NDArray [2] [F64.of_Z 3; F64.of_Z 4]) e = Ok e'
    /\ Ensemble.particle_properties e' !! "mass"
       = Some (NDArray [2] [F64.of_Z 3; F64.of_Z 4]).
Proof.
  eexists. 
  destruct (proj1 (set_particle_property_stores "mass"
                     (NDArray [2] [F64.of_Z 3; F64.of_Z 4])
                     (Ensemble.Build (np_zeros [2; 3]) (np_zeros [2; 3]) ∅
                        {[ "mass" := NDArray [2] [F64.one; F64.two] ]})
                     2 eq_refl) eq_refl)
    as (e' & Hset & Hlook & _).
  exists e'. split; [reflexivity|]. split; [exact Hset|exact Hlook].
Defined.

(** What [resize] and [set_particle_property] keep true of the property
    arrays. *)
Lemma apply_op_properties_match (o : ensemble_op) (e : Ensemble.t) (n : nat) :
  is_delete o = false ->
  Ensemble.get_num_ptcls e = Ok n ->
  (forall key p, Ensemble.particle_properties e !! key = Some p ->
                 shape0 p = Ok n) ->
  exists m,
    Ensemble.get_num_ptcls (apply_op o e) = Ok m
    /\ forall key p, Ensemble.particle_properties (apply_op o e) !! key = Some p ->
                     shape0 p = Ok m.
Proof.
  intros Hd Hn Hp. destruct o as [m|indices|key prop]; [| done |]; simpl.
  - unfold Ensemble.resize.
    unfold Ensemble.get_num_ptcls, shape0 in Hn.
    destruct (shape (Ensemble.x e)) as [|n' rest] eqn:Hx; [done|].
    exists m. split; [by unfold Ensemble.get_num_ptcls, shape0|].
    simpl. intros key p. rewrite lookup_fmap.
    destruct (Ensemble.particle_properties e !! key); [|done].
    by intros [= <-].
  - destruct (Ensemble.set_particle_property key prop e) as [e'|ex] eqn:Hset;
      [|eauto].
    exists n. unfold Ensemble.set_particle_property in Hset. rewrite Hn in Hset.
    destruct (shape0 prop) as [k|] eqn:Hk; simpl in Hset; [|done].
    case_decide as Hkn; [done|]. injection Hset as <-.
    split; [exact Hn|]. simpl. intros key' p.
    destruct (decide (key' = key)) as [->|Hne].
    + rewrite lookup_insert_eq. intros [= <-]. unfold np_copy.
      rewrite Hk. f_equal. destruct (decide (k = n)); [done|]. by destruct Hkn.
    + rewrite lookup_insert_ne by done. apply Hp.
Qed.

(** X4.  After [Ensemble(num_ptcls)] and any sequence of [resize] and
    [set_particle_property] calls (no [delete]), every per-particle
    property array has the current number of particles as its leading
    dimension. *)
Theorem properties_match_num_ptcls (num_ptcls : nat) (ops : list ensemble_op) :
  forallb (fun o => negb (is_delete o)) ops = true ->
  exists n,
    Ensemble.get_num_ptcls (apply_ops ops (Ensemble.init num_ptcls)) = Ok n
    /\ forall key p,
         Ensemble.particle_properties (apply_ops ops (Ensemble.init num_ptcls))
           !! key = Some p ->
         shape0 p = Ok n.
Proof.
  intros Hops.
  assert (Hgen : forall e n,
            Ensemble.get_num_ptcls e = Ok n ->
            (forall key p, Ensemble.particle_properties e !! key = Some p ->
                           shape0 p = Ok n) ->
            exists m,
              Ensemble.get_num_ptcls (apply_ops ops e) = Ok m
              /\ forall key p,
                   Ensemble.particle_properties (apply_ops ops e) !! key = Some p ->
                   shape0 p = Ok m).
  { induction ops as [|o ops IH]; intros e n Hn Hp; simpl; [eauto|].
    simpl in Hops. apply andb_true_iff in Hops as [Ho Hops].
    apply negb_true_iff in Ho.
    destruct (apply_op_properties_match o e n Ho Hn Hp) as (m & Hm & Hpm).
    exact (IH Hops _ m Hm Hpm). }
  apply (Hgen (Ensemble.init num_ptcls) num_ptcls); [done|].
  intros key p. simpl. by rewrite lookup_empty.
Qed.

(** X4 at work: a property of pairs, then a resize to five particles. *)
Lemma properties_match_num_ptcls_witness :
  exists n,
    Ensemble.get_num_ptcls
      (apply_ops [Op_set_particle_property "spin" (np_zeros [2; 2]); Op_resize 5]
         (Ensemble.init 2)) = Ok n
    /\ n = 5.
Proof.
  destruct (properties_match_num_ptcls 2
              [Op_set_particle_property "spin" (np_zeros [2; 2]); Op_resize 5]
              eq_refl) as (n & Hn & _).
  exists n. split; [exact Hn|].
  assert (Hc : Ensemble.get_num_ptcls
                 (apply_ops [Op_set_particle_property "spin" (np_zeros [2; 2]);
                             Op_resize 5] (Ensemble.init 2)) = Ok 5)
    by reflexivity.
  rewrite Hc in Hn. by injection Hn as <-.
Defined.

(** X5.  On an ensemble whose positions and velocities are [n] entries:
    [delete([])] leaves the ensemble as it is; [delete] of all of
    [0 .. n-1] leaves no particle; in both cases the call returns
    normally exactly when there is no per-particle property (with one it
    ends in the [AxisError] of the loop over the properties); and two
    index lists with the same elements (in any order, with or without
    repeats) give the same ensemble and the same outcome: both return,
    or both raise an exception of the same class. *)
Theorem delete_edge_cases (e : Ensemble.t) (n : nat) (rest : list nat) :
  shape (Ensemble.x e) = n :: rest -> shape (Ensemble.v e) = n :: rest ->
  wf_array (Ensemble.x e) -> wf_array (Ensemble.v e) ->
  Ensemble.delete [] e
  = (if decide (Ensemble.particle_properties e = ∅)
     then Ok tt else Raise no_axis, e)
  /\ ((Ensemble.delete (seq 0 n) e).1
      = (if decide (Ensemble.particle_properties e = ∅)
         then Ok tt else Raise no_axis)
      /\ Ensemble.get_num_ptcls (Ensemble.delete (seq 0 n) e).2 = Ok 0
      /\ data (Ensemble.x (Ensemble.delete (seq 0 n) e).2) = []
      /\ data (Ensemble.v (Ensemble.delete (seq 0 n) e).2) = [])
  /\ (forall idx1 idx2 : list nat,
        (forall i, i ∈ idx1 <-> i ∈ idx2) ->
        Ensemble.delete idx1 e = Ensemble.delete idx2 e).
Proof.
  intros Hx Hv Wx Wv. split; [|split].
  - rewrite (delete_in_bounds e n rest rest [] Hx Hv); [|constructor].
    rewrite (kept_rows_nothing _ n rest Hx Wx), (kept_rows_nothing _ n rest Hv Wv).
    by destruct e.
  - rewrite (delete_in_bounds e n rest rest (seq 0 n) Hx Hv (Forall_seq_lt n)).
    unfold Ensemble.get_num_ptcls, shape0. cbn [fst snd Ensemble.x Ensemble.v].
    by rewrite !kept_rows_all.
  - intros idx1 idx2 Hsame.
    assert (Hin : Forall (fun i => i < n) idx1 <-> Forall (fun i => i < n) idx2).
    { rewrite !Forall_forall. split; intros Hall i Hi; apply Hall, Hsame, Hi. }
    destruct (decide (Forall (fun i => i < n) idx1)) as [H1|H1].
    + rewrite (delete_in_bounds e n rest rest idx1 Hx Hv H1).
      rewrite (delete_in_bounds e n rest rest idx2 Hx Hv (proj1 Hin H1)).
      by rewrite !(kept_rows_same_set _ n rest idx1 idx2 Hsame).
    + rewrite (delete_out_of_bounds e n rest idx1 Hx H1).
      rewrite (delete_out_of_bounds e n rest idx2 Hx); [done|]. tauto.
Qed.

(** X5 at work: three particles; [2, 0, 2] and [0, 2] delete the same. *)
Lemma delete_edge_cases_witness :
  Ensemble.delete [] (Ensemble.init 3) = (Ok tt, Ensemble.init 3)
  /\ Ensemble.delete [2; 0; 2] (Ensemble.init 3)
     = Ensemble.delete [0; 2] (Ensemble.init 3).
Proof.
  destruct (delete_edge_cases (Ensemble.init 3) 3 [3]
              eq_refl eq_refl eq_refl eq_refl) as (Hnone & _ & Hsame).
  split; [exact Hnone|]. apply Hsame. intros i.
  rewrite !elem_of_cons. intuition.
Defined.

(** X6.  Two resizes in a row, the second to at most the size of the
    first, leave the ensemble that the second alone leaves: growing does
    not disturb what a later shrinking keeps. *)
Theorem resize_then_smaller (e e1 e2 : Ensemble.t) (m k : nat) :
  k <= m ->
  Ensemble.resize m e = Ok e1 ->
  Ensemble.resize k e1 = Ok e2 ->
  Ensemble.resize k e = Ok e2.
Proof.
  intros Hkm. unfold Ensemble.resize.
  destruct (shape (Ensemble.x e)) as [|n rest]; [done|].
  intros [= <-]. simpl. intros [= <-]. f_equal.
  unfold ndarray_resize. simpl. fold (size_of rest).
  assert (Hsz : k * size_of rest <= m * size_of rest) by nia.
  rewrite !resize_resize by (simpl; done).
  f_equal. rewrite <- map_fmap_compose. apply map_fmap_ext.
  intros key p _. simpl. unfold ndarray_resize. simpl.
  rewrite resize_resize; [done|lia].
Qed.

(** X6 at work: two particles grown to five, then cut to three. *)
Lemma resize_then_smaller_witness :
  exists e1 e2,
    Ensemble.resize 5 (Ensemble.init 2) = Ok e1
    /\ Ensemble.resize 3 e1 = Ok e2
    /\ Ensemble.resize 3 (Ensemble.init 2) = Ok e2.
Proof.
  do 2 eexists. split; [reflexivity|]. split; [reflexivity|].
  eapply (resize_then_smaller (Ensemble.init 2) _ _ 5 3);
    [lia|reflexivity|reflexivity].
Defined.


(** X7.  For a positive normal time step [dt] of at least 2^-1021, a
    particle whose absorption time is the sentinel [2.0 * dt] (the value
    the base [Sink] gives every particle, and [SinkPlane] a particle
    whose normal velocity compares equal to zero) is never among the
    indices that [process_sink] hands to [record_absorption] and to
    [Ensemble.delete]. *)
Theorem sentinel_never_selected {W} (m : positive) (e : Z) (sink : Sink.t W)
    (st : state W) (n : nat) (rest : list nat) (times : ndarray) :
  digits2_pos m = 53%positive -> (-1073 <= e <= 971)%Z ->
  shape (Ensemble.x (ens st)) = n :: rest ->
  Sink.find_absorption_time sink (Ensemble.x (ens st)) (Ensemble.v (ens st))
    (S754_finite false m e) = Ok times ->
  shape times = [n] ->
  exists indices,
    (forall i,
       data times !! i = Some (F64.mul F64.two (S754_finite false m e)) ->
       i ∉ indices)
    /\ process_sink (S754_finite false m e) (Some sink) st
       = let ew :=
           Sink.record_absorption sink (ens st) (S754_finite false m e) times
             indices (world st) in
         ((Ensemble.delete indices ew.1).1,
          State (Ensemble.delete indices ew.1).2 ew.2
            (calls st
             ++ [Call_find_absorption_time (Ensemble.x (ens st))
                   (Ensemble.v (ens st)) (S754_finite false m e);
                 Call_record_absorption (ens st) (S754_finite false m e) times
                   indices;
                 Call_delete indices])).
Proof.
  intros Hd He Hx Ht Hs. eexists. split; [|by apply (process_sink_Some _ _ _ n rest)].
  intros i Hi Hin. apply elem_of_selected in Hin as (_ & tau & Htau & Ha).
  rewrite Hi in Htau.
  assert (Heq : tau = F64.mul F64.two (S754_finite false m e)) by congruence.
  rewrite Heq in Ha.
  by rewrite (sentinel_not_absorbed m e Hd He) in Ha.
Qed.

(** X7 at work: a particle that glides along the plane, [dt = 1]. *)
Lemma sentinel_never_selected_witness :
  exists indices,
    (0 ∉ indices)
    /\ ens (process_sink F64.one
              (Some (SinkPlane.as_sink (N := sequential) unit plane_z0))
              (State gliding_ptcl tt [])).2
       = (Ensemble.delete indices gliding_ptcl).2.
Proof.
  destruct (sentinel_never_selected 4503599627370496 (-52)
              (SinkPlane.as_sink (N := sequential) unit plane_z0)
              (State gliding_ptcl tt [])
              1 [3] (NDArray [1] [F64.mul F64.two F64.one])
              eq_refl ltac:(lia) eq_refl eq_refl eq_refl)
    as (indices & Hnot & Hrun).
  exists indices. split; [by apply Hnot|].
  change (S754_finite false 4503599627370496 (-52)) with F64.one in Hrun.
  by rewrite Hrun.
Defined.

Section BaseSinkFacts.
Context {W : Type}.
Implicit Types (st : state W).

Lemma delete_nothing (e : Ensemble.t) n rest :
  shape (Ensemble.x e) = n :: rest -> Ensemble.aligned e ->
  Ensemble.delete [] e
  = (if decide (Ensemble.particle_properties e = ∅)
     then Ok tt else Raise no_axis, e).
Proof.
  intros Hx (Hs & Wx & Wv).
  rewrite (delete_in_bounds e n rest rest []); [|done|by rewrite <- Hs|constructor].
  rewrite (kept_rows_nothing _ n rest Hx Wx).
  rewrite (kept_rows_nothing (Ensemble.v e) n rest); [by destruct e| |done].
  by rewrite <- Hs.
Qed.

(** What the base class selects when its sentinel fails, or passes, the
    test. *)
Lemma base_sink_selected dt n (b : bool) :
  absorbed dt (F64.mul F64.two dt) = b ->
  filter (fun i => (absorbed dt <$> data (np_full n (F64.mul F64.two dt))) !! i
                   = Some true) (seq 0 n)
  = if b then seq 0 n else [].
Proof.
  intros Hb. cbn [np_full data]. rewrite fmap_replicate, Hb. destruct b.
  - apply filter_all, Forall_forall. intros i Hi. apply elem_of_seq in Hi.
    apply lookup_replicate. split; [done|lia].
  - apply filter_none, Forall_forall. intros i _ Hi.
    by apply lookup_replicate in Hi as [? _].
Qed.

Lemma base_sink_run dt st n rest :
  shape (Ensemble.x (ens st)) = n :: rest ->
  process_sink dt (Some (Sink.base W)) st
  = let indices :=
      if absorbed dt (F64.mul F64.two dt) then seq 0 n else [] in
    ((Ensemble.delete indices (ens st)).1,
     State (Ensemble.delete indices (ens st)).2 (world st)
       (calls st
        ++ [Call_find_absorption_time (Ensemble.x (ens st))
              (Ensemble.v (ens st)) dt;
            Call_record_absorption (ens st) dt
              (np_full n (F64.mul F64.two dt)) indices;
            Call_delete indices])).
Proof.
  intros Hx.
  rewrite (process_sink_Some dt (Sink.base W) st n rest
             (np_full n (F64.mul F64.two dt))); [|done| |done].
  - by rewrite (base_sink_selected dt n _ eq_refl).
  - simpl. unfold Sink.base_find_absorption_time, shape0. by rewrite Hx.
Qed.

End BaseSinkFacts.

(** X8.  A sink of the base class absorbs nothing: for a positive normal
    time step of at least 2^-1021, [process_sink] with a base [Sink]
    leaves the ensemble and the world as they were; [record_absorption]
    and [delete] are called with no index.  The call returns normally
    when the ensemble has no per-particle property, and ends in the
    [AxisError] of [Ensemble.delete] when it has one. *)
Theorem base_sink_absorbs_nothing {W} (m : positive) (e : Z) (st : state W)
    (n : nat) (rest : list nat) :
  digits2_pos m = 53%positive -> (-1073 <= e <= 971)%Z ->
  shape (Ensemble.x (ens st)) = n :: rest -> Ensemble.aligned (ens st) ->
  process_sink (S754_finite false m e) (Some (Sink.base W)) st
  = (if decide (Ensemble.particle_properties (ens st) = ∅)
     then Ok tt
     else Raise (AxisError "axis 0 is out of bounds for array of dimension 0"),
     State (ens st) (world st)
       (calls st
        ++ [Call_find_absorption_time (Ensemble.x (ens st))
              (Ensemble.v (ens st)) (S754_finite false m e);
            Call_record_absorption (ens st) (S754_finite false m e)
              (np_full n (F64.mul F64.two (S754_finite false m e))) [];
            Call_delete []])).
Proof.
  intros Hd He Hx Hal. rewrite (base_sink_run _ st n rest Hx).
  rewrite (sentinel_not_absorbed m e Hd He). cbn zeta.
  by rewrite (delete_nothing (ens st) n rest Hx Hal).
Qed.

(** X8 at work: three particles at rest, [dt = 1]. *)
Lemma base_sink_absorbs_nothing_witness :
  process_sink F64.one (Some (Sink.base unit)) (State (Ensemble.init 3) tt [])
  = (Ok tt,
     State (Ensemble.init 3) tt
       [Call_find_absorption_time (Ensemble.x (Ensemble.init 3))
          (Ensemble.v (Ensemble.init 3)) F64.one;
        Call_record_absorption (Ensemble.init 3) F64.one
          (np_full 3 (F64.mul F64.two F64.one)) [];
        Call_delete []]).
Proof.
  assert (Hal : Ensemble.aligned (Ensemble.init 3)) by (repeat split; reflexivity).
  pose proof (base_sink_absorbs_nothing 4503599627370496 (-52)
                (State (Ensemble.init 3) tt []) 3 [3]
                eq_refl ltac:(lia) eq_refl Hal) as Hrun.
  change (S754_finite false 4503599627370496 (-52)) with F64.one in Hrun.
  exact Hrun.
Defined.

(** X9.  With a time step of zero the sentinel [2.0 * dt] is zero and
    passes the test [abs(0 - 0) <= 0]: [process_sink] with a base [Sink]
    then hands every particle to [record_absorption] and to
    [Ensemble.delete], which leaves no position and no velocity (and
    returns normally when the ensemble has no per-particle property). *)
Theorem base_sink_zero_step {W} (s : bool) (st : state W) (n : nat)
    (rest : list nat) :
  shape (Ensemble.x (ens st)) = n :: rest ->
  shape (Ensemble.v (ens st)) = n :: rest ->
  process_sink (S754_zero s) (Some (Sink.base W)) st
  = (if decide (Ensemble.particle_properties (ens st) = ∅)
     then Ok tt
     else Raise (AxisError "axis 0 is out of bounds for array of dimension 0"),
     State (Ensemble.delete (seq 0 n) (ens st)).2 (world st)
       (calls st
        ++ [Call_find_absorption_time (Ensemble.x (ens st))
              (Ensemble.v (ens st)) (S754_zero s);
            Call_record_absorption (ens st) (S754_zero s)
              (np_full n (F64.mul F64.two (S754_zero s))) (seq 0 n);
            Call_delete (seq 0 n)]))
  /\ Ensemble.get_num_ptcls (Ensemble.delete (seq 0 n) (ens st)).2 = Ok 0
  /\ data (Ensemble.x (Ensemble.delete (seq 0 n) (ens st)).2) = []
  /\ data (Ensemble.v (Ensemble.delete (seq 0 n) (ens st)).2) = [].
Proof.
  intros Hx Hv.
  pose proof (delete_in_bounds (ens st) n rest rest (seq 0 n) Hx Hv
                (Forall_seq_lt n)) as Hdel.
  split.
  - rewrite (base_sink_run _ st n rest Hx).
    rewrite (sentinel_absorbed_zero s). cbn zeta. by rewrite Hdel.
  - rewrite Hdel. unfold Ensemble.get_num_ptcls, shape0.
    cbn [snd Ensemble.x Ensemble.v]. by rewrite !kept_rows_all.
Qed.

(** X9 at work: three particles, [dt = 0]. *)
Lemma base_sink_zero_step_witness :
  Ensemble.get_num_ptcls
    (ens (process_sink F64.zero (Some (Sink.base unit))
            (State (Ensemble.init 3) tt [])).2)
  = Ok 0.
Proof.
  destruct (base_sink_zero_step false (State (Ensemble.init 3) tt []) 3 [3]
              eq_refl eq_refl) as (Hrun & Hn & _).
  change (S754_zero false) with F64.zero in Hrun.
  rewrite Hrun. exact Hn.
Defined.

(** * Steps with forces *)

Section StepFacts.
Context {W : Type}.
Implicit Types (st : state W) (e : Ensemble.t) (a b f m : ndarray).

Lemma same_frame_refl e : same_frame e e.
Proof. by repeat split. Qed.

Lemma same_frame_trans e1 e2 e3 :
  same_frame e1 e2 -> same_frame e2 e3 -> same_frame e1 e3.
Proof.
  intros (Hx & Hv & He & Hp) (Hx' & Hv' & He' & Hp').
  repeat split; congruence.
Qed.

Lemma keeps_frame_ret {A} (y : A) : keeps_frame (mret y : M W A).
Proof. intros st. apply same_frame_refl. Qed.

Lemma keeps_frame_lift {A} (r : result A) : keeps_frame (lift r : M W A).
Proof. intros st. apply same_frame_refl. Qed.

Lemma keeps_frame_get_ens : keeps_frame (get_ens : M W Ensemble.t).
Proof. intros st. apply same_frame_refl. Qed.

Lemma keeps_frame_bind {A B} (c : M W A) (k : A -> M W B) :
  keeps_frame c -> (forall y, keeps_frame (k y)) -> keeps_frame (c ≫= k).
Proof.
  intros Hc Hk st. unfold mbind, M_bind. specialize (Hc st).
  destruct (c st) as [[y|ex] st1]; [|done].
  exact (same_frame_trans _ _ _ Hc (Hk y st1)).
Qed.

(** An in-place operation keeps the shape of its target. *)
Lemma np_iop_shape op a b r : np_iop op a b = Ok r -> shape r = shape a.
Proof.
  unfold np_iop. destruct (broadcast_shapes (shape a) (shape b)); [|done].
  case_decide; [|done]. by intros [= <-].
Qed.

Lemma keeps_frame_drift c : keeps_frame (drift c : M W unit).
Proof.
  intros st. unfold drift. unfold_monad.
  destruct (np_iop F64.add (Ensemble.x (ens st))
              (np_map (F64.mul c) (Ensemble.v (ens st)))) as [x'|ex] eqn:Hx;
    [|apply same_frame_refl].
  apply np_iop_shape in Hx. by repeat split.
Qed.

Lemma keeps_frame_kick f m : keeps_frame (kick f m : M W unit).
Proof.
  intros st. unfold kick. unfold_monad.
  destruct (np_binop F64.div f m) as [q|ex]; [|apply same_frame_refl].
  destruct (np_iop F64.add (Ensemble.v (ens st)) q) as [v'|ex] eqn:Hv;
    [|apply same_frame_refl].
  apply np_iop_shape in Hv. by repeat split.
Qed.

(** Forces that only read the ensemble leave it as it was. *)
Lemma apply_forces_ens dt (forces : list (Force.t W)) i f st :
  Forall force_leaves_ensemble forces ->
  ens (apply_forces dt i forces f st).2 = ens st.
Proof.
  intros Hall. revert i f st.
  induction Hall as [|force forces Hforce _ IH]; intros i f st; [done|].
  simpl. unfold mbind, M_bind, call_force.
  specialize (Hforce dt (ens st) f (world st)).
  destruct (Force.force force dt (ens st) f (world st)) as [[[f'|ex] e'] w];
    simpl in Hforce; subst e'; [|done].
  by rewrite IH.
Qed.

Lemma keeps_frame_apply_forces dt (forces : list (Force.t W)) i f :
  Forall force_keeps_frame forces ->
  keeps_frame (apply_forces dt i forces f).
Proof.
  intros Hall. revert i f.
  induction Hall as [|force forces Hforce _ IH]; intros i f st;
    [apply same_frame_refl|].
  simpl. unfold mbind, M_bind, call_force.
  specialize (Hforce dt (ens st) f (world st)).
  destruct (Force.force force dt (ens st) f (world st)) as [[[f'|ex] e'] w];
    simpl in Hforce; [|exact Hforce].
  exact (same_frame_trans _ _ _ Hforce
           (IH (S i) f' (State e' w (calls st ++ [Call_force i dt])))).
Qed.

Lemma keeps_frame_drift_kick dt (forces : list (Force.t W)) :
  Forall force_keeps_frame forces ->
  keeps_frame (drift_kick dt forces None).
Proof.
  intros Hall. unfold drift_kick. case_decide.
  - apply keeps_frame_bind; [apply keeps_frame_ret|].
    intros _. apply keeps_frame_drift.
  - apply keeps_frame_bind; [apply keeps_frame_ret|]. intros _.
    apply keeps_frame_bind; [apply keeps_frame_drift|]. intros _.
    apply keeps_frame_bind; [apply keeps_frame_get_ens|]. intros e.
    apply keeps_frame_bind; [by apply keeps_frame_apply_forces|]. intros f.
    apply keeps_frame_bind; [apply keeps_frame_get_ens|]. intros e'.
    apply keeps_frame_bind; [apply keeps_frame_lift|]. intros m.
    apply keeps_frame_bind; [apply keeps_frame_kick|]. intros _.
    apply keeps_frame_bind; [apply keeps_frame_ret|]. intros _.
    apply keeps_frame_drift.
Qed.

(** The half drift of an ensemble whose positions and velocities have one
    shape. *)
Lemma drift_run c st :
  Ensemble.aligned (ens st) ->
  drift c st
  = (Ok tt,
     State
       {| Ensemble.x :=
            NDArray (shape (Ensemble.x (ens st)))
              (drift_data c (data (Ensemble.x (ens st)))
                 (data (Ensemble.v (ens st))));
          Ensemble.v := Ensemble.v (ens st);
          Ensemble.ensemble_properties := Ensemble.ensemble_properties (ens st);
          Ensemble.particle_properties := Ensemble.particle_properties (ens st) |}
       (world st) (calls st)).
Proof.
  intros (Hs & Wx & Wv). destruct st as [e w cs]. simpl in *.
  unfold drift. unfold_monad. simpl.
  rewrite np_iop_same; [|done|done|by apply np_map_wf].
  simpl. unfold drift_data. by rewrite zip_with_fmap_r.
Qed.

(** Once the forces have run, the step goes on from the mass lookup. *)
Lemma drift_kick_forces_run dt (forces : list (Force.t W)) sink st st1 f :
  forces <> [] ->
  before_mass_lookup dt forces sink st = (Ok f, st1) ->
  drift_kick dt forces sink st
  = (e ← get_ens; m ← lift (resolve_mass e); after_mass_lookup dt sink f m) st1.
Proof.
  intros Hforces Hpre.
  unfold drift_kick. rewrite decide_False by (by destruct forces).
  revert Hpre. unfold before_mass_lookup, after_mass_lookup.
  unfold mbind, M_bind.
  destruct (process_sink (F64.mul F64.half dt) sink st) as [[[]|ex] st2];
    [|done].
  destruct (drift (F64.mul F64.half dt) st2) as [[[]|ex] st3]; [|done].
  unfold get_ens.
  destruct (apply_forces dt 0 forces (np_zeros_like (Ensemble.v (ens st3))) st3)
    as [[f'|ex] st4]; [|done].
  by intros [= -> ->].
Qed.

(** Division by a 0-d array divides every element by its one value. *)
Lemma np_binop_scalar op a (c : float64) :
  wf_array a ->
  np_binop op a (NDArray [] [c])
  = Ok (NDArray (shape a) ((fun y => op y c) <$> data a)).
Proof.
  intros Wa. unfold np_binop, broadcast_shapes. cbn [shape].
  change (reverse []) with (@nil nat).
  assert (Hb : broadcast_rev (reverse (shape a)) [] = Some (reverse (shape a)))
    by (by destruct (reverse (shape a))).
  rewrite Hb. simpl. rewrite reverse_involutive. do 2 f_equal.
  unfold wf_array in Wa. apply list_eq. intros k. unfold broadcast_data.
  rewrite !list_lookup_fmap. cbn [shape].
  destruct (decide (k < size_of (shape a))) as [Hk|Hk].
  - rewrite lookup_seq_lt by done. simpl.
    rewrite bcast_index_same by (by rewrite size_of_reverse).
    rewrite Nat.mul_1_r.
    destruct (lookup_lt_is_Some_2 (data a) k) as [y Hy]; [lia|].
    rewrite (get_lookup a k y Hy), Hy. simpl. f_equal. f_equal.
    by destruct (reverse (shape a)).
  - rewrite lookup_seq_ge by lia. simpl.
    by rewrite (lookup_ge_None_2 (data a)) by lia.
Qed.

(** The velocity update with a scalar mass. *)
Lemma kick_scalar f (c : float64) st :
  shape f = shape (Ensemble.v (ens st)) -> wf_array f ->
  wf_array (Ensemble.v (ens st)) ->
  kick f (NDArray [] [c]) st
  = (Ok tt,
     State
       {| Ensemble.x := Ensemble.x (ens st);
          Ensemble.v :=
            NDArray (shape (Ensemble.v (ens st)))
              (kick_data c (data (Ensemble.v (ens st))) (data f));
          Ensemble.ensemble_properties := Ensemble.ensemble_properties (ens st);
          Ensemble.particle_properties := Ensemble.particle_properties (ens st) |}
       (world st) (calls st)).
Proof.
  intros Hs Wf Wv. destruct st as [e w cs]. simpl in *.
  unfold kick. unfold_monad. simpl.
  rewrite (np_binop_scalar F64.div f c Wf). simpl.
  rewrite np_iop_same;
    [|done|done|unfold wf_array; simpl; by rewrite length_fmap].
  simpl. unfold kick_data. by rewrite zip_with_fmap_r.
Qed.

(** The step from the mass lookup on, with a scalar mass, in terms of
    the ensemble the forces left. *)
Lemma scalar_mass_run dt (forces : list (Force.t W)) st st1 f (c : float64) :
  forces <> [] ->
  before_mass_lookup dt forces None st = (Ok f, st1) ->
  Ensemble.aligned (ens st1) ->
  Ensemble.ensemble_properties (ens st1) !! "mass" = Some (NDArray [] [c]) ->
  shape f = shape (Ensemble.v (ens st1)) -> wf_array f ->
  drift_kick dt forces None st
  = (Ok tt,
     State
       {| Ensemble.x :=
            NDArray (shape (Ensemble.x (ens st1)))
              (drift_data (F64.mul F64.half dt) (data (Ensemble.x (ens st1)))
                 (kick_data c (data (Ensemble.v (ens st1))) (data f)));
          Ensemble.v :=
            NDArray (shape (Ensemble.v (ens st1)))
              (kick_data c (data (Ensemble.v (ens st1))) (data f));
          Ensemble.ensemble_properties := Ensemble.ensemble_properties (ens st1);
          Ensemble.particle_properties := Ensemble.particle_properties (ens st1) |}
       (world st1) (calls st1)).
Proof.
  intros Hforces Hpre Hal Hmass Hf Wf.
  rewrite (drift_kick_forces_run dt forces None st st1 f Hforces Hpre).
  destruct Hal as (Hs & Wx & Wv). destruct st1 as [e1 w1 cs1].
  cbn [ens world calls] in *.
  unfold mbind at 1. unfold M_bind at 1. unfold get_ens. cbn [ens].
  unfold resolve_mass. rewrite Hmass.
  unfold_monad. unfold after_mass_lookup.
  unfold mbind at 1. unfold M_bind at 1.
  rewrite kick_scalar; [|done|done|done]. cbn [ens world calls Ensemble.x Ensemble.v
    Ensemble.ensemble_properties Ensemble.particle_properties].
  unfold mbind at 1. unfold M_bind at 1. rewrite process_sink_None.
  rewrite drift_run; [done|].
  unfold wf_array in *. unfold Ensemble.aligned, wf_array, kick_data.
  cbn [ens Ensemble.x Ensemble.v shape data].
  rewrite !length_zip_with. rewrite Hs in *. rewrite Hf in Wf. repeat split; lia.
Qed.

(** With forces that only read the ensemble, the accumulation starts
    from, and leaves, the ensemble of the first half drift. *)
Lemma before_mass_lookup_ens dt (forces : list (Force.t W)) st st1 f :
  Forall force_leaves_ensemble forces ->
  Ensemble.aligned (ens st) ->
  before_mass_lookup dt forces None st = (Ok f, st1) ->
  ens st1
  = {| Ensemble.x :=
         NDArray (shape (Ensemble.x (ens st)))
           (drift_data (F64.mul F64.half dt) (data (Ensemble.x (ens st)))
              (data (Ensemble.v (ens st))));
       Ensemble.v := Ensemble.v (ens st);
       Ensemble.ensemble_properties := Ensemble.ensemble_properties (ens st);
       Ensemble.particle_properties := Ensemble.particle_properties (ens st) |}.
Proof.
  intros Hall Hal. unfold before_mass_lookup.
  unfold mbind at 1. unfold M_bind at 1. rewrite process_sink_None.
  unfold mbind at 1. unfold M_bind at 1. rewrite (drift_run _ st Hal).
  unfold mbind, M_bind, get_ens. cbn [ens].
  intros Hrun.
  match type of Hrun with
  | apply_forces ?d ?i ?fs ?f0 ?s = _ =>
      pose proof (apply_forces_ens d fs i f0 s Hall) as He; rewrite Hrun in He
  end.
  exact He.
Qed.

End StepFacts.

(** X10.  Without a sink, [drift_kick] itself never changes the number of
    particles or the properties: when every force keeps, of the ensemble
    it is handed, the shapes of positions and velocities and both
    property maps (it may change positions, velocities and the world, and
    may raise), then whether the call returns or raises, positions and
    velocities keep their shapes and both property maps hold what they
    held. *)
Theorem drift_kick_no_sink_frame {W} (dt : float64) (forces : list (Force.t W))
    (st : state W) :
  Forall force_keeps_frame forces ->
  same_frame (ens st) (ens (drift_kick dt forces None st).2)
  /\ Ensemble.get_num_ptcls (ens (drift_kick dt forces None st).2)
     = Ensemble.get_num_ptcls (ens st).
Proof.
  intros Hall.
  pose proof (keeps_frame_drift_kick dt forces Hall st) as Hf.
  split; [exact Hf|]. destruct Hf as (Hx & _).
  unfold Ensemble.get_num_ptcls, shape0. by rewrite Hx.
Qed.

(** X10 at work: a force that pushes and one that raises, on one
    particle. *)
Lemma drift_kick_no_sink_frame_witness :
  Ensemble.get_num_ptcls
    (ens (drift_kick F64.one [unit_push; failing_force] None
            (State ptcl_with_two_masses tt [])).2)
  = Ok 1.
Proof.
  assert (Hall : Forall force_keeps_frame [unit_push; failing_force])
    by (repeat constructor).
  exact (proj2 (drift_kick_no_sink_frame F64.one [unit_push; failing_force]
                  (State ptcl_with_two_masses tt []) Hall)).
Defined.

(** The condition on the forces is needed: a force that removes a
    particle is not undone by the step. *)
Lemma removing_force_changes_count :
  ~ force_keeps_frame removing_force
  /\ Ensemble.get_num_ptcls
       (ens (drift_kick F64.one [removing_force] None
               (State (Ensemble.init 2) tt [])).2)
     = Ok 1.
Proof.
  split; [|vm_compute; reflexivity].
  intros Hkeep.
  by destruct (Hkeep F64.one (Ensemble.init 2) (np_zeros [2; 3]) tt) as [? _].
Qed.

(** X11.  A step with forces, no sink and a scalar ensemble-wide mass [c],
    when the forces leave an accumulator [f] of the shape of the
    velocities: with [h = 0.5 * dt], the new velocity is [v + f / c] and
    the new position is [x + h * (v + f / c)] for the positions [x] and
    velocities [v] that the forces left, element by element and each
    operation rounded.  With forces that only read the ensemble these are
    the old velocity and the position after the first half drift, so the
    new position is [(x + h * v) + h * (v + f / c)]: the half drift
    before the forces uses the old velocity, the one after them the
    new. *)
Theorem drift_kick_scalar_mass {W} (dt : float64) (forces : list (Force.t W))
    (st st1 : state W) (f : ndarray) (c : float64) :
  forces <> [] ->
  before_mass_lookup dt forces None st = (Ok f, st1) ->
  wf_array f ->
  (Ensemble.aligned (ens st1) ->
   Ensemble.ensemble_properties (ens st1) !! "mass" = Some (NDArray [] [c]) ->
   shape f = shape (Ensemble.v (ens st1)) ->
   drift_kick dt forces None st
   = (Ok tt,
      State
        {| Ensemble.x :=
             NDArray (shape (Ensemble.x (ens st1)))
               (drift_data (F64.mul F64.half dt) (data (Ensemble.x (ens st1)))
                  (kick_data c (data (Ensemble.v (ens st1))) (data f)));
           Ensemble.v :=
             NDArray (shape (Ensemble.v (ens st1)))
               (kick_data c (data (Ensemble.v (ens st1))) (data f));
           Ensemble.ensemble_properties :=
             Ensemble.ensemble_properties (ens st1);
           Ensemble.particle_properties :=
             Ensemble.particle_properties (ens st1) |}
        (world st1) (calls st1)))
  /\ (Forall force_leaves_ensemble forces ->
      Ensemble.aligned (ens st) ->
      Ensemble.ensemble_properties (ens st) !! "mass" = Some (NDArray [] [c]) ->
      shape f = shape (Ensemble.v (ens st)) ->
      drift_kick dt forces None st
      = (Ok tt,
         State
           {| Ensemble.x :=
                NDArray (shape (Ensemble.x (ens st)))
                  (drift_data (F64.mul F64.half dt)
                     (drift_data (F64.mul F64.half dt)
                        (data (Ensemble.x (ens st)))
                        (data (Ensemble.v (ens st))))
                     (kick_data c (data (Ensemble.v (ens st))) (data f)));
              Ensemble.v :=
                NDArray (shape (Ensemble.v (ens st)))
                  (kick_data c (data (Ensemble.v (ens st))) (data f));
              Ensemble.ensemble_properties :=
                Ensemble.ensemble_properties (ens st);
              Ensemble.particle_properties :=
                Ensemble.particle_properties (ens st) |}
           (world st1) (calls st1))).
Proof.
  intros Hforces Hpre Wf. split.
  { intros Hal Hmass Hf. by apply scalar_mass_run. }
  intros Hall Hal Hmass Hf.
  pose proof (before_mass_lookup_ens dt forces st st1 f Hall Hal Hpre) as Hens.
  rewrite (scalar_mass_run dt forces st st1 f c Hforces Hpre).
  - by rewrite Hens.
  - rewrite Hens. destruct Hal as (Hs & Wx & Wv).
    unfold Ensemble.aligned, wf_array in *. unfold drift_data.
    cbn [Ensemble.x Ensemble.v shape data].
    rewrite length_zip_with, length_fmap || rewrite length_zip_with.
    rewrite Hs in *. repeat split; lia.
  - by rewrite Hens.
  - by rewrite Hens.
  - done.
Qed.

(** X11 at work: one particle at rest with mass 2, pushed by 1 in every
    component over [dt = 1]: the velocity becomes 1/2, the position
    1/4. *)
Lemma drift_kick_scalar_mass_witness :
  ens (drift_kick F64.one [unit_push] None (State ptcl_with_two_masses tt [])).2
  = {| Ensemble.x :=
         NDArray [1; 3] [F64.of_Z_pow2 1 (-2); F64.of_Z_pow2 1 (-2);
                         F64.of_Z_pow2 1 (-2)];
       Ensemble.v := NDArray [1; 3] [F64.half; F64.half; F64.half];
       Ensemble.ensemble_properties :=
         Ensemble.ensemble_properties ptcl_with_two_masses;
       Ensemble.particle_properties :=
         Ensemble.particle_properties ptcl_with_two_masses |}.
Proof.
  assert (Hf : [unit_push] <> []) by done.
  assert (Hal : Ensemble.aligned ptcl_with_two_masses)
    by (repeat split; reflexivity).
  assert (Hall : Forall force_leaves_ensemble [unit_push])
    by (repeat constructor).
  rewrite (proj2 (drift_kick_scalar_mass F64.one [unit_push]
                    (State ptcl_with_two_masses tt [])
                    (State ptcl_with_two_masses tt [Call_force 0 F64.one])
                    (NDArray [1; 3] [F64.one; F64.one; F64.one]) (F64.of_Z 2)
                    Hf ltac:(vm_compute; reflexivity) eq_refl)
             Hall Hal eq_refl eq_refl).
  vm_compute. reflexivity.
Defined.

(** ** Per-particle masses *)

Section MassFacts.
Context {W : Type}.
Implicit Types (st : state W) (f m : ndarray).

(** A matrix of [n] rows of three and a vector of [n] entries go together
    only when [n] is 1 or 3. *)
Lemma broadcast_shapes_n3_n n :
  n <> 1 -> n <> 3 -> broadcast_shapes [n; 3] [n] = None.
Proof.
  intros H1 H3. unfold broadcast_shapes.
  change (reverse [n; 3]) with [3; n]. change (reverse [n]) with [n].
  cbn [broadcast_rev]. rewrite decide_False by done.
  rewrite (decide_False (P := 3 = 1)) by done.
  by rewrite decide_False by done.
Qed.

Lemma kick_vector_mass f m st n :
  shape f = [n; 3] -> shape m = [n] -> n <> 1 -> n <> 3 ->
  kick f m st = (Raise broadcast_error, st).
Proof.
  intros Hf Hm H1 H3. unfold kick. unfold_monad.
  unfold np_binop. by rewrite Hf, Hm, broadcast_shapes_n3_n.
Qed.

End MassFacts.

(** X12.  A per-particle mass stored as a vector of [n] entries does not
    divide an accumulator of [n] rows of three: unless [n] is 1 or 3,
    [f / m] cannot be broadcast and [drift_kick] raises the [ValueError]
    of NumPy, in the state the forces left (the first half drift is
    done, the velocity update is not). *)
Theorem drift_kick_vector_mass {W} (dt : float64) (forces : list (Force.t W))
    (sink : option (Sink.t W)) (st st1 : state W) (f m : ndarray) (n : nat) :
  forces <> [] ->
  before_mass_lookup dt forces sink st = (Ok f, st1) ->
  Ensemble.ensemble_properties (ens st1) !! "mass" = None ->
  Ensemble.particle_properties (ens st1) !! "mass" = Some m ->
  shape f = [n; 3] -> shape m = [n] -> n <> 1 -> n <> 3 ->
  drift_kick dt forces sink st
  = (Raise (ValueError "operands could not be broadcast together"), st1).
Proof.
  intros Hforces Hpre He Hp Hf Hm H1 H3.
  rewrite (drift_kick_forces_run dt forces sink st st1 f Hforces Hpre).
  unfold mbind at 1. unfold M_bind at 1. unfold get_ens.
  unfold resolve_mass. rewrite He, Hp. unfold_monad.
  unfold after_mass_lookup. unfold mbind at 1. unfold M_bind at 1.
  by rewrite (kick_vector_mass f m st1 n Hf Hm H1 H3).
Qed.

(** X12 at work: two particles with the masses [1, 2]. *)
Lemma drift_kick_vector_mass_witness :
  (drift_kick F64.one [unit_push] None (State two_ptcls_vector_mass tt [])).1
  = Raise (ValueError "operands could not be broadcast together").
Proof.
  assert (Hf : [unit_push] <> []) by done.
  by rewrite (drift_kick_vector_mass F64.one [unit_push] None
                (State two_ptcls_vector_mass tt [])
                (State two_ptcls_vector_mass tt [Call_force 0 F64.one])
                (NDArray [2; 3] (replicate 6 F64.one))
                (NDArray [2] [F64.one; F64.two]) 2
                Hf ltac:(vm_compute; reflexivity) eq_refl eq_refl eq_refl
                eq_refl ltac:(lia) ltac:(lia)).
Defined.

(** X13.  The velocity update [v += f / m] with a per-particle mass
    stored as a column of [n] rows: every component [j] of particle [i]
    gains [f[i, j] / m[i]]; positions, properties, the world and the
    trace of calls are as they were. *)
Theorem kick_column_mass {W} (f m : ndarray) (st : state W) (n : nat) :
  shape (Ensemble.v (ens st)) = [n; 3] -> wf_array (Ensemble.v (ens st)) ->
  shape f = [n; 3] -> wf_array f ->
  shape m = [n; 1] ->
  exists v',
    kick f m st
    = (Ok tt,
       State
         {| Ensemble.x := Ensemble.x (ens st);
            Ensemble.v := v';
            Ensemble.ensemble_properties :=
              Ensemble.ensemble_properties (ens st);
            Ensemble.particle_properties :=
              Ensemble.particle_properties (ens st) |}
         (world st) (calls st))
    /\ shape v' = [n; 3]
    /\ forall i j, i < n -> j < 3 ->
         get v' (i * 3 + j)
         = F64.add (get (Ensemble.v (ens st)) (i * 3 + j))
             (F64.div (get f (i * 3 + j)) (get m i)).
Proof.
  intros Hv Wv Hf Wf Hm. destruct st as [e w cs]. cbn [ens world calls] in *.
  unfold kick. unfold_monad. cbn [ens world calls].
  unfold np_binop. rewrite Hf, Hm, broadcast_shapes_n3_n1.
  rewrite np_iop_same; [|by rewrite Hv|done|apply broadcast_data_wf].
  eexists. split; [reflexivity|]. split; [by rewrite Hv|].
  intros i j Hi Hj.
  assert (Hk : i * 3 + j < n * 3) by lia.
  assert (Hsz : size_of [n; 3] = n * 3) by (simpl; lia).
  unfold wf_array in Wv, Wf. rewrite Hv in Wv. rewrite Hf in Wf.
  rewrite Hsz in Wv, Wf.
  rewrite (get_zip_with F64.add _ (shape (Ensemble.v e)) [n; 3]);
    [|lia|cbn [data]; unfold broadcast_data;
          rewrite length_fmap, length_seq; lia].
  destruct (Ensemble.v e) as [sv dv]. f_equal. cbn [data].
  rewrite get_broadcast_data by (rewrite Hsz; lia).
  rewrite Hf, Hm.
  change (reverse [n; 3]) with [3; n]. change (reverse [n; 1]) with [1; n].
  by rewrite bcast_index_n3_n3, bcast_index_n3_n1 by done.
Qed.

(** X13 at work: the masses 2 and 4 under the pushes 1 and 2 both give a
    velocity of 1/2. *)
Lemma kick_column_mass_witness :
  exists v',
    Ensemble.v
      (ens (kick one_and_two (NDArray [2; 1] [F64.of_Z 2; F64.of_Z 4])
              (State two_ptcls_column_mass tt [])).2) = v'
    /\ get v' (0 * 3 + 1) = F64.half /\ get v' (1 * 3 + 2) = F64.half.
Proof.
  destruct (kick_column_mass one_and_two
              (NDArray [2; 1] [F64.of_Z 2; F64.of_Z 4])
              (State two_ptcls_column_mass tt []) 2
              eq_refl eq_refl eq_refl eq_refl eq_refl)
    as (v' & Hrun & _ & Hget).
  exists v'. split; [by rewrite Hrun|].
  split; [rewrite (Hget 0 1) by lia|rewrite (Hget 1 2) by lia];
    vm_compute; reflexivity.
Defined.

(** ** Sources of the base class *)

Section BaseSourceFacts.
Context {W : Type}.

Lemma query_once_base dt k (w : W) :
  query_once dt (replicate k (Source.base W)) w = (replicate k 0, w).
Proof.
  induction k as [|k IH]; [done|]. simpl. by rewrite IH.
Qed.

Lemma sum_list_zeros k : sum_list (replicate k 0) = 0.
Proof. induction k as [|k IH]; [done|]. simpl. by rewrite IH. Qed.

Lemma fill_in_order_base dt k start (ew : Ensemble.t * W) :
  fill_in_order dt (replicate k (Source.base W)) (replicate k 0) start ew = ew.
Proof.
  revert start ew. induction k as [|k IH]; intros start [e w]; [done|].
  simpl. by rewrite IH.
Qed.

Lemma ndarray_resize_same a n rest :
  shape a = n :: rest -> wf_array a -> ndarray_resize a (n :: rest) = a.
Proof.
  intros Hs Wa. unfold ndarray_resize. unfold wf_array in Wa.
  rewrite Hs in Wa. rewrite <- Wa, resize_all. destruct a. simpl in *.
  by rewrite Hs.
Qed.

End BaseSourceFacts.

(** X14.  Sources of the base class produce nothing: with any number of
    them, on an ensemble of [n] particles, [produce_ptcls] returns
    normally, asks each for its count (zero), resizes to [n] and hands
    every source the empty slice from [n] to [n]; positions, velocities,
    the number of particles and the world are as they were. *)
Theorem base_sources_produce_nothing {W} (dt : float64) (k : nat)
    (st : state W) (n : nat) (rest : list nat) :
  shape (Ensemble.x (ens st)) = n :: rest -> Ensemble.aligned (ens st) ->
  exists e',
    produce_ptcls dt (replicate k (Source.base W)) st
    = (Ok tt,
       State e' (world st)
         (calls st
          ++ imap (fun i _ => Call_num_ptcls_produced i dt 0) (replicate k 0)
          ++ [Call_resize n]
          ++ imap (fun i _ => Call_produce_ptcls i dt n n) (replicate k 0)))
    /\ Ensemble.x e' = Ensemble.x (ens st)
    /\ Ensemble.v e' = Ensemble.v (ens st)
    /\ Ensemble.get_num_ptcls e' = Ok n.
Proof.
  intros Hx (Hs & Wx & Wv). destruct st as [e w cs]. cbn [ens world calls] in *.
  unfold produce_ptcls.
  unfold mbind at 1. unfold M_bind at 1. rewrite query_sources_once.
  cbn [ens world calls]. rewrite query_once_base. cbn [fst snd].
  rewrite sum_list_zeros.
  unfold num_ptcls, ens_resize. unfold_monad. cbn [ens world calls].
  unfold Ensemble.get_num_ptcls, shape0. rewrite Hx.
  unfold Ensemble.resize. rewrite Hx. cbn [ens world calls].
  rewrite (fill_sources_in_order dt _ 0 [] (replicate k 0) n);
    [|done|by rewrite !length_replicate].
  cbn [ens world calls]. rewrite fill_in_order_base. cbn [fst snd].
  rewrite !Nat.add_0_r.
  rewrite (ndarray_resize_same (Ensemble.x e) n rest Hx Wx).
  rewrite (ndarray_resize_same (Ensemble.v e) n rest); [|by rewrite <- Hs|done].
  exists {| Ensemble.x := Ensemble.x e; Ensemble.v := Ensemble.v e;
            Ensemble.ensemble_properties := Ensemble.ensemble_properties e;
            Ensemble.particle_properties :=
              (fun prop => ndarray_resize prop [n])
                <$> Ensemble.particle_properties e |}.
  split; [|split; [reflexivity|split; [reflexivity|]]].
  2:{ unfold Ensemble.get_num_ptcls, shape0. cbn [Ensemble.x]. by rewrite Hx. }
  rewrite <- !app_assoc. do 4 f_equal.
  - apply imap_ext. intros i y Hy. by apply lookup_replicate in Hy as [-> _].
  - f_equal. apply imap_ext. intros i y Hy.
    apply lookup_replicate in Hy as [-> Hi].
    unfold slice_start. rewrite take_replicate, sum_list_zeros. simpl.
    f_equal; lia.
Qed.

(** X14 at work: two base sources and three particles. *)
Lemma base_sources_produce_nothing_witness :
  exists e',
    ens (produce_ptcls F64.one [Source.base unit; Source.base unit]
           (State (Ensemble.init 3) tt [])).2 = e'
    /\ Ensemble.x e' = Ensemble.x (Ensemble.init 3)
    /\ Ensemble.get_num_ptcls e' = Ok 3.
Proof.
  assert (Hal : Ensemble.aligned (Ensemble.init 3)) by (repeat split; reflexivity).
  destruct (base_sources_produce_nothing F64.one 2
              (State (Ensemble.init 3) tt []) 3 [3] eq_refl Hal)
    as (e' & Hrun & Hx & _ & Hn).
  exists e'. split; [|by split].
  change (replicate 2 (Source.base unit))
    with [Source.base unit; Source.base unit] in Hrun.
  by rewrite Hrun.
Defined.

(** ** New particles *)

(** The entries a growing [resize] adds are zero. *)
Lemma row_resize_new (a : ndarray) (n m i : nat) (rest : list nat) :
  shape a = n :: rest -> wf_array a -> n <= i -> i < m ->
  row (ndarray_resize a (m :: rest)) i = replicate (size_of rest) F64.zero.
Proof.
  intros Hs Hwf Hn Hm. unfold row, stride, ndarray_resize. simpl.
  fold (size_of rest). unfold wf_array in Hwf. rewrite Hs, size_of_cons in Hwf.
  apply list_eq. intros k.
  destruct (decide (k < size_of rest)) as [Hk|Hk].
  - rewrite lookup_take_lt, lookup_drop by done.
    rewrite lookup_resize_new by nia.
    by rewrite lookup_replicate_2.
  - rewrite lookup_take_ge by lia.
    symmetry. apply lookup_replicate_None. lia.
Qed.

(** X15.  The particles that a growing [resize(m)] adds to an ensemble of
    [n] start at rest at the origin: for every index from [n] up to
    [m - 1] the position and the velocity are zero in every component,
    and a one-dimensional property array holds zero there. *)
Theorem resize_new_particles_zero (e e' : Ensemble.t) (n m : nat)
    (rest : list nat) :
  shape (Ensemble.x e) = n :: rest -> shape (Ensemble.v e) = n :: rest ->
  wf_array (Ensemble.x e) -> wf_array (Ensemble.v e) ->
  Ensemble.resize m e = Ok e' ->
  (forall i, n <= i -> i < m ->
     row (Ensemble.x e') i = replicate (size_of rest) F64.zero
     /\ row (Ensemble.v e') i = replicate (size_of rest) F64.zero)
  /\ (forall key p,
        Ensemble.particle_properties e !! key = Some p ->
        shape p = [n] -> wf_array p ->
        exists p',
          Ensemble.particle_properties e' !! key = Some p'
          /\ forall i, n <= i -> i < m -> data p' !! i = Some F64.zero).
Proof.
  intros Hx Hv Wx Wv. unfold Ensemble.resize. rewrite Hx. intros [= <-].
  simpl. split.
  { intros i Hn Hm. split; by apply (row_resize_new _ n). }
  intros key p Hp Hs Wp. eexists. rewrite lookup_fmap, Hp. simpl.
  split; [reflexivity|]. intros i Hn Hm.
  unfold wf_array in Wp. rewrite Hs in Wp. simpl in Wp.
  unfold ndarray_resize. simpl. apply lookup_resize_new; lia.
Qed.

(** X15 at work: one particle moved to (1, 2, 3), then a second one
    added. *)
Lemma resize_new_particles_zero_witness :
  exists e',
    Ensemble.resize 2 one_moving_ptcl = Ok e'
    /\ row (Ensemble.x e') 1 = [F64.zero; F64.zero; F64.zero]
    /\ row (Ensemble.v e') 1 = [F64.zero; F64.zero; F64.zero].
Proof.
  eexists. split; [reflexivity|].
  destruct (resize_new_particles_zero one_moving_ptcl _ 1 2 [3]
              eq_refl eq_refl eq_refl eq_refl eq_refl) as (Hrows & _).
  apply (Hrows 1); lia.
Defined.

(** ** What a sink leaves *)

(** X16.  With a sink that inherits [record_absorption] from the base
    class (as [SinkPlane] does) and gives one absorption time per
    particle, [process_sink] leaves the world and the properties as they
    were, and leaves exactly the particles that fail the test, in their
    order: particle [k] of the ensemble after the call has the position
    and the velocity of the [k]-th particle not absorbed.  The call
    returns normally when the ensemble has no per-particle property; when
    it has one, it ends in the [AxisError] of [Ensemble.delete], with
    positions and velocities reduced all the same. *)
Theorem process_sink_keeps_the_rest {W} (dt : float64) (sink : Sink.t W)
    (st : state W) (n : nat) (rest : list nat) (times : ndarray) :
  shape (Ensemble.x (ens st)) = n :: rest ->
  shape (Ensemble.v (ens st)) = n :: rest ->
  wf_array (Ensemble.x (ens st)) -> wf_array (Ensemble.v (ens st)) ->
  Sink.record_absorption sink = Sink.base_record_absorption ->
  Sink.find_absorption_time sink (Ensemble.x (ens st)) (Ensemble.v (ens st)) dt
  = Ok times ->
  shape times = [n] ->
  exists indices,
    (process_sink dt (Some sink) st).1
    = (if decide (Ensemble.particle_properties (ens st) = ∅)
       then Ok tt
       else Raise (AxisError "axis 0 is out of bounds for array of dimension 0"))
    /\ world (process_sink dt (Some sink) st).2 = world st
    /\ ens (process_sink dt (Some sink) st).2
       = (Ensemble.delete indices (ens st)).2
    /\ (forall i, i ∈ indices
          <-> i < n /\ exists tau, data times !! i = Some tau
                                   /\ absorbed dt tau = true)
    /\ Ensemble.get_num_ptcls (ens (process_sink dt (Some sink) st).2)
       = Ok (length (survivors n indices))
    /\ Ensemble.particle_properties (ens (process_sink dt (Some sink) st).2)
       = Ensemble.particle_properties (ens st)
    /\ (forall k i, survivors n indices !! k = Some i ->
          (i ∉ indices)
          /\ row (Ensemble.x (ens (process_sink dt (Some sink) st).2)) k
             = row (Ensemble.x (ens st)) i
          /\ row (Ensemble.v (ens (process_sink dt (Some sink) st).2)) k
             = row (Ensemble.v (ens st)) i).
Proof.
  intros Hx Hv Wx Wv Hrec Ht Hs.
  rewrite (process_sink_Some dt sink st n rest times Hx Ht Hs).
  rewrite Hrec. cbn zeta. unfold Sink.base_record_absorption. cbn [fst snd ens world].
  exists (filter (fun i => (absorbed dt <$> data times) !! i = Some true)
            (seq 0 n)).
  rewrite (delete_in_bounds (ens st) n rest rest _ Hx Hv
             (selected_in_bounds dt (data times) n)).
  cbn [fst snd Ensemble.x Ensemble.v Ensemble.particle_properties].
  split; [reflexivity|]. split; [reflexivity|].
  split; [reflexivity|]. split; [apply elem_of_selected|].
  split.
  { unfold Ensemble.get_num_ptcls, shape0, kept_rows. cbn [Ensemble.x shape].
    reflexivity. }
  split; [reflexivity|].
  intros k i Hk. split.
  { apply list_elem_of_lookup_2 in Hk. unfold survivors in Hk.
    by apply list_elem_of_filter in Hk as [Hk _]. }
  split; by apply (row_delete _ n rest).
Qed.

(** X16 at work: of a falling and a gliding particle the plane takes the
    first; the second is particle 0 afterwards. *)
Lemma process_sink_keeps_the_rest_witness :
  exists indices,
    ens (process_sink F64.one
           (Some (SinkPlane.as_sink (N := sequential) unit plane_z0))
           (State falling_and_gliding tt [])).2
    = (Ensemble.delete indices falling_and_gliding).2
    /\ (0 ∈ indices)
    /\ Ensemble.get_num_ptcls
         (ens (process_sink F64.one
                 (Some (SinkPlane.as_sink (N := sequential) unit plane_z0))
                 (State falling_and_gliding tt [])).2)
       = Ok (length (survivors 2 indices)).
Proof.
  destruct (process_sink_keeps_the_rest F64.one
              (SinkPlane.as_sink (N := sequential) unit plane_z0)
              (State falling_and_gliding tt [])
              2 [3] (NDArray [2] [F64.half; F64.two])
              eq_refl eq_refl eq_refl eq_refl eq_refl eq_refl eq_refl)
    as (indices & _ & _ & Hens & Hmem & Hn & _).
  exists indices. split; [exact Hens|]. split; [|exact Hn].
  apply Hmem. split; [lia|]. exists F64.half. split; reflexivity.
Defined.

(** ** The calls to the forces *)

Section ForceCalls.
Context {W : Type}.
Implicit Types (st : state W) (forces : list (Force.t W)).

Lemma drift_calls c st : calls (drift c st).2 = calls st.
Proof.
  unfold drift. unfold_monad.
  by destruct (np_iop F64.add (Ensemble.x (ens st))
                 (np_map (F64.mul c) (Ensemble.v (ens st)))).
Qed.

Lemma kick_calls f m st : calls (kick f m st).2 = calls st.
Proof.
  unfold kick. unfold_monad.
  destruct (np_binop F64.div f m) as [q|ex]; [|done].
  by destruct (np_iop F64.add (Ensemble.v (ens st)) q).
Qed.

(** The loop over the forces calls them in list order, each once, up to
    the first that raises. *)
Lemma apply_forces_calls dt forces i f st :
  exists j,
    j <= length forces
    /\ calls (apply_forces dt i forces f st).2
       = calls st ++ ((fun k => Call_force k dt) <$> seq i j)
    /\ (forall r, (apply_forces dt i forces f st).1 = Ok r ->
                  j = length forces).
Proof.
  revert i f st. induction forces as [|force forces IH]; intros i f st.
  - exists 0. simpl. by rewrite app_nil_r.
  - simpl. unfold mbind, M_bind, call_force.
    destruct (Force.force force dt (ens st) f (world st)) as [[[f'|ex] e'] w].
    + destruct (IH (S i) f' (State e' w (calls st ++ [Call_force i dt])))
        as (j & Hj & Hcalls & Hok).
      exists (S j). split; [lia|]. split.
      * rewrite Hcalls. simpl. by rewrite <- app_assoc.
      * intros r Hr. by rewrite (Hok r Hr).
    + exists 1. split; [lia|]. split; [done|done].
Qed.

(** The loop over a list in two parts. *)
Lemma apply_forces_app dt pre post i f st :
  apply_forces dt i (pre ++ post) f st
  = (f' ← apply_forces dt i pre f; apply_forces dt (i + length pre) post f') st.
Proof.
  revert i f st. induction pre as [|force pre IH]; intros i f st.
  - simpl. unfold mbind, M_bind, mret, M_ret. by rewrite Nat.add_0_r.
  - simpl. unfold mbind, M_bind.
    destruct (call_force i force dt f st) as [[f'|ex] st']; [|done].
    rewrite IH. unfold mbind, M_bind.
    by replace (S i + length pre) with (i + S (length pre)) by lia.
Qed.

(** The loop stops at the first force that raises, with that force's
    exception, and in the ensemble and the world that force left. *)
Lemma apply_forces_first_raise dt pre force post f st f1 st1 ex e2 w2 :
  apply_forces dt 0 pre f st = (Ok f1, st1) ->
  Force.force force dt (ens st1) f1 (world st1) = (Raise ex, e2, w2) ->
  apply_forces dt 0 (pre ++ force :: post) f st
  = (Raise ex,
     State e2 w2
       (calls st ++ ((fun k => Call_force k dt) <$> seq 0 (S (length pre))))).
Proof.
  intros Hpre Hforce.
  destruct (apply_forces_calls dt pre 0 f st) as (j & _ & Hcalls & Hok).
  rewrite Hpre in Hcalls, Hok. specialize (Hok f1 eq_refl). subst j.
  simpl in Hcalls.
  rewrite seq_S, fmap_app, app_assoc, <- Hcalls.
  rewrite apply_forces_app. unfold mbind, M_bind. rewrite Hpre.
  cbn [apply_forces]. unfold mbind, M_bind, call_force. by rewrite Hforce.
Qed.

End ForceCalls.

(** X17.  In a step without a sink the only calls are those to the
    forces: [drift_kick] calls [force(dt, ensemble, f)] with the full
    time step [dt], in list order, each force at most once, and when it
    returns normally every force has been called exactly once.  It stops
    at the first force that raises: when the forces before [force] have
    returned and [force] raises [ex], the step ends in [ex], the calls
    are those to the forces up to and including [force], no later force
    is called, and the ensemble and the world are as [force] left
    them. *)
Theorem drift_kick_calls_forces_in_order {W} (dt : float64)
    (forces : list (Force.t W)) (st : state W) :
  (exists j,
     j <= length forces
     /\ calls (drift_kick dt forces None st).2
        = calls st ++ ((fun k => Call_force k dt) <$> seq 0 j)
     /\ ((drift_kick dt forces None st).1 = Ok tt -> j = length forces))
  /\ (forall pre force post st0 f1 st1 ex e2 w2,
        forces = pre ++ force :: post ->
        drift (F64.mul F64.half dt) st = (Ok tt, st0) ->
        apply_forces dt 0 pre (np_zeros_like (Ensemble.v (ens st0))) st0
        = (Ok f1, st1) ->
        Force.force force dt (ens st1) f1 (world st1) = (Raise ex, e2, w2) ->
        drift_kick dt forces None st
        = (Raise ex,
           State e2 w2
             (calls st
              ++ ((fun k => Call_force k dt) <$> seq 0 (S (length pre)))))).
Proof.
  split.
  2:{ intros pre force post st0 f1 st1 ex e2 w2 -> Hdrift Hpre Hforce.
      unfold drift_kick. rewrite decide_False by (rewrite length_app; simpl; lia).
      unfold mbind at 1. unfold M_bind at 1. rewrite process_sink_None.
      unfold mbind at 1. unfold M_bind at 1. rewrite Hdrift.
      unfold mbind at 1. unfold M_bind at 1. unfold get_ens at 1.
      unfold mbind at 1. unfold M_bind at 1.
      rewrite (apply_forces_first_raise dt pre force post _ st0 f1 st1 ex e2 w2
                 Hpre Hforce).
      pose proof (drift_calls (F64.mul F64.half dt) st) as Hd.
      rewrite Hdrift in Hd. simpl in Hd. by rewrite Hd. }
  set (P := fun r : result unit * state W =>
              exists j,
                j <= length forces
                /\ calls r.2 = calls st ++ ((fun k => Call_force k dt) <$> seq 0 j)
                /\ (r.1 = Ok tt -> j = length forces)).
  change (P (drift_kick dt forces None st)).
  unfold drift_kick. case_decide as Hlen.
  - unfold mbind, M_bind. rewrite process_sink_None.
    exists 0. rewrite drift_calls. simpl. rewrite app_nil_r.
    split; [lia|]. split; [done|]. intros _. lia.
  - unfold mbind at 1. unfold M_bind at 1. rewrite process_sink_None.
    unfold mbind at 1. unfold M_bind at 1.
    pose proof (drift_calls (F64.mul F64.half dt) st) as Hd.
    destruct (drift (F64.mul F64.half dt) st) as [[[]|ex] st2].
    2:{ exists 0. simpl in *. rewrite Hd, app_nil_r.
        split; [lia|]. by split. }
    unfold mbind at 1. unfold M_bind at 1. unfold get_ens at 1.
    unfold mbind at 1. unfold M_bind at 1.
    destruct (apply_forces_calls dt forces 0
                (np_zeros_like (Ensemble.v (ens st2))) st2)
      as (j & Hj & Hcalls & Hok).
    simpl in Hd. rewrite Hd in Hcalls.
    destruct (apply_forces dt 0 forces (np_zeros_like (Ensemble.v (ens st2))) st2)
      as [[f|ex] st3].
    2:{ exists j. split; [lia|]. by split. }
    specialize (Hok f eq_refl).
    unfold mbind at 1. unfold M_bind at 1. unfold get_ens at 1.
    unfold mbind at 1. unfold M_bind at 1. unfold lift at 1.
    destruct (resolve_mass (ens st3)) as [m|ex];
      [|exists j; split; [lia|]; by split].
    unfold mbind at 1. unfold M_bind at 1.
    pose proof (kick_calls f m st3) as Hk.
    destruct (kick f m st3) as [[[]|ex] st4];
      [|exists j; simpl in *; rewrite Hk; split; [lia|]; by split].
    unfold mbind at 1. unfold M_bind at 1. rewrite process_sink_None.
    exists j. rewrite drift_calls. simpl in *. rewrite Hk.
    split; [lia|]. by split.
Qed.

(** X17 at work: of a push, a force that raises and another push, the
    first two are called and the third is not. *)
Lemma drift_kick_calls_forces_in_order_witness :
  (drift_kick F64.one [unit_push; failing_force; unit_push] None
     (State ptcl_with_two_masses tt [])).1
  = Raise (ValueError "no field at this position")
  /\ calls (drift_kick F64.one [unit_push; failing_force; unit_push] None
              (State ptcl_with_two_masses tt [])).2
     = [Call_force 0 F64.one; Call_force 1 F64.one].
Proof.
  pose proof (proj2 (drift_kick_calls_forces_in_order F64.one
                       [unit_push; failing_force; unit_push]
                       (State ptcl_with_two_masses tt []))
                [unit_push] failing_force [unit_push]
                (State ptcl_with_two_masses tt [])
                (NDArray [1; 3] [F64.one; F64.one; F64.one])
                (State ptcl_with_two_masses tt [Call_force 0 F64.one])
                (ValueError "no field at this position")
                ptcl_with_two_masses tt
                eq_refl ltac:(vm_compute; reflexivity)
                ltac:(vm_compute; reflexivity) eq_refl) as Hrun.
  rewrite Hrun. split; reflexivity.
Defined.
